(** * Liberate app: reactive bus, state store, post quota and scroll budget

    A shallow embedding of the coordination core of the application:
    - [ui/reactive_ui.py]      (class [ReactiveUI]),
    - [services/post_service.py]   (method [PostService.create_post]),
    - [services/scroll_service.py] (class [ScrollLimitService]),
    - [models/user.py]         (class [User]).

    Python objects are records, the interpreter's heap is threaded as an
    explicit [World], and a raised [Exception] is a [Raise] result, so that
    every [try]/[except] of the source is visible in the model. *)

From Stdlib Require Import ZArith List String Bool Lia Permutation.
From stdpp Require Import gmap strings list fin_maps.

Local Open Scope string_scope.
Local Open Scope list_scope.
Local Open Scope Z_scope.

(** ** Python values *)

(** Instances of [Exception] raised in the modelled code.  The constructor
    is the class, the argument is [str(e)].  Signals outside the [Exception]
    hierarchy ([KeyboardInterrupt], [SystemExit]) are not part of the model. *)
Inductive Exception :=
| ValueError (msg : string)
| TypeError (msg : string)
| KeyError (msg : string)
| PyMongoError (msg : string)
| RuntimeError (msg : string).

Definition str_exc (e : Exception) : string :=
  match e with
  | ValueError msg | TypeError msg | KeyError msg
  | PyMongoError msg | RuntimeError msg => msg
  end.

Inductive Result (A : Type) :=
| Ok (a : A)
| Raise (e : Exception).
Arguments Ok {A} a.
Arguments Raise {A} e.

(** [datetime] values are counted in microseconds, [date] values in days. *)
Definition datetime := Z.
Definition date := Z.
Definition us_per_day : Z := 86400000000.
Definition date_of (t : datetime) : date := t / us_per_day.

(** models/user.py, class [User]. *)
Record User := {
  user_id : string;
  username : string;
  email : string;
  password_hash : string;
  daily_posts : Z;
  last_post_date : option date;
  scroll_time_today : Z;
  last_scroll_reset : date;
  profile_image : option string;
  created_at : datetime;
}.

(** The values that travel through the bus and the state store ([Any] in
    the source).  [VChange] is the dict literal
    [{'key': .., 'old_value': .., 'new_value': ..}] built by [set_state].
    Two kinds of value are told apart by the object, not by the content:
    [VNaN oid] is the float object [oid] holding [nan], which is not equal
    to itself but is skipped as identical when a dict is compared entry by
    entry; [VUser oid uid] is the [User] object [oid], shown with its
    [user_id], of a class without [__eq__], so that two of them are equal
    only when they are one object. *)
Inductive Value :=
| VNone
| VBool (b : bool)
| VInt (n : Z)
| VNaN (oid : nat)
| VStr (s : string)
| VUser (oid : nat) (uid : string)
| VChange (key : string) (old_value new_value : Value).

(** Python's [is], where the comparison of dict entries asks for it: on
    the values whose [==] is not reflexive or is the identity itself.  For
    the others an identical object is an equal one, and [==] decides. *)
Definition py_is (a b : Value) : bool :=
  match a, b with
  | VNaN x, VNaN y => (x =? y)%nat
  | VUser x _, VUser y _ => (x =? y)%nat
  | _, _ => false
  end.

(** Python's [==] on these values: [True == 1], [nan != nan] also for one
    and the same object, [User] objects compared by identity, and dicts
    compared entry by entry, an entry being equal when its two values are
    identical or equal. *)
Fixpoint py_eq (a b : Value) : bool :=
  match a, b with
  | VNone, VNone => true
  | VBool x, VBool y => Bool.eqb x y
  | VInt x, VInt y => x =? y
  | VBool x, VInt y => Z.b2z x =? y
  | VInt x, VBool y => x =? Z.b2z y
  | VStr x, VStr y => String.eqb x y
  | VUser x _, VUser y _ => (x =? y)%nat
  | VChange k o n, VChange k' o' n' =>
      String.eqb k k'
      && (py_is o o' || py_eq o o')
      && (py_is n n' || py_eq n n')
  | _, _ => false
  end.

(** Python's [!=]. *)
Definition py_ne (a b : Value) : bool := negb (py_eq a b).

(** ** The reactive bus: data *)

(** A callable registered on the bus.  [External f] is a function object
    supplied by a consumer, [f] being its identity.  [BoundLambda n eid] is
    the closure [lambda data: self._update_bound_element(eid, data)] that
    [bind_element] creates; [n] is the identity of that function object. *)
Inductive Callback :=
| External (f : nat)
| BoundLambda (serial : nat) (element_id : string).

#[global] Instance Callback_eq_dec : EqDecision Callback.
Proof. solve_decision. Defined.

(** An entry of [event_history]: the dict
    [{'timestamp': .., 'event': .., 'data': ..}]. *)
Record EventRecord := {
  timestamp : datetime;
  event : string;
  data : Value;
}.

#[global] Instance Value_eq_dec : EqDecision Value.
Proof. solve_decision. Defined.

#[global] Instance EventRecord_eq_dec : EqDecision EventRecord.
Proof. solve_decision. Defined.

(** An entry of [_ui_elements]: [{'state_key': .., 'callback': ..}].  The
    callback is the consumer's [update_callback], an external function
    object. *)
Record Binding := {
  state_key : string;
  callback : nat;
}.

(** The attributes of a [ReactiveUI] instance that its methods read or
    write.  [lock] is not a field: the model is sequential. *)
Record ReactiveUI := {
  observers : gmap string (list Callback);
  state : gmap string Value;
  event_history : list EventRecord;
  _running : bool;
  _ui_elements : gmap string Binding;
}.

(** [self.max_history = 100], assigned once in [__init__]. *)
Definition max_history : nat := 100.

(** [ReactiveUI.__init__]. *)
Definition ReactiveUI_init : ReactiveUI :=
  {| observers := ∅; state := ∅; event_history := []; _running := true;
     _ui_elements := ∅ |}.

(** ** The world *)

(** A call made to the document store. *)
Inductive StoreCall :=
| InsertPost (uid : string) (content purpose source : string)
| UpdateUserPosts (uid : string) (posts : Z) (day : date)
| UpdateUserScroll (uid : string) (seconds : Z) (day : date).

(** What the store answers: [update_one]/[insert_one] return (with the
    [modified_count] of the result) or raise. *)
Inductive StoreAnswer :=
| Done (modified_count : nat)
| Failed (e : Exception).

(** Everything the modelled code can read or change.
    - [ui], [user]: the [ReactiveUI] instance and the [User] object the
      services are called on (Python passes both by reference);
    - [clock_reads], [store_calls]: how often [datetime.now()] was read, and
      the calls made to the store so far;
    - [stdout]: the lines printed;
    - [emitted], [delivered]: observation logs, not program state: the
      [emit] calls made, and the callbacks invoked by the delivery loop of
      [emit], each in order. *)
Record World := {
  ui : ReactiveUI;
  user : User;
  clock_reads : nat;
  store_calls : list StoreCall;
  stdout : list string;
  emitted : list (string * Value);
  delivered : list (Callback * Value);
}.

(** The collaborators the core does not own.
    - [now_at k]: what the [k]-th reading of [datetime.now()] returns;
    - [store_at k c]: how the store answers its [k]-th call [c];
    - [callable f d u]: what the external function object [f] does when it
      is called with [d]: it returns or raises, and it may re-enter the bus
      and so change the [ReactiveUI] instance [u];
    - [sanitize_input]: [SecurityValidator.sanitize_input]. *)
Record Env := {
  now_at : nat -> datetime;
  store_at : nat -> StoreCall -> StoreAnswer;
  callable : nat -> Value -> ReactiveUI -> Result unit * ReactiveUI;
  sanitize_input : string -> string;
}.

(** ** A state and exception monad *)

Definition M (A : Type) : Type := World -> Result A * World.

#[global] Instance M_ret : MRet M := fun A a w => (Ok a, w).

#[global] Instance M_bind : MBind M := fun A B k m w =>
  match m w with
  | (Ok a, w') => k a w'
  | (Raise e, w') => (Raise e, w')
  end.

(** [raise e]. *)
Definition raise {A} (e : Exception) : M A := fun w => (Raise e, w).

(** [try: body  except Exception as e: handler(e)].  The changes the body
    made before raising stay. *)
Definition try_except {A} (body : M A) (handler : Exception -> M A) : M A :=
  fun w =>
    match body w with
    | (Ok a, w') => (Ok a, w')
    | (Raise e, w') => handler e w'
    end.

(** [for x in l: body(x)]. *)
Fixpoint for_each {A} (l : list A) (body : A -> M unit) : M unit :=
  match l with
  | [] => mret tt
  | x :: l' => body x ;; for_each l' body
  end.

Definition gets {A} (f : World -> A) : M A := fun w => (Ok (f w), w).
Definition modify (f : World -> World) : M unit := fun w => (Ok tt, f w).

Definition set_ui (u : ReactiveUI) (w : World) : World :=
  {| ui := u; user := user w; clock_reads := clock_reads w;
     store_calls := store_calls w; stdout := stdout w;
     emitted := emitted w; delivered := delivered w |}.

Definition set_user (x : User) (w : World) : World :=
  {| ui := ui w; user := x; clock_reads := clock_reads w;
     store_calls := store_calls w; stdout := stdout w;
     emitted := emitted w; delivered := delivered w |}.

(** [print(line)]. *)
Definition print (line : string) : M unit :=
  modify (fun w =>
    {| ui := ui w; user := user w; clock_reads := clock_reads w;
       store_calls := store_calls w; stdout := stdout w ++ [line];
       emitted := emitted w; delivered := delivered w |}).

Definition log_emitted (event_name : string) (d : Value) : M unit :=
  modify (fun w =>
    {| ui := ui w; user := user w; clock_reads := clock_reads w;
       store_calls := store_calls w; stdout := stdout w;
       emitted := emitted w ++ [(event_name, d)]; delivered := delivered w |}).

Definition log_delivered (cb : Callback) (d : Value) : M unit :=
  modify (fun w =>
    {| ui := ui w; user := user w; clock_reads := clock_reads w;
       store_calls := store_calls w; stdout := stdout w;
       emitted := emitted w; delivered := delivered w ++ [(cb, d)] |}).

Definition modify_ui (f : ReactiveUI -> ReactiveUI) : M unit :=
  modify (fun w => set_ui (f (ui w)) w).

Definition modify_user (f : User -> User) : M unit :=
  modify (fun w => set_user (f (user w)) w).

(** ** The reactive bus: methods of [ReactiveUI] *)

Definition with_observers (f : gmap string (list Callback) -> gmap string (list Callback))
    (u : ReactiveUI) : ReactiveUI :=
  {| observers := f (observers u); state := state u;
     event_history := event_history u; _running := _running u;
     _ui_elements := _ui_elements u |}.

Definition with_state (f : gmap string Value -> gmap string Value)
    (u : ReactiveUI) : ReactiveUI :=
  {| observers := observers u; state := f (state u);
     event_history := event_history u; _running := _running u;
     _ui_elements := _ui_elements u |}.

Definition with_event_history (f : list EventRecord -> list EventRecord)
    (u : ReactiveUI) : ReactiveUI :=
  {| observers := observers u; state := state u;
     event_history := f (event_history u); _running := _running u;
     _ui_elements := _ui_elements u |}.

Definition with_ui_elements (f : gmap string Binding -> gmap string Binding)
    (u : ReactiveUI) : ReactiveUI :=
  {| observers := observers u; state := state u;
     event_history := event_history u; _running := _running u;
     _ui_elements := f (_ui_elements u) |}.

Definition with_running (b : bool) (u : ReactiveUI) : ReactiveUI :=
  {| observers := observers u; state := state u;
     event_history := event_history u; _running := b;
     _ui_elements := _ui_elements u |}.

(** [l.remove(x)] for an [x] that is in [l]: the first occurrence goes. *)
Fixpoint list_remove (x : Callback) (l : list Callback) : list Callback :=
  match l with
  | [] => []
  | y :: l' => if decide (y = x) then l' else y :: list_remove x l'
  end.

(** [subscribe]. *)
Definition subscribe (event_name : string) (cb : Callback) : M unit :=
  known ← gets (fun w => observers (ui w) !! event_name);
  match known with
  | None => modify_ui (with_observers (<[event_name := []]>))
  | Some _ => mret tt
  end ;;
  registered ← gets (fun w => default [] (observers (ui w) !! event_name));
  if bool_decide (cb ∈ registered) then mret tt
  else
    modify_ui (with_observers (<[event_name := registered ++ [cb]]>)) ;;
    print ("✅ Suscrito a evento '" +:+ event_name +:+ "'").

(** [unsubscribe]. *)
Definition unsubscribe (event_name : string) (cb : Callback) : M unit :=
  known ← gets (fun w => observers (ui w) !! event_name);
  match known with
  | Some registered =>
      if bool_decide (cb ∈ registered) then
        modify_ui (with_observers (<[event_name := list_remove cb registered]>)) ;;
        print ("✅ Desuscrito del evento '" +:+ event_name +:+ "'")
      else mret tt
  | None => mret tt
  end.

(** [history[:limit]], for a [limit] of either sign. *)
Definition slice_to {A} (l : list A) (limit : Z) : list A :=
  if limit <? 0 then take (Z.to_nat (Z.of_nat (length l) + limit)) l
  else take (Z.to_nat limit) l.

(** [history.sort(key=lambda x: x['timestamp'], reverse=True)]: a stable
    sort, newest first; records with the same timestamp keep their order. *)
Fixpoint insert_desc (r : EventRecord) (l : list EventRecord) : list EventRecord :=
  match l with
  | [] => [r]
  | y :: l' =>
      if timestamp r <? timestamp y then y :: insert_desc r l' else r :: y :: l'
  end.

Definition sort_newest_first (l : list EventRecord) : list EventRecord :=
  foldr insert_desc [] l.

(** [get_event_history]: it reads the instance and changes nothing.
    [if event_name:] and [if limit:] test truthiness, so [None], [""] and
    [0] all skip their step. *)
Definition get_event_history (u : ReactiveUI)
    (event_name : option string) (limit : option Z) : list EventRecord :=
  let history := event_history u in
  let history :=
    match event_name with
    | Some name =>
        if bool_decide (name = "") then history
        else filter (fun e => event e = name) history
    | None => history
    end in
  let history := sort_newest_first history in
  match limit with
  | Some n => if n =? 0 then history else slice_to history n
  | None => history
  end.

(** [get_observers_count(event_name)] for a given, non-empty name: the
    value stored under that name in the returned dict. *)
Definition get_observers_count (u : ReactiveUI) (event_name : string) : nat :=
  length (default [] (observers u !! event_name)).

(** [get_state]. *)
Definition get_state (u : ReactiveUI) (key : string) (default_value : Value) : Value :=
  default default_value (state u !! key).

(** [data['new_value']]: only the dict has the key; every other value
    raises [TypeError]. *)
Definition subscript_new_value (d : Value) : M Value :=
  match d with
  | VChange _ _ new_value => mret new_value
  | VNone => raise (TypeError "'NoneType' object is not subscriptable")
  | VBool _ => raise (TypeError "'bool' object is not subscriptable")
  | VInt _ => raise (TypeError "'int' object is not subscriptable")
  | VNaN _ => raise (TypeError "'float' object is not subscriptable")
  | VStr _ => raise (TypeError "string indices must be integers, not 'str'")
  | VUser _ _ => raise (TypeError "'User' object is not subscriptable")
  end.

(** The identity of a function object created now: a number that no
    lambda registered on the bus carries. *)
Definition serial_of (cb : Callback) : nat :=
  match cb with
  | External _ => 0%nat
  | BoundLambda n _ => S n
  end.

Definition fresh_serial (obs : gmap string (list Callback)) : nat :=
  foldr Nat.max 0%nat (serial_of <$> concat (snd <$> map_to_list obs)).

Section Bus.
Context (env : Env).

(** [datetime.now()]. *)
Definition datetime_now : M datetime := fun w =>
  (Ok (now_at env (clock_reads w)),
   {| ui := ui w; user := user w; clock_reads := S (clock_reads w);
      store_calls := store_calls w; stdout := stdout w;
      emitted := emitted w; delivered := delivered w |}).

(** [f(d)] for an external function object [f]. *)
Definition call_external (f : nat) (d : Value) : M unit := fun w =>
  let (r, u) := callable env f d (ui w) in (r, set_ui u w).

(** [_add_to_history]. *)
Definition _add_to_history (event_name : string) (d : Value) : M unit :=
  now ← datetime_now;
  let event_record := {| timestamp := now; event := event_name; data := d |} in
  modify_ui (with_event_history (fun h => h ++ [event_record])) ;;
  n ← gets (fun w => length (event_history (ui w)));
  if (max_history <? n)%nat then modify_ui (with_event_history tail)
  else mret tt.

(** [_update_bound_element]. *)
Definition _update_bound_element (element_id : string) (d : Value) : M unit :=
  bound ← gets (fun w => _ui_elements (ui w) !! element_id);
  match bound with
  | Some b =>
      try_except
        (new_value ← subscript_new_value d;
         call_external (callback b) new_value)
        (fun e => print ("Error actualizando elemento vinculado "
                         +:+ element_id +:+ ": " +:+ str_exc e))
  | None => mret tt
  end.

(** [callback(data)] for a callable registered on the bus. *)
Definition call (cb : Callback) (d : Value) : M unit :=
  match cb with
  | External f => call_external f d
  | BoundLambda _ element_id => _update_bound_element element_id d
  end.

(** The [with self.lock:] block of [emit]: record the event, copy the
    list of observers. *)
Definition emit_locked (event_name : string) (d : Value) : M (list Callback) :=
  _add_to_history event_name d ;;
  gets (fun w => default [] (observers (ui w) !! event_name)).

(** The body of the delivery loop of [emit]: one callback is called
    inside [try]/[except].  The call is noted in the observation log
    [delivered] first. *)
Definition notify (event_name : string) (d : Value) (cb : Callback) : M unit :=
  try_except
    (log_delivered cb d ;; call cb d)
    (fun e => print ("Error al ejecutar callback para '"
                     +:+ event_name +:+ "': " +:+ str_exc e)).

(** The delivery loop of [emit], outside the lock. *)
Definition deliver (event_name : string) (d : Value)
    (observers_copy : list Callback) : M unit :=
  for_each observers_copy (notify event_name d).

(** [emit].  Its first line writes the observation log [emitted]; the
    source starts at the locked block. *)
Definition emit (event_name : string) (d : Value) : M unit :=
  log_emitted event_name d ;;
  observers_copy ← emit_locked event_name d;
  deliver event_name d observers_copy.

(** [set_state]. *)
Definition set_state (key : string) (value : Value) (emit_change : bool) : M unit :=
  old_value ← gets (fun w => default VNone (state (ui w) !! key));
  modify_ui (with_state (<[key := value]>)) ;;
  if emit_change && py_ne old_value value then
    emit ("state_changed_" +:+ key) (VChange key old_value value) ;;
    emit "state_changed" (VChange key old_value value)
  else mret tt.

(** [bind_element]. *)
Definition bind_element (element_id : string) (key : string)
    (update_callback : nat) : M unit :=
  modify_ui (with_ui_elements
    (<[element_id := {| state_key := key; callback := update_callback |}]>)) ;;
  lambda_id ← gets (fun w => fresh_serial (observers (ui w)));
  subscribe ("state_changed_" +:+ key) (BoundLambda lambda_id element_id) ;;
  current_value ← gets (fun w => get_state (ui w) key VNone);
  match current_value with
  | VNone => mret tt
  | _ =>
      try_except
        (call_external update_callback current_value)
        (fun e => print ("Error actualizando elemento " +:+ element_id
                         +:+ ": " +:+ str_exc e))
  end.

(** [unbind_element]. *)
Definition unbind_element (element_id : string) : M unit :=
  bound ← gets (fun w => _ui_elements (ui w) !! element_id);
  match bound with
  | Some b =>
      let state_key := state_key b in
      modify_ui (with_ui_elements (delete element_id))
  | None => mret tt
  end.

(** [clear_history]. *)
Definition clear_history : M unit :=
  modify_ui (with_event_history (fun _ => [])) ;;
  emit "history_cleared" VNone.

(** [dispose]. *)
Definition dispose : M unit :=
  modify_ui (with_running false) ;;
  modify_ui (fun u =>
    {| observers := ∅; state := ∅; event_history := [];
       _running := _running u; _ui_elements := ∅ |}) ;;
  emit "system_disposed" VNone ;;
  print "🧹 Sistema ReactiveUI limpiado".

End Bus.

(** ** The user object and the two policies *)

Definition set_daily_posts (n : Z) (x : User) : User :=
  {| user_id := user_id x; username := username x; email := email x;
     password_hash := password_hash x; daily_posts := n;
     last_post_date := last_post_date x;
     scroll_time_today := scroll_time_today x;
     last_scroll_reset := last_scroll_reset x;
     profile_image := profile_image x; created_at := created_at x |}.

Definition set_last_post_date (d : option date) (x : User) : User :=
  {| user_id := user_id x; username := username x; email := email x;
     password_hash := password_hash x; daily_posts := daily_posts x;
     last_post_date := d;
     scroll_time_today := scroll_time_today x;
     last_scroll_reset := last_scroll_reset x;
     profile_image := profile_image x; created_at := created_at x |}.

Definition set_scroll_time_today (n : Z) (x : User) : User :=
  {| user_id := user_id x; username := username x; email := email x;
     password_hash := password_hash x; daily_posts := daily_posts x;
     last_post_date := last_post_date x;
     scroll_time_today := n;
     last_scroll_reset := last_scroll_reset x;
     profile_image := profile_image x; created_at := created_at x |}.

Definition set_last_scroll_reset (d : date) (x : User) : User :=
  {| user_id := user_id x; username := username x; email := email x;
     password_hash := password_hash x; daily_posts := daily_posts x;
     last_post_date := last_post_date x;
     scroll_time_today := scroll_time_today x;
     last_scroll_reset := d;
     profile_image := profile_image x; created_at := created_at x |}.

(** [not s.strip()]: the string is empty or holds only white space (the
    ASCII white space of [str.isspace]). *)
Definition is_space (c : Ascii.ascii) : bool :=
  let n := Ascii.nat_of_ascii c in
  ((9 <=? n) && (n <=? 13) || (28 <=? n) && (n <=? 32))%nat.

Fixpoint is_blank (s : string) : bool :=
  match s with
  | EmptyString => true
  | String c s' => is_space c && is_blank s'
  end.

(** [self.DAILY_SCROLL_LIMIT = 1800], 30 minutes in seconds. *)
Definition DAILY_SCROLL_LIMIT : Z := 1800.

(** The identity of the [User] object that the services are handed: the
    world holds this one object, and [emit("user_updated", user)] passes
    it on. *)
Definition user_object : nat := 0.

(** The integer entries of the dict that [get_scroll_stats] returns (it
    also holds a float percentage and two formatted strings). *)
Record ScrollStats := {
  total_limit_minutes : Z;
  used_time_seconds : Z;
  used_time_minutes : Z;
  remaining_time_seconds : Z;
  remaining_time_minutes : Z;
  is_limit_reached : bool;
}.

Section Services.
Context (env : Env).

(** A call to the store: it is recorded, and the store answers. *)
Definition store_call (c : StoreCall) : M nat := fun w =>
  let w' :=
    {| ui := ui w; user := user w; clock_reads := clock_reads w;
       store_calls := store_calls w ++ [c]; stdout := stdout w;
       emitted := emitted w; delivered := delivered w |} in
  match store_at env (length (store_calls w)) c with
  | Done n => (Ok n, w')
  | Failed e => (Raise e, w')
  end.

(** [datetime.now().date()]. *)
Definition today_now : M date :=
  now ← datetime_now env; mret (date_of now).

(** [User.reset_daily_limits]. *)
Definition reset_daily_limits : M unit :=
  today ← today_now;
  x ← gets user;
  (if bool_decide (last_post_date x ≠ Some today)
   then modify_user (set_daily_posts 0) else mret tt) ;;
  x ← gets user;
  if bool_decide (last_scroll_reset x ≠ today) then
    modify_user (set_scroll_time_today 0) ;;
    modify_user (set_last_scroll_reset today)
  else mret tt.

(** The body of the [try] of [PostService.create_post].  The random
    [post_id] and the [image_path] only go into the document and are left
    out of it here. *)
Definition create_post_body (content purpose source : string) : M bool :=
  x ← gets user;
  (if 3 <=? daily_posts x
   then raise (ValueError "Has alcanzado el límite diario de 3 posts")
   else mret tt) ;;
  let clean_content := sanitize_input env content in
  let clean_purpose :=
    if bool_decide (purpose = "") then "" else sanitize_input env purpose in
  let clean_source :=
    if bool_decide (source = "") then "" else sanitize_input env source in
  (if is_blank clean_content
   then raise (ValueError "El contenido no puede estar vacío")
   else mret tt) ;;
  (* Post(...): the constructor sanitizes again and reads the clock twice *)
  _ ← datetime_now env;
  _ ← datetime_now env;
  store_call (InsertPost (user_id x) (sanitize_input env clean_content)
                (sanitize_input env clean_purpose)
                (sanitize_input env clean_source)) ;;
  today ← today_now;
  x ← gets user;
  (if bool_decide (last_post_date x ≠ Some today) then
     modify_user (set_daily_posts 1) ;;
     modify_user (set_last_post_date (Some today))
   else modify_user (set_daily_posts (daily_posts x + 1))) ;;
  x ← gets user;
  store_call (UpdateUserPosts (user_id x) (daily_posts x)
                (default 0 (last_post_date x))) ;;
  emit env "user_updated" (VUser user_object (user_id x)) ;;
  mret true.

(** [PostService.create_post]. *)
Definition create_post (content purpose source : string) : M bool :=
  try_except (create_post_body content purpose source)
    (fun e => print ("Error creando post: " +:+ str_exc e) ;; mret false).

(** [ScrollLimitService._reset_daily_limits_if_needed]. *)
Definition _reset_daily_limits_if_needed : M unit :=
  today ← today_now;
  x ← gets user;
  if bool_decide (last_scroll_reset x ≠ today) then
    modify_user (set_scroll_time_today 0) ;;
    modify_user (set_last_scroll_reset today) ;;
    store_call (UpdateUserScroll (user_id x) 0 today) ;;
    mret tt
  else mret tt.

(** [ScrollLimitService.check_scroll_limit]. *)
Definition check_scroll_limit : M bool :=
  try_except
    (_reset_daily_limits_if_needed ;;
     x ← gets user;
     mret (scroll_time_today x <? DAILY_SCROLL_LIMIT))
    (fun e => print ("Error verificando límite de scroll: " +:+ str_exc e) ;;
              mret false).

(** [ScrollLimitService.add_scroll_time]. *)
Definition add_scroll_time (seconds : Z) : M bool :=
  try_except
    (_reset_daily_limits_if_needed ;;
     x ← gets user;
     modify_user (set_scroll_time_today (scroll_time_today x + seconds)) ;;
     x ← gets user;
     (if DAILY_SCROLL_LIMIT <? scroll_time_today x
      then modify_user (set_scroll_time_today DAILY_SCROLL_LIMIT)
      else mret tt) ;;
     x ← gets user;
     modified_count ← store_call (UpdateUserScroll (user_id x)
                                    (scroll_time_today x) (last_scroll_reset x));
     mret (0 <? modified_count)%nat)
    (fun e => print ("Error agregando tiempo de scroll: " +:+ str_exc e) ;;
              mret false).

(** [ScrollLimitService.get_remaining_scroll_time]. *)
Definition get_remaining_scroll_time : M Z :=
  try_except
    (_reset_daily_limits_if_needed ;;
     x ← gets user;
     let remaining := DAILY_SCROLL_LIMIT - scroll_time_today x in
     mret (Z.max 0 remaining))
    (fun e => print ("Error obteniendo tiempo restante: " +:+ str_exc e) ;;
              mret 0).

(** [ScrollLimitService.get_scroll_stats]; [None] is the empty dict of
    the [except] branch.  [//] by 60 rounds down, as [Z.div] does. *)
Definition get_scroll_stats : M (option ScrollStats) :=
  try_except
    (_reset_daily_limits_if_needed ;;
     x ← gets user;
     let used_minutes := scroll_time_today x / 60 in
     remaining_seconds ← get_remaining_scroll_time;
     let remaining_minutes := remaining_seconds / 60 in
     x ← gets user;
     mret (Some
       {| total_limit_minutes := DAILY_SCROLL_LIMIT / 60;
          used_time_seconds := scroll_time_today x;
          used_time_minutes := used_minutes;
          remaining_time_seconds := remaining_seconds;
          remaining_time_minutes := remaining_minutes;
          is_limit_reached := DAILY_SCROLL_LIMIT <=? scroll_time_today x |}))
    (fun e => print ("Error obteniendo estadísticas: " +:+ str_exc e) ;;
              mret None).

(** [ScrollLimitService.reset_user_scroll_time]. *)
Definition reset_user_scroll_time : M bool :=
  try_except
    (modify_user (set_scroll_time_today 0) ;;
     today ← today_now;
     modify_user (set_last_scroll_reset today) ;;
     x ← gets user;
     modified_count ← store_call (UpdateUserScroll (user_id x) 0
                                    (last_scroll_reset x));
     mret (0 <? modified_count)%nat)
    (fun e => print ("Error reseteando tiempo de scroll: " +:+ str_exc e) ;;
              mret false).

(** [ScrollLimitService.is_scroll_warning_needed]. *)
Definition is_scroll_warning_needed : M bool :=
  try_except
    (remaining ← get_remaining_scroll_time;
     mret ((remaining <=? 300) && (0 <? remaining)))
    (fun e => print ("Error verificando advertencia: " +:+ str_exc e) ;;
              mret false).

End Services.

(** ** The debounced emitter

    [create_debounced_emitter] returns a closure over two cells,
    [last_call_time] and [timer], and takes no lock: the statements of a
    call interleave with those of another call and with the steps of the
    timer threads.  Time ([time.time()], [delay]) is counted in
    milliseconds, so the tolerance [0.01] of the source is [10]. *)

(** How far the thread of a [threading.Timer] has come in [Timer.run] and,
    inside it, in [emit_if_latest]:
    - [Created]: [start()] has not been called;
    - [Waiting due]: it is in [self.finished.wait(self.interval)], which is
      over at [due] or when the flag is set;
    - [Running]: [if not self.finished.is_set()] held, and
      [emit_if_latest] is entered;
    - [Clocked now]: [time.time()] has returned [now];
    - [Emitting]: the comparison with [last_call_time] held, and [emit] is
      next;
    - [Ending]: [self.finished.set()] is next;
    - [Over]: the thread has ended. *)
Inductive TimerStage :=
| Created
| Waiting (due : Z)
| Running
| Clocked (now : Z)
| Emitting
| Ending
| Over.

(** A [threading.Timer(delay, emit_if_latest)]: [captured] is the [data]
    in the closure of its [emit_if_latest]; [finished] is the timer's own
    flag, set by [cancel()] and at the end of [run()]. *)
Record Timer := {
  captured : Value;
  finished : bool;
  stage : TimerStage;
}.

(** The statement of [debounced_emit] that a call executes next. *)
Inductive Stmt :=
| ReadTime
| WriteLastCall
| TestPending
| CancelPending
| CreateTimer
| StartTimer
| Returned
| Raised (e : Exception).

(** A call of [debounced_emit] in progress: its argument, its local
    [current_time] (0 until it is assigned), and where it stands. *)
Record Frame := {
  call_data : Value;
  current_time : Z;
  next : Stmt;
}.

(** The cells of one emitter, the timers created so far in the order in
    which they were stored in the cell, and the calls made so far.  The
    cell [timer] holds the index of a timer, or [None]. *)
Record Emitter := {
  last_call_time : Z;
  timer : option nat;
  timers : list Timer;
  frames : list Frame;
}.

(** What the scheduler lets happen at the time [at_time]: a thread calls
    the emitter with [d]; the call numbered [thread] executes its next
    statement; the thread of the timer numbered [number] takes its next
    step. *)
Inductive Tick :=
| Enter (at_time : Z) (d : Value)
| Run (thread : nat) (at_time : Z)
| Fire (number : nat) (at_time : Z).

Definition tick_time (t : Tick) : Z :=
  match t with
  | Enter at_time _ => at_time
  | Run _ at_time => at_time
  | Fire _ at_time => at_time
  end.

Definition tolerance : Z := 10.

(** [Timer.cancel()], and the end of [Timer.run()]: the flag is set. *)
Definition finish (t : Timer) : Timer :=
  {| captured := captured t; finished := true; stage := stage t |}.

Definition at_stage (s : TimerStage) (t : Timer) : Timer :=
  {| captured := captured t; finished := finished t; stage := s |}.

Definition with_timers (ts : list Timer) (e : Emitter) : Emitter :=
  {| last_call_time := last_call_time e; timer := timer e; timers := ts;
     frames := frames e |}.

Definition with_frames (fs : list Frame) (e : Emitter) : Emitter :=
  {| last_call_time := last_call_time e; timer := timer e;
     timers := timers e; frames := fs |}.

Definition goto (s : Stmt) (f : Frame) : Frame :=
  {| call_data := call_data f; current_time := current_time f; next := s |}.

(** The cells as [create_debounced_emitter] initialises them. *)
Definition create_debounced_emitter : Emitter :=
  {| last_call_time := 0; timer := None; timers := []; frames := [] |}.

(** A thread enters [debounced_emit(d)]. *)
Definition enter (d : Value) (e : Emitter) : Emitter :=
  with_frames
    (frames e ++ [{| call_data := d; current_time := 0; next := ReadTime |}]) e.

Section Debounce.
Context (env : Env) (event_name : string) (delay : Z).

(** [debounced_emit(data)], one statement at a time: the call numbered
    [thread] executes its next statement at the time [now]. *)
Definition debounced_emit (thread : nat) (now : Z) (e : Emitter) : Emitter :=
  match frames e !! thread with
  | None => e
  | Some f =>
      let continue s e' := with_frames (<[thread := goto s f]> (frames e')) e' in
      match next f with
      | ReadTime =>
          (* current_time = time.time() *)
          with_frames
            (<[thread := {| call_data := call_data f; current_time := now;
                            next := WriteLastCall |}]> (frames e)) e
      | WriteLastCall =>
          (* last_call_time['time'] = current_time *)
          continue TestPending
            {| last_call_time := current_time f; timer := timer e;
               timers := timers e; frames := frames e |}
      | TestPending =>
          (* if timer['timer']: *)
          match timer e with
          | Some _ => continue CancelPending e
          | None => continue CreateTimer e
          end
      | CancelPending =>
          (* timer['timer'].cancel(); the cell is never emptied again *)
          match timer e with
          | Some k => continue CreateTimer (with_timers (alter finish k (timers e)) e)
          | None => continue CreateTimer e
          end
      | CreateTimer =>
          (* timer['timer'] = threading.Timer(delay, emit_if_latest) *)
          continue StartTimer
            {| last_call_time := last_call_time e;
               timer := Some (length (timers e));
               timers := timers e ++ [{| captured := call_data f;
                                         finished := false; stage := Created |}];
               frames := frames e |}
      | StartTimer =>
          (* timer['timer'].start(); a thread is started only once *)
          match timer e with
          | Some k =>
              match stage <$> timers e !! k with
              | Some Created =>
                  continue Returned
                    (with_timers
                       (alter (at_stage (Waiting (now + delay))) k (timers e)) e)
              | _ =>
                  continue
                    (Raised (RuntimeError "threads can only be started once")) e
              end
          | None => continue Returned e
          end
      | Returned | Raised _ => e
      end
  end.

(** One step of the thread of a timer, at the time [now], the cell
    [last_call_time] holding [last_call]: where the thread stands
    afterwards.  The call of [emit] is made by [timer_step]. *)
Definition advance (now last_call : Z) (t : Timer) : Timer :=
  match stage t with
  | Created => t
  | Waiting due =>
      (* self.finished.wait(self.interval)
         if not self.finished.is_set(): *)
      if finished t then at_stage Ending t
      else if now <? due then t
      else at_stage Running t
  | Running =>
      (* time.time() *)
      at_stage (Clocked now) t
  | Clocked read =>
      (* if time.time() - last_call_time['time'] >= delay - 0.01: *)
      if delay - tolerance <=? read - last_call then at_stage Emitting t
      else at_stage Ending t
  | Emitting =>
      (* self.emit(event_name, data) *)
      at_stage Ending t
  | Ending =>
      (* self.finished.set() *)
      at_stage Over (finish t)
  | Over => t
  end.

(** One step of the thread of the timer numbered [k], at the time [now]. *)
Definition timer_step (k : nat) (now : Z) (e : Emitter) : M Emitter :=
  match timers e !! k with
  | None => mret e
  | Some t =>
      match stage t with
      | Emitting => emit env event_name (captured t)
      | _ => mret tt
      end ;;
      mret (with_timers (<[k := advance now (last_call_time e) t]> (timers e)) e)
  end.

(** The emitter under a schedule. *)
Fixpoint run_script (script : list Tick) (e : Emitter) : M Emitter :=
  match script with
  | [] => mret e
  | Enter _ d :: rest => run_script rest (enter d e)
  | Run thread now :: rest => run_script rest (debounced_emit thread now e)
  | Fire k now :: rest =>
      e' ← timer_step k now e;
      run_script rest e'
  end.

End Debounce.

(** The times of a script never go back. *)
Fixpoint in_time_order (script : list Tick) : Prop :=
  match script with
  | [] => True
  | t :: rest =>
      Forall (fun t' => tick_time t <= tick_time t') rest /\ in_time_order rest
  end.

(** The times at which the calls of a script enter and execute their
    statements. *)
Definition caller_times (script : list Tick) : list Z :=
  omap (fun t => match t with
                 | Enter a _ | Run _ a => Some a
                 | Fire _ _ => None
                 end) script.

(** * Vocabulary of the properties *)

(** The events a query for [name] is about: with a falsy name, all of
    them. *)
Definition matching (u : ReactiveUI) (name : option string) : list EventRecord :=
  match name with
  | None | Some "" => event_history u
  | Some n => filter (fun e => event e = n) (event_history u)
  end.

(** A bus whose history holds an event named [a] and a later one named
    [""]. *)
Definition two_events : ReactiveUI :=
  with_event_history
    (fun _ => [{| timestamp := 1; event := "a"; data := VNone |};
               {| timestamp := 2; event := ""; data := VNone |}])
    ReactiveUI_init.

(** The day the next reading of the clock falls on. *)
Definition today_of (env : Env) (w : World) : date :=
  date_of (now_at env (clock_reads w)).

(** The user object once the lazy rollover of the scroll budget has looked
    at it. *)
Definition rolled (env : Env) (w : World) : User :=
  if bool_decide (last_scroll_reset (user w) ≠ today_of env w)
  then set_last_scroll_reset (today_of env w) (set_scroll_time_today 0 (user w))
  else user w.

(** The invariant of the budget counter. *)
Definition budget_inv (x : User) : Prop :=
  0 <= scroll_time_today x <= DAILY_SCROLL_LIMIT.

(** The operations of the budget policy, and what each does to the world.
    [get_daily_usage_report] reaches the user through [get_scroll_stats]
    only, and [get_all_users_scroll_stats] works on temporary [User]
    objects built from the store. *)
Inductive BudgetOp :=
| CheckScrollLimit
| AddScrollTime (seconds : Z)
| GetRemainingScrollTime
| GetScrollStats
| ResetUserScrollTime
| IsScrollWarningNeeded
| ResetDailyLimitsIfNeeded.

Definition budget_step (env : Env) (w : World) (op : BudgetOp) : World :=
  match op with
  | CheckScrollLimit => snd (check_scroll_limit env w)
  | AddScrollTime seconds => snd (add_scroll_time env seconds w)
  | GetRemainingScrollTime => snd (get_remaining_scroll_time env w)
  | GetScrollStats => snd (get_scroll_stats env w)
  | ResetUserScrollTime => snd (reset_user_scroll_time env w)
  | IsScrollWarningNeeded => snd (is_scroll_warning_needed env w)
  | ResetDailyLimitsIfNeeded => snd (_reset_daily_limits_if_needed env w)
  end.

(** The policy is only handed durations that are not negative. *)
Definition legal (op : BudgetOp) : Prop :=
  match op with
  | AddScrollTime seconds => 0 <= seconds
  | _ => True
  end.

(** No rollover is pending, or the store takes the write of the rollover. *)
Definition rollover_written (env : Env) (w : World) : Prop :=
  last_scroll_reset (user w) = today_of env w
  \/ exists n, store_at env (length (store_calls w))
                 (UpdateUserScroll (user_id (user w)) 0 (today_of env w)) = Done n.

(** The world in which the user has scrolled [seconds] today. *)
Definition scrolled_today (env : Env) (w : World) (seconds : Z) : World :=
  set_user (set_last_scroll_reset (today_of env w)
              (set_scroll_time_today seconds (user w))) w.

(** A store that always answers, a store that is down, a clock that
    advances one hour per reading from the first day on, callbacks that
    return (the one numbered 7 raises), and a sanitizer that keeps its
    input. *)
Definition sample_env : Env :=
  {| now_at := fun k => us_per_day + 3600000000 * Z.of_nat k;
     store_at := fun _ _ => Done 1;
     callable := fun f _ u =>
       if (f =? 7)%nat then (Raise (RuntimeError "boom"), u) else (Ok tt, u);
     sanitize_input := fun s => s |}.

Definition store_down_env : Env :=
  {| now_at := now_at sample_env;
     store_at := fun _ _ => Failed (PyMongoError "connection refused");
     callable := callable sample_env;
     sanitize_input := sanitize_input sample_env |}.

(** A user created on day 0 who has neither posted nor scrolled. *)
Definition sample_user : User :=
  {| user_id := "u1"; username := "ana"; email := "ana@example.org";
     password_hash := ""; daily_posts := 0; last_post_date := Some 0;
     scroll_time_today := 0; last_scroll_reset := 0;
     profile_image := None; created_at := 0 |}.

Definition sample_world : World :=
  {| ui := ReactiveUI_init; user := sample_user; clock_reads := 0;
     store_calls := []; stdout := []; emitted := []; delivered := [] |}.

(** The same user with three posts made on day 0; the clock of
    [sample_env] shows day 1. *)
Definition at_limit_world : World :=
  set_user (set_daily_posts 3 sample_user) sample_world.

(** The same user with three posts made on day 1, the day the clock
    shows. *)
Definition at_limit_today_world : World :=
  set_user (set_last_post_date (Some 1) (set_daily_posts 3 sample_user))
    sample_world.

(** 101 emissions of the event [refresh], and the entry the first of them
    writes on a fresh bus under [sample_env]. *)
Definition burst101 : list (string * Value) := replicate 101 ("refresh", VNone).

Definition first_refresh : EventRecord :=
  {| timestamp := now_at sample_env 0; event := "refresh"; data := VNone |}.


(** The document [create_post] hands to [insert_one]. *)
Definition inserted_post (env : Env) (uid content purpose source : string) : StoreCall :=
  InsertPost uid
    (sanitize_input env (sanitize_input env content))
    (sanitize_input env
       (if bool_decide (purpose = "") then "" else sanitize_input env purpose))
    (sanitize_input env
       (if bool_decide (source = "") then "" else sanitize_input env source)).

(** The line [create_post] prints when the quota is used up. *)
Definition quota_line : string :=
  "Error creando post: Has alcanzado el límite diario de 3 posts".

(** ** The bus *)

(** [_add_to_history] after its [append]: one entry too many is popped
    from the front. *)
Definition evict (h : list EventRecord) : list EventRecord :=
  if (max_history <? length h)%nat then tail h else h.

(** The entry [emit] writes for the event [n] with data [d]. *)
Definition record_at (env : Env) (w : World) (n : string) (d : Value) : EventRecord :=
  {| timestamp := now_at env (clock_reads w); event := n; data := d |}.

(** The world when [emit] leaves its locked block. *)
Definition recorded (env : Env) (n : string) (d : Value) (w : World) : World :=
  {| ui := with_event_history (fun h => evict (h ++ [record_at env w n d])) (ui w);
     user := user w; clock_reads := S (clock_reads w);
     store_calls := store_calls w; stdout := stdout w;
     emitted := emitted w; delivered := delivered w |}.

(** The last [k] elements of a list. *)
Definition last_n {A} (k : nat) (l : list A) : list A := drop (length l - k) l.

(** The invariant of the history. *)
Definition history_bounded (u : ReactiveUI) : Prop :=
  (length (event_history u) <= max_history)%nat.

(** What a property may rely on: the external callables leave the
    history as it is. *)
Definition callbacks_keep_history (env : Env) : Prop :=
  forall f d u, event_history (snd (callable env f d u)) = event_history u.

(** The entries that a sequence of emissions writes when the clock has
    been read [k] times before. *)
Fixpoint records_from (env : Env) (k : nat) (es : list (string * Value)) : list EventRecord :=
  match es with
  | [] => []
  | (n, d) :: es' =>
      {| timestamp := now_at env k; event := n; data := d |} :: records_from env (S k) es'
  end.

(** A sequence of [emit] calls. *)
Definition emit_all (env : Env) (es : list (string * Value)) : M unit :=
  for_each es (fun e => emit env (fst e) (snd e)).

(** The external callables leave the state map as it is. *)
Definition callbacks_keep_state (env : Env) : Prop :=
  forall f d u, state (snd (callable env f d u)) = state u.

(** The external callables leave the table of observers as it is. *)
Definition callbacks_keep_observers (env : Env) : Prop :=
  forall f d u, observers (snd (callable env f d u)) = observers u.

(** How often the event [name] occurs in a log of emissions. *)
Definition emissions_of (name : string) (log : list (string * Value)) : nat :=
  length (filter (fun p => fst p = name) log).

(** The emissions of one [set_state] that stores [value] over
    [old_value]. *)
Definition change_events (key : string) (old_value value : Value) : list (string * Value) :=
  if py_ne old_value value
  then [("state_changed_" +:+ key, VChange key old_value value);
        ("state_changed", VChange key old_value value)]
  else [].

(** The external callables preserve the property [P] of the instance. *)
Definition callbacks_preserve (env : Env) (P : ReactiveUI -> Prop) : Prop :=
  forall f d u, P u -> P (snd (callable env f d u)).

(** Two worlds that agree on the user, the clock, the store and the log
    of emissions. *)
Definition same_outside_ui (w w' : World) : Prop :=
  user w' = user w /\ clock_reads w' = clock_reads w
  /\ store_calls w' = store_calls w /\ emitted w' = emitted w.


(** ** The debounced emitter *)

(** A call that runs from its entry to its return at the time [a], no
    other thread in between; it is the call numbered [thread]. *)
Definition whole_call (thread : nat) (a : Z) (d : Value) : list Tick :=
  Enter a d :: replicate 6 (Run thread a).

(** The thread of the timer numbered [k] runs at the time [a] as far as
    it gets. *)
Definition whole_run (k : nat) (a : Z) : list Tick :=
  replicate 5 (Fire k a).

(** Two threads call a fresh emitter, at [t1] with [d1] and at [t2] with
    [d2]; each reads the clock, writes it and finds the cell empty before
    the other has stored its timer; then each creates and starts its
    timer.  The threads of the two timers run at [a] and at [b]. *)
Definition concurrent_calls (t1 t2 a b : Z) (d1 d2 : Value) : list Tick :=
  [Enter t1 d1; Run 0 t1; Run 0 t1; Run 0 t1;
   Enter t2 d2; Run 1 t2; Run 1 t2; Run 1 t2;
   Run 0 t2; Run 0 t2;
   Run 1 t2; Run 1 t2]
  ++ whole_run 0 a ++ whole_run 1 b.

(** One thread calls a fresh emitter at [t1] with [d1] and again at [t2]
    with [d2]; the second call has read the clock when the thread of the
    first timer is scheduled, at [a], and goes on after it; the thread of
    the second timer runs at [b]. *)
Definition preempted_call (t1 t2 a b : Z) (d1 d2 : Value) : list Tick :=
  whole_call 0 t1 d1
  ++ [Enter t2 d2; Run 1 t2]
  ++ whole_run 0 a
  ++ replicate 5 (Run 1 a)
  ++ whole_run 1 b.

(** The use of the emitter by one thread that is never preempted: a call
    with [d] made at the time [at_time], or the threads of all timers
    scheduled at [at_time], each running as far as it gets. *)
Inductive Serial :=
| Call (at_time : Z) (d : Value)
| Wake (at_time : Z).

Definition serial_time (s : Serial) : Z :=
  match s with
  | Call at_time _ => at_time
  | Wake at_time => at_time
  end.

(** The schedule of a serial use, [n] calls having been made before. *)
Fixpoint unpreempted (steps : list Serial) (n : nat) : list Tick :=
  match steps with
  | [] => []
  | Call a d :: rest => whole_call n a d ++ unpreempted rest (S n)
  | Wake a :: rest =>
      flat_map (fun k => whole_run k a) (seq 0 n) ++ unpreempted rest n
  end.

(** The payloads and the times of the calls of a serial use. *)
Definition calls (steps : list Serial) : list (Z * Value) :=
  omap (fun s => match s with Call a d => Some (a, d) | Wake _ => None end) steps.

(** The times of a serial use never go back. *)
Fixpoint in_serial_order (steps : list Serial) : Prop :=
  match steps with
  | [] => True
  | s :: rest =>
      Forall (fun s' => serial_time s <= serial_time s') rest
      /\ in_serial_order rest
  end.

(** The last call of a serial use, [c] when it has none. *)
Definition last_call (c : Z * Value) (rest : list Serial) : Z * Value :=
  default c (last (calls rest)).

(** The timer threads are scheduled at or after [deadline]. *)
Definition due_wake (deadline : Z) (s : Serial) : Prop :=
  match s with
  | Wake a => deadline <= a
  | Call _ _ => False
  end.

(** Ten calls within 0.1 s of an emitter with a delay of 0.5 s; the timer
    threads are scheduled during the burst, at 0.5 s, at 0.59 s and at
    0.6 s. *)
Definition ten_calls : list Serial :=
  [Call 0 (VInt 1); Call 10 (VInt 2); Call 20 (VInt 3); Call 30 (VInt 4);
   Wake 35; Call 40 (VInt 5); Call 50 (VInt 6); Call 60 (VInt 7);
   Call 70 (VInt 8); Call 80 (VInt 9); Call 90 (VInt 10); Wake 500;
   Wake 590; Wake 600].

(** A timer that will not emit: its flag is set, and its thread waits or
    has ended. *)
Definition dead (t : Timer) : Prop :=
  finished t = true /\ (stage t = Over \/ exists due, stage t = Waiting due).

(** The timer that the call [c] leaves behind when it is not preempted. *)
Definition pending (delay : Z) (c : Z * Value) : Timer :=
  {| captured := snd c; finished := false; stage := Waiting (fst c + delay) |}.

(** The emitter between the steps of a serial use whose last call is [c]:
    the cell holds the timer of [c], and the timers before it are dead. *)
Definition settled (delay : Z) (c : Z * Value) (older : list Timer)
    (e : Emitter) : Prop :=
  last_call_time e = fst c
  /\ timer e = Some (length older)
  /\ timers e = older ++ [pending delay c]
  /\ Forall dead older
  /\ length (frames e) = S (length older).

(** * Further code of the repository *)

From Stdlib Require Import Sorted.

(** ** models/user.py: the constructor and the stored document *)

(** The dict that [User.to_dict] writes and [User.from_dict] reads.  A
    field is [None] when the key is missing, and for the two dates and the
    image also when it holds [None]; a date field holds the date whose
    [isoformat()] string is stored. *)
Record UserDoc := {
  doc__id : option string;
  doc_user_id : option string;
  doc_username : option string;
  doc_email : option string;
  doc_password_hash : option string;
  doc_daily_posts : option Z;
  doc_last_post_date : option date;
  doc_scroll_time_today : option Z;
  doc_last_scroll_reset : option date;
  doc_profile_image : option string;
  doc_created_at : option datetime;
}.

(** [User.to_dict]. *)
Definition to_dict (x : User) : UserDoc :=
  {| doc__id := Some (user_id x);
     doc_user_id := Some (user_id x);
     doc_username := Some (username x);
     doc_email := Some (email x);
     doc_password_hash := Some (password_hash x);
     doc_daily_posts := Some (daily_posts x);
     doc_last_post_date := last_post_date x;
     doc_scroll_time_today := Some (scroll_time_today x);
     doc_last_scroll_reset := Some (last_scroll_reset x);
     doc_profile_image := profile_image x;
     doc_created_at := Some (created_at x) |}.

(** [data[key]]: a missing key raises [KeyError]. *)
Definition subscript {A} (key : string) (field : option A) : M A :=
  match field with
  | Some v => mret v
  | None => raise (KeyError ("'" +:+ key +:+ "'"))
  end.

Section UserModel.
Context (env : Env).

(** [User.__init__]: the name is sanitized and the clock is read three
    times. *)
Definition User_init (uid name mail pw_hash : string) : M User :=
  today ← today_now env;
  reset_day ← today_now env;
  created ← datetime_now env;
  mret {| user_id := uid; username := sanitize_input env name; email := mail;
          password_hash := pw_hash; daily_posts := 0;
          last_post_date := Some today; scroll_time_today := 0;
          last_scroll_reset := reset_day; profile_image := None;
          created_at := created |}.

(** [User.from_dict].  The default of [data.get("created_at", ..)] is
    evaluated whether or not the key is there, the one of
    [last_scroll_reset] only when it is needed. *)
Definition from_dict (d : UserDoc) : M User :=
  uid ← subscript "user_id" (doc_user_id d);
  name ← subscript "username" (doc_username d);
  mail ← subscript "email" (doc_email d);
  x ← User_init uid name mail (default "" (doc_password_hash d));
  reset_day ←
    match doc_last_scroll_reset d with
    | Some day => mret day
    | None => today_now env
    end;
  now ← datetime_now env;
  mret {| user_id := user_id x; username := username x; email := email x;
          password_hash := password_hash x;
          daily_posts := default 0 (doc_daily_posts d);
          last_post_date := doc_last_post_date d;
          scroll_time_today := default 0 (doc_scroll_time_today d);
          last_scroll_reset := reset_day;
          profile_image := doc_profile_image d;
          created_at := default now (doc_created_at d) |}.

End UserModel.

(** ** models/post.py: the post object and its likes *)

Record Comment := {
  comment_id : string;
  comment_post_id : string;
  comment_user_id : string;
  comment_username : string;
  comment_content : string;
  comment_timestamp : datetime;
}.

Record Post := {
  post_id : string;
  post_user_id : string;
  post_username : string;
  post_content : string;
  post_purpose : string;
  post_source : string;
  post_timestamp : datetime;
  post_comments : list Comment;
  shares : Z;
  likes : Z;
  post_created_at : datetime;
  liked_by : list string;
  image_path : option string;
}.

Definition with_likes (n : Z) (l : list string) (p : Post) : Post :=
  {| post_id := post_id p; post_user_id := post_user_id p;
     post_username := post_username p; post_content := post_content p;
     post_purpose := post_purpose p; post_source := post_source p;
     post_timestamp := post_timestamp p; post_comments := post_comments p;
     shares := shares p; likes := n; post_created_at := post_created_at p;
     liked_by := l; image_path := image_path p |}.

(** [l.remove(x)] on a list of strings: the first occurrence goes. *)
Fixpoint remove_first (x : string) (l : list string) : list string :=
  match l with
  | [] => []
  | y :: l' => if decide (y = x) then l' else y :: remove_first x l'
  end.

(** [Post.add_like]: the result and the post afterwards. *)
Definition add_like (uid : string) (p : Post) : bool * Post :=
  if bool_decide (uid ∈ liked_by p) then (false, p)
  else (true, with_likes (likes p + 1) (liked_by p ++ [uid]) p).

(** [Post.remove_like]. *)
Definition remove_like (uid : string) (p : Post) : bool * Post :=
  if bool_decide (uid ∈ liked_by p)
  then (true, with_likes (likes p - 1) (remove_first uid (liked_by p)) p)
  else (false, p).

(** [Post.has_liked]. *)
Definition has_liked (uid : string) (p : Post) : bool :=
  bool_decide (uid ∈ liked_by p).

(** ** utils/security.py: the length limit of [sanitize_input] *)

(** [SecurityValidator._limit_length], on a text of characters of any
    kind. *)
Definition _limit_length {A} (text : list A) (max_length : Z) : list A :=
  if max_length <? Z.of_nat (length text) then slice_to text max_length
  else text.

(** ** ui/main_window.py: the counters the window shows *)

(** [remaining] of [MainWindow.update_posts_counter]. *)
Definition posts_remaining (x : User) : Z := Z.max 0 (3 - daily_posts x).

(** [scroll_minutes] and [scroll_remaining] of [MainWindow.update_stats]. *)
Definition shown_scroll_minutes (x : User) : Z := scroll_time_today x / 60.

Definition shown_scroll_remaining (x : User) : Z :=
  Z.max 0 (30 - shown_scroll_minutes x).

(** ** Vocabulary of the further properties *)

(** Every list of observers is free of duplicates. *)
Definition observers_distinct (u : ReactiveUI) : Prop :=
  forall ev l, observers u !! ev = Some l -> NoDup l.

(** The callbacks registered for an event. *)
Definition registered (u : ReactiveUI) (ev : string) : list Callback :=
  default [] (observers u !! ev).

(** A registration or a cancellation, and a sequence of them run on a
    world. *)
Inductive RegistryOp :=
| Subscribe (event_name : string) (cb : Callback)
| Unsubscribe (event_name : string) (cb : Callback).

Definition registry_step (w : World) (op : RegistryOp) : World :=
  match op with
  | Subscribe ev cb => snd (subscribe ev cb w)
  | Unsubscribe ev cb => snd (unsubscribe ev cb w)
  end.

(** Whether [cb] observes [ev] after the operations [ops], when [before]
    says whether it did before them. *)
Fixpoint subscribed_after (ops : list RegistryOp) (ev : string) (cb : Callback)
    (before : bool) : bool :=
  match ops with
  | [] => before
  | Subscribe ev' cb' :: rest =>
      subscribed_after rest ev cb
        (if bool_decide (ev' = ev /\ cb' = cb) then true else before)
  | Unsubscribe ev' cb' :: rest =>
      subscribed_after rest ev cb
        (if bool_decide (ev' = ev /\ cb' = cb) then false else before)
  end.

(** The entries of a history are in the order newest first. *)
Definition newest_first (l : list EventRecord) : Prop :=
  StronglySorted (fun a b => timestamp b <= timestamp a) l.

(** The store takes every write. *)
Definition store_answers (env : Env) : Prop :=
  forall k c, exists n, store_at env k c = Done n.

(** The clock shows the day [day] at every reading. *)
Definition clock_on_day (env : Env) (day : date) : Prop :=
  forall k, date_of (now_at env k) = day.

(** An environment like [sample_env] whose clock stands still on day 1. *)
Definition still_env : Env :=
  {| now_at := fun _ => us_per_day;
     store_at := store_at sample_env;
     callable := callable sample_env;
     sanitize_input := sanitize_input sample_env |}.

(** A post that nobody has liked. *)
Definition sample_post : Post :=
  {| post_id := "p1"; post_user_id := "u1"; post_username := "ana";
     post_content := "hola"; post_purpose := ""; post_source := "";
     post_timestamp := 0; post_comments := []; shares := 0; likes := 0;
     post_created_at := 0; liked_by := []; image_path := None |}.

(** ** Vocabulary of the further properties, continued *)

(** Whether a payload is the dict of a state change. *)
Definition is_change (d : Value) : bool :=
  match d with
  | VChange _ _ _ => true
  | _ => false
  end.

(** The bus as [dispose] leaves it when the clock had been read [k] times. *)
Definition disposed_ui (env : Env) (k : nat) : ReactiveUI :=
  {| observers := ∅; state := ∅;
     event_history := [{| timestamp := now_at env k; event := "system_disposed";
                          data := VNone |}];
     _running := false; _ui_elements := ∅ |}.

(** The user object after a post that went through: the date is read
    after the two clock readings of the [Post] constructor. *)
Definition posted (env : Env) (w : World) : User :=
  let today := date_of (now_at env (2 + clock_reads w)) in
  if bool_decide (last_post_date (user w) ≠ Some today)
  then set_last_post_date (Some today) (set_daily_posts 1 (user w))
  else set_daily_posts (daily_posts (user w) + 1) (user w).

(** The write of the counter that follows the insertion of the post. *)
Definition counter_update (env : Env) (w : World) : StoreCall :=
  UpdateUserPosts (user_id (user w)) (daily_posts (posted env w))
    (default 0 (last_post_date (posted env w))).

(** [create_post] called once for each of [contents], with the results in
    order and the world at the end. *)
Fixpoint create_posts (env : Env) (contents : list string) (w : World)
    : list (Result bool) * World :=
  match contents with
  | [] => ([], w)
  | content :: rest =>
      let r := create_post env content "" "" w in
      let rs := create_posts env rest (snd r) in
      (fst r :: fst rs, snd rs)
  end.

(** A content that survives the validation of [create_post]. *)
Definition postable (env : Env) (content : string) : Prop :=
  is_blank (sanitize_input env content) = false.

(** An environment like [sample_env] whose store takes the first write
    and is down from then on. *)
Definition flaky_env : Env :=
  {| now_at := now_at sample_env;
     store_at := fun k _ =>
       if (k =? 0)%nat then Done 1 else Failed (PyMongoError "connection lost");
     callable := callable sample_env;
     sanitize_input := sanitize_input sample_env |}.

(** The invariant of the likes of a post: nobody is listed twice, and the
    counter is the number of users listed. *)
Definition likes_inv (p : Post) : Prop :=
  NoDup (liked_by p) /\ likes p = Z.of_nat (length (liked_by p)).

(** A like or its withdrawal, and what it does to the post. *)
Inductive LikeOp :=
| AddLike (uid : string)
| RemoveLike (uid : string).

Definition like_step (p : Post) (op : LikeOp) : Post :=
  match op with
  | AddLike uid => snd (add_like uid p)
  | RemoveLike uid => snd (remove_like uid p)
  end.

(** * Properties *)

(** Unfolds the monad and the primitive actions. *)
Ltac run :=
  unfold mbind, M_bind, mret, M_ret, gets, modify, modify_ui, modify_user,
    raise, try_except, print, today_now, datetime_now, store_call in *;
  simpl in *.

(** ** The history query *)

Lemma insert_desc_perm (r : EventRecord) (l : list EventRecord) :
  insert_desc r l ≡ₚ r :: l.
Proof.
  induction l as [|y l IH]; simpl; [done|].
  destruct (timestamp r <? timestamp y); [|done].
  rewrite IH. apply Permutation_swap.
Qed.

Lemma sort_newest_first_perm (l : list EventRecord) :
  sort_newest_first l ≡ₚ l.
Proof.
  unfold sort_newest_first.
  induction l as [|x l IH]; simpl; [done|].
  rewrite insert_desc_perm. by rewrite IH.
Qed.

Lemma get_event_history_unlimited (u : ReactiveUI) (name : option string) :
  get_event_history u name None ≡ₚ matching u name.
Proof.
  unfold get_event_history, matching.
  destruct name as [n|]; [|apply sort_newest_first_perm].
  case_bool_decide as Hn.
  - subst n. apply sort_newest_first_perm.
  - rewrite sort_newest_first_perm. destruct n; [done|reflexivity].
Qed.

(** C10.  [get_event_history] reads a falsy argument as "no constraint":
    with [limit = 0] it returns what it returns without a limit, which is
    every matching event; with [event_name = ""] it returns what it returns
    without a name, which is the whole history and not only the events
    named [""]. *)
Theorem get_event_history_falsy_arguments (u : ReactiveUI) :
  (forall name, get_event_history u name (Some 0) = get_event_history u name None)
  /\ (forall limit, get_event_history u (Some "") limit = get_event_history u None limit)
  /\ (forall name,
        get_event_history u name (Some 0) ≡ₚ matching u name
        /\ length (get_event_history u name (Some 0)) = length (matching u name))
  /\ get_event_history u (Some "") (Some 0) ≡ₚ event_history u
  /\ (forall e, e ∈ event_history u -> e ∈ get_event_history u (Some "") (Some 0)).
Proof.
  assert (Hzero : forall name,
    get_event_history u name (Some 0) = get_event_history u name None)
    by (intros name; reflexivity).
  assert (Hall : get_event_history u (Some "") (Some 0) ≡ₚ event_history u).
  { rewrite Hzero. apply (get_event_history_unlimited u (Some "")). }
  split; [exact Hzero|].
  split; [intros limit; reflexivity|].
  split.
  - intros name. rewrite Hzero.
    pose proof (get_event_history_unlimited u name) as Hp.
    split; [exact Hp|]. by rewrite Hp.
  - split; [exact Hall|]. intros e He. by rewrite Hall.
Qed.

(** The theorem on a history with an event named [a] and one named [""]:
    the query for [""] with limit 0 returns the event named [a] too. *)
Lemma get_event_history_falsy_arguments_witness :
  {| timestamp := 1; event := "a"; data := VNone |}
  ∈ get_event_history two_events (Some "") (Some 0).
Proof.
  destruct (get_event_history_falsy_arguments two_events)
    as (_ & _ & _ & _ & Hall).
  apply Hall. simpl. apply elem_of_cons. by left.
Defined.

(** ** The scroll budget *)

Section BudgetFacts.
Context (env : Env).

Lemma rolled_inv (w : World) : budget_inv (user w) -> budget_inv (rolled env w).
Proof.
  unfold rolled, budget_inv, DAILY_SCROLL_LIMIT.
  case_bool_decide; simpl; lia.
Qed.

Lemma rolled_nonneg (w : World) :
  0 <= scroll_time_today (user w) -> 0 <= scroll_time_today (rolled env w).
Proof. unfold rolled. case_bool_decide; simpl; lia. Qed.

(** The rollover leaves the user as [rolled] says, whether or not the
    store takes the write. *)
Lemma reset_if_needed_user (w : World) :
  user (snd (_reset_daily_limits_if_needed env w)) = rolled env w.
Proof.
  unfold _reset_daily_limits_if_needed, rolled, today_of. run.
  case_bool_decide; simpl; [|done].
  destruct (store_at env _ _); done.
Qed.

Lemma check_scroll_limit_user (w : World) :
  user (snd (check_scroll_limit env w)) = rolled env w.
Proof.
  unfold check_scroll_limit, _reset_daily_limits_if_needed, rolled, today_of.
  run. case_bool_decide; simpl; [|done].
  destruct (store_at env _ _); done.
Qed.

(** What [get_remaining_scroll_time] returns: the remainder of the rolled
    counter, or 0 when the write of the rollover failed. *)
Lemma get_remaining_scroll_time_spec (w : World) :
  let r := get_remaining_scroll_time env w in
  user (snd r) = rolled env w
  /\ (fst r = Ok (Z.max 0 (DAILY_SCROLL_LIMIT - scroll_time_today (rolled env w)))
      \/ fst r = Ok 0 /\ last_scroll_reset (user w) <> today_of env w).
Proof.
  unfold get_remaining_scroll_time, _reset_daily_limits_if_needed, rolled,
    today_of. run.
  case_bool_decide; simpl; [|by auto].
  destruct (store_at env _ _); simpl; auto.
Qed.

Lemma get_scroll_stats_user (w : World) :
  budget_inv (user w) -> budget_inv (user (snd (get_scroll_stats env w))).
Proof.
  intros Hinv.
  unfold get_scroll_stats, get_remaining_scroll_time,
    _reset_daily_limits_if_needed, budget_inv, DAILY_SCROLL_LIMIT in *. run.
  case_bool_decide; simpl.
  - destruct (store_at env _ _); simpl; [|lia].
    case_bool_decide; simpl; [|lia].
    destruct (store_at env _ _); simpl; lia.
  - case_bool_decide; simpl; [|lia].
    destruct (store_at env _ _); simpl; lia.
Qed.

Lemma is_scroll_warning_needed_spec (w : World) :
  let r := is_scroll_warning_needed env w in
  user (snd r) = rolled env w
  /\ (fst r = Ok true \/ fst r = Ok false)
  /\ (fst r = Ok true <->
      0 < DAILY_SCROLL_LIMIT - scroll_time_today (rolled env w) <= 300).
Proof.
  unfold is_scroll_warning_needed, get_remaining_scroll_time,
    _reset_daily_limits_if_needed, rolled, today_of, DAILY_SCROLL_LIMIT. run.
  case_bool_decide; simpl.
  - destruct (store_at env _ _); simpl;
      (split; [done|split; [by right|split; [discriminate|lia]]]).
  - split; [done|]. split.
    + destruct (_ && _); auto.
    + rewrite <- (bool_decide_eq_true
        (0 < 1800 - scroll_time_today (user w) <= 300)).
      assert ((Z.max 0 (1800 - scroll_time_today (user w)) <=? 300)
              && (0 <? Z.max 0 (1800 - scroll_time_today (user w)))
              = bool_decide (0 < 1800 - scroll_time_today (user w) <= 300))
        as ->.
      { case_bool_decide; [apply andb_true_iff|apply andb_false_iff]; lia. }
      split; congruence.
Qed.

(** [add_scroll_time] leaves the rolled counter plus the new seconds,
    capped at the limit. *)
Lemma add_scroll_time_user (seconds : Z) (w : World) :
  scroll_time_today (user (snd (add_scroll_time env seconds w)))
  = (if bool_decide (last_scroll_reset (user w) ≠ today_of env w)
     then match store_at env (length (store_calls w))
                  (UpdateUserScroll (user_id (user w)) 0 (today_of env w)) with
          | Done _ => Z.min DAILY_SCROLL_LIMIT seconds
          | Failed _ => 0
          end
     else Z.min DAILY_SCROLL_LIMIT (scroll_time_today (user w) + seconds))
  /\ last_scroll_reset (user (snd (add_scroll_time env seconds w))) = today_of env w
  /\ clock_reads (snd (add_scroll_time env seconds w)) = S (clock_reads w)
  /\ (fst (add_scroll_time env seconds w) = Ok true
      \/ fst (add_scroll_time env seconds w) = Ok false).
Proof.
  unfold add_scroll_time, _reset_daily_limits_if_needed, today_of,
    DAILY_SCROLL_LIMIT. run.
  case_bool_decide as Hday; simpl.
  - destruct (store_at env _ _); simpl; [|by auto].
    destruct (1800 <? 0 + seconds) eqn:Hcap; simpl;
      destruct (store_at env _ _); simpl;
      (split; [lia|split; [done|split; [done|]]]);
      try destruct (0 <? _)%nat; auto.
  - destruct (1800 <? scroll_time_today (user w) + seconds) eqn:Hcap; simpl;
      destruct (store_at env _ _); simpl;
      (split; [lia|split; [done|split; [done|]]]);
      try destruct (0 <? _)%nat; auto.
Qed.

Lemma add_scroll_time_inv (seconds : Z) (w : World) :
  0 <= seconds -> 0 <= scroll_time_today (user w) ->
  budget_inv (user (snd (add_scroll_time env seconds w))).
Proof.
  intros Hs Hu. unfold budget_inv.
  destruct (add_scroll_time_user seconds w) as (-> & _).
  unfold DAILY_SCROLL_LIMIT.
  case_bool_decide; [destruct (store_at env _ _)|]; lia.
Qed.

Lemma reset_user_scroll_time_inv (w : World) :
  budget_inv (user (snd (reset_user_scroll_time env w))).
Proof.
  unfold reset_user_scroll_time, budget_inv, DAILY_SCROLL_LIMIT. run.
  destruct (store_at env _ _); simpl; lia.
Qed.

Lemma budget_step_inv (w : World) (op : BudgetOp) :
  legal op -> budget_inv (user w) -> budget_inv (user (budget_step env w op)).
Proof.
  intros Hop Hinv. destruct op; simpl in *.
  - rewrite check_scroll_limit_user. by apply rolled_inv.
  - apply add_scroll_time_inv; [done|apply Hinv].
  - destruct (get_remaining_scroll_time_spec w) as (-> & _).
    by apply rolled_inv.
  - by apply get_scroll_stats_user.
  - apply reset_user_scroll_time_inv.
  - destruct (is_scroll_warning_needed_spec w) as (-> & _).
    by apply rolled_inv.
  - rewrite reset_if_needed_user. by apply rolled_inv.
Qed.

Lemma budget_steps_inv (ops : list BudgetOp) (w : World) :
  Forall legal ops -> budget_inv (user w) ->
  budget_inv (user (foldl (budget_step env) w ops)).
Proof.
  revert w. induction ops as [|op ops IH]; intros w Hops Hinv; [done|].
  apply Forall_cons in Hops as [Hop Hops]. simpl.
  apply IH; [done|]. by apply budget_step_inv.
Qed.

(** Two consumptions never leave more than the limit, whatever the clock
    and the store do. *)
Lemma add_scroll_time_twice_capped (a b : Z) (w : World) :
  scroll_time_today
    (user (snd (add_scroll_time env b (snd (add_scroll_time env a w)))))
  <= DAILY_SCROLL_LIMIT.
Proof.
  destruct (add_scroll_time_user b (snd (add_scroll_time env a w))) as (-> & _).
  unfold DAILY_SCROLL_LIMIT.
  case_bool_decide; [destruct (store_at env _ _)|]; lia.
Qed.

(** Two consumptions of 1000 seconds on one day reach the limit exactly,
    provided the rollover the first one may have to do is written. *)
Lemma add_scroll_time_twice (w : World) :
  0 <= scroll_time_today (user w) ->
  rollover_written env w ->
  date_of (now_at env (S (clock_reads w))) = today_of env w ->
  scroll_time_today
    (user (snd (add_scroll_time env 1000 (snd (add_scroll_time env 1000 w)))))
  = DAILY_SCROLL_LIMIT.
Proof.
  intros Hu Hw Hday.
  destruct (add_scroll_time_user 1000 w) as (H1 & Hreset & Hclock & _).
  destruct (add_scroll_time_user 1000 (snd (add_scroll_time env 1000 w)))
    as (-> & _).
  assert (last_scroll_reset (user (snd (add_scroll_time env 1000 w)))
          = today_of env (snd (add_scroll_time env 1000 w))) as Hsecond.
  { rewrite Hreset. unfold today_of at 2. by rewrite Hclock, Hday. }
  rewrite bool_decide_false by (intros Hne; by apply Hne).
  rewrite H1. unfold DAILY_SCROLL_LIMIT.
  destruct Hw as [Hsame|[n Hn]].
  - rewrite bool_decide_false by (intros Hne; by apply Hne). lia.
  - case_bool_decide; [rewrite Hn|]; lia.
Qed.

(** On the day of the counter the warning is a function of the seconds
    used. *)
Lemma is_scroll_warning_needed_today (w : World) (seconds : Z) :
  fst (is_scroll_warning_needed env (scrolled_today env w seconds))
  = Ok (bool_decide (0 < DAILY_SCROLL_LIMIT - seconds <= 300)).
Proof.
  unfold is_scroll_warning_needed, get_remaining_scroll_time,
    _reset_daily_limits_if_needed, scrolled_today, today_of,
    DAILY_SCROLL_LIMIT. run.
  rewrite bool_decide_false by (intros Hne; by apply Hne). simpl.
  f_equal. case_bool_decide; [apply andb_true_iff|apply andb_false_iff]; lia.
Qed.

End BudgetFacts.

(** C3.  The scroll counter stays between 0 and [DAILY_SCROLL_LIMIT]: for a
    user whose counter is not negative, [add_scroll_time] with seconds that
    are not negative leaves it in that range, and every sequence of
    operations of the policy keeps it there.  Two consumptions of 1000
    seconds never leave more than 1800, and leave exactly 1800 when both
    fall on one day and the rollover the first may have to do is written. *)
Theorem budget_clamp_invariant (env : Env) (w : World)
    (Hnonneg : 0 <= scroll_time_today (user w)) :
  (forall seconds, 0 <= seconds ->
     budget_inv (user (snd (add_scroll_time env seconds w))))
  /\ (forall ops, Forall legal ops -> budget_inv (user w) ->
        budget_inv (user (foldl (budget_step env) w ops)))
  /\ scroll_time_today
       (user (snd (add_scroll_time env 1000 (snd (add_scroll_time env 1000 w)))))
     <= DAILY_SCROLL_LIMIT
  /\ (rollover_written env w ->
      date_of (now_at env (S (clock_reads w))) = today_of env w ->
      scroll_time_today
        (user (snd (add_scroll_time env 1000 (snd (add_scroll_time env 1000 w)))))
      = 1800).
Proof.
  split; [intros seconds Hs; by apply add_scroll_time_inv|].
  split; [intros ops Hops Hinv; by apply budget_steps_inv|].
  split; [apply add_scroll_time_twice_capped|].
  intros Hw Hday. by apply add_scroll_time_twice.
Qed.

(** The theorem at the sample user, whose counter dates from day 0: the two
    consumptions of day 1 leave 1800 seconds. *)
Lemma budget_clamp_invariant_witness :
  scroll_time_today
    (user (snd (add_scroll_time sample_env 1000
                  (snd (add_scroll_time sample_env 1000 sample_world)))))
  = 1800.
Proof.
  assert (0 <= scroll_time_today (user sample_world)) as Hnonneg
    by (simpl; lia).
  destruct (budget_clamp_invariant sample_env sample_world Hnonneg)
    as (_ & _ & _ & Htwice).
  apply Htwice.
  - right. exists 1%nat. reflexivity.
  - reflexivity.
Defined.

(** C4, as stated, fails at 1501 seconds: 299 seconds remain, and the
    warning is raised. *)
Lemma warning_raised_at_1501 :
  fst (is_scroll_warning_needed sample_env
         (scrolled_today sample_env sample_world 1501)) = Ok true
  /\ fst (is_scroll_warning_needed sample_env
            (scrolled_today sample_env sample_world 1501)) <> Ok false.
Proof. split; [reflexivity|discriminate]. Qed.

(** C4, amended.  After the lazy rollover, [is_scroll_warning_needed]
    returns true exactly when [0 < remaining <= 300] for
    [remaining = 1800 - scroll_time_today]: it is false at 1800 seconds
    used, true at 1500, still true at 1501 (299 seconds remain), and false
    at 1499 (301 seconds remain). *)
Theorem warning_threshold (env : Env) (w : World) :
  let r := is_scroll_warning_needed env w in
  let remaining := DAILY_SCROLL_LIMIT - scroll_time_today (user (snd r)) in
  user (snd r) = rolled env w
  /\ (fst r = Ok true \/ fst r = Ok false)
  /\ (fst r = Ok true <-> 0 < remaining <= 300)
  /\ fst (is_scroll_warning_needed env (scrolled_today env w 1800)) = Ok false
  /\ fst (is_scroll_warning_needed env (scrolled_today env w 1500)) = Ok true
  /\ fst (is_scroll_warning_needed env (scrolled_today env w 1501)) = Ok true
  /\ fst (is_scroll_warning_needed env (scrolled_today env w 1499)) = Ok false.
Proof.
  intros r remaining. subst r remaining.
  destruct (is_scroll_warning_needed_spec env w) as (Hu & Hb & Hiff).
  split; [exact Hu|]. split; [exact Hb|].
  split; [by rewrite Hu|].
  rewrite !is_scroll_warning_needed_today.
  repeat split; f_equal; apply bool_decide_ext;
    unfold DAILY_SCROLL_LIMIT; simpl; try lia.
Qed.

(** ** The post quota *)

Section QuotaFacts.
Context (env : Env).

(** At the limit [create_post] raises before anything else happens; the
    [except] clause prints the message and returns [False]. *)
Lemma create_post_at_limit (content purpose source : string) (w : World) :
  3 <= daily_posts (user w) ->
  create_post env content purpose source w
  = (Ok false, snd (print quota_line w)).
Proof.
  intros Hlimit. unfold create_post, create_post_body. run.
  destruct (3 <=? daily_posts (user w)) eqn:Hle; [done|lia].
Qed.

(** Under the limit, with content that is not blank, a store that raises
    on [insert_one] makes [create_post] return [False] as well. *)
Lemma create_post_store_failure (content purpose source : string)
    (w : World) (e : Exception) :
  daily_posts (user w) < 3 ->
  is_blank (sanitize_input env content) = false ->
  store_at env (length (store_calls w))
    (inserted_post env (user_id (user w)) content purpose source) = Failed e ->
  let r := create_post env content purpose source w in
  fst r = Ok false
  /\ stdout (snd r) = stdout w ++ ["Error creando post: " +:+ str_exc e]
  /\ user (snd r) = user w
  /\ emitted (snd r) = emitted w.
Proof.
  intros Hlimit Hblank Hstore.
  unfold create_post, create_post_body, inserted_post in *. run.
  destruct (3 <=? daily_posts (user w)) eqn:Hle; [lia|]. simpl.
  rewrite Hblank. simpl. rewrite Hstore. simpl. done.
Qed.

End QuotaFacts.

(** C1.  What the code does where the claim promises a rollover: a user
    with three posts whose [last_post_date] lies before today is refused.
    [create_post] returns [False], the counter stays at 3, and neither the
    store nor the bus is reached. *)
Theorem create_post_refused_after_rollover (env : Env)
    (content purpose source : string) (w : World) (d : date)
    (Hcount : daily_posts (user w) = 3)
    (Hdate : last_post_date (user w) = Some d)
    (Hbefore : d < today_of env w) :
  let r := create_post env content purpose source w in
  fst r = Ok false
  /\ user (snd r) = user w
  /\ store_calls (snd r) = store_calls w
  /\ emitted (snd r) = emitted w
  /\ stdout (snd r) = stdout w ++ [quota_line].
Proof.
  intros r. subst r.
  rewrite create_post_at_limit by lia. done.
Qed.

(** The theorem at the sample user with three posts of day 0, on day 1. *)
Lemma create_post_refused_after_rollover_witness :
  fst (create_post sample_env "hola" "" "" at_limit_world) = Ok false
  /\ daily_posts (user (snd (create_post sample_env "hola" "" "" at_limit_world))) = 3.
Proof.
  assert (0 < today_of sample_env at_limit_world) as Hbefore
    by (vm_compute; reflexivity).
  destruct (create_post_refused_after_rollover sample_env "hola" "" ""
              at_limit_world 0 eq_refl eq_refl Hbefore) as (Hr & Hu & _).
  split; [exact Hr|]. rewrite Hu. reflexivity.
Defined.

(** C2, as stated, fails: the refusal at the limit and the failure of the
    store come back as the same value, [False]. *)
Lemma quota_refusal_equals_store_failure :
  fst (create_post sample_env "hola" "" "" at_limit_today_world)
  = fst (create_post store_down_env "hola" "" "" sample_world)
  /\ fst (create_post sample_env "hola" "" "" at_limit_today_world) = Ok false.
Proof. split; reflexivity. Qed.

(** C2, amended.  For a user with three posts counted whose last post is
    of today, so that no day has rolled over since, [create_post] returns
    [False] after printing the line about the limit, and changes nothing
    else; a failure of the store under the limit returns the same [False]
    after printing the store's message.  The two causes differ in the
    printed line only. *)
Theorem create_post_failures_share_false (env : Env)
    (content purpose source : string) (w : World)
    (Hcount : daily_posts (user w) = 3)
    (Htoday : last_post_date (user w) = Some (today_of env w)) :
  create_post env content purpose source w = (Ok false, snd (print quota_line w))
  /\ (forall (w2 : World) (e : Exception),
        daily_posts (user w2) < 3 ->
        is_blank (sanitize_input env content) = false ->
        store_at env (length (store_calls w2))
          (inserted_post env (user_id (user w2)) content purpose source)
        = Failed e ->
        fst (create_post env content purpose source w2) = Ok false
        /\ stdout (snd (create_post env content purpose source w2))
           = stdout w2 ++ ["Error creando post: " +:+ str_exc e]).
Proof.
  split; [apply create_post_at_limit; lia|].
  intros w2 e Hunder Hblank Hstore.
  destruct (create_post_store_failure env content purpose source w2 e
              Hunder Hblank Hstore) as (Hr & Hout & _).
  by split.
Qed.

(** The theorem at the sample user with three posts of today, next to the
    sample user with none while the store is down. *)
Lemma create_post_failures_share_false_witness :
  create_post store_down_env "hola" "" "" at_limit_today_world
  = (Ok false, snd (print quota_line at_limit_today_world))
  /\ fst (create_post store_down_env "hola" "" "" sample_world) = Ok false
  /\ stdout (snd (create_post store_down_env "hola" "" "" sample_world))
     = ["Error creando post: connection refused"].
Proof.
  destruct (create_post_failures_share_false store_down_env "hola" "" ""
              at_limit_today_world eq_refl eq_refl) as (Hrefused & Hstore).
  split; [exact Hrefused|].
  apply (Hstore sample_world (PyMongoError "connection refused")).
  - simpl; lia.
  - reflexivity.
  - reflexivity.
Defined.

(** ** The bus *)

Lemma same_outside_ui_refl w : same_outside_ui w w.
Proof. by unfold same_outside_ui. Qed.
Lemma same_outside_ui_trans w1 w2 w3 : same_outside_ui w1 w2 -> same_outside_ui w2 w3 -> same_outside_ui w1 w3.
Proof. unfold same_outside_ui. intros (?&?&?&?) (?&?&?&?). repeat split; congruence. Qed.

Section BusFacts.
Context (env : Env).

Lemma call_external_spec f d w :
  let r := call_external env f d w in
  same_outside_ui w (snd r) /\ delivered (snd r) = delivered w
  /\ stdout (snd r) = stdout w
  /\ ui (snd r) = snd (callable env f d (ui w)).
Proof.
  unfold call_external, same_outside_ui.
  destruct (callable env f d (ui w)) as [r u]; simpl. done.
Qed.

Lemma call_spec cb d w :
  let r := call env cb d w in
  same_outside_ui w (snd r) /\ delivered (snd r) = delivered w.
Proof.
  destruct cb as [f|n eid]; simpl.
  - destruct (call_external_spec f d w) as (? & ? & _). done.
  - unfold _update_bound_element, same_outside_ui. run.
    destruct (_ui_elements (ui w) !! eid) as [b|]; simpl; [|done].
    destruct d; simpl; try done.
    unfold call_external.
    destruct (callable env (callback b) d2 (ui w)) as [[[]|e] u]; simpl; done.
Qed.

Lemma call_preserves (P : ReactiveUI -> Prop) cb d w :
  callbacks_preserve env P -> P (ui w) -> P (ui (snd (call env cb d w))).
Proof.
  intros HP Hw. destruct cb as [f|n eid]; simpl.
  - destruct (call_external_spec f d w) as (_ & _ & _ & ->). by apply HP.
  - unfold _update_bound_element. run.
    destruct (_ui_elements (ui w) !! eid) as [b|]; simpl; [|done].
    destruct d; simpl; try done.
    unfold call_external.
    specialize (HP (callback b) d2 (ui w) Hw).
    destruct (callable env (callback b) d2 (ui w)) as [[[]|e] u]; simpl in *; done.
Qed.

Lemma notify_spec n d cb w :
  let r := notify env n d cb w in
  fst r = Ok tt /\ same_outside_ui w (snd r)
  /\ delivered (snd r) = delivered w ++ [(cb, d)].
Proof.
  unfold notify, try_except, log_delivered, modify.
  unfold mbind, M_bind. 
  match goal with |- context [call env cb d ?w1] =>
    destruct (call_spec cb d w1) as (Hs & Hd);
    destruct (call env cb d w1) as [[[]|e] w2] end; simpl in *.
  - done.
  - unfold same_outside_ui in *. simpl. done.
Qed.

Lemma notify_preserves (P : ReactiveUI -> Prop) n d cb w :
  callbacks_preserve env P -> P (ui w) -> P (ui (snd (notify env n d cb w))).
Proof.
  intros HP Hw.
  unfold notify, try_except, log_delivered, modify.
  unfold mbind, M_bind. 
  match goal with |- context [call env cb d ?w1] =>
    pose proof (call_preserves P cb d w1 HP Hw) as Hc;
    destruct (call env cb d w1) as [[[]|e] w2] end; simpl in *; done.
Qed.

Lemma deliver_spec n d l w :
  let r := deliver env n d l w in
  fst r = Ok tt /\ same_outside_ui w (snd r)
  /\ delivered (snd r) = delivered w ++ ((fun cb => (cb, d)) <$> l).
Proof.
  unfold deliver. revert w. induction l as [|cb l IH]; intros w; simpl.
  - split; [done|]. split; [apply same_outside_ui_refl|]. by rewrite app_nil_r.
  - unfold mbind, M_bind.
    destruct (notify_spec n d cb w) as (Hr & Hs & Hd).
    destruct (notify env n d cb w) as [r w1]; simpl in *. subst r.
    destruct (IH w1) as (Hr' & Hs' & Hd').
    split; [done|]. split; [by eapply same_outside_ui_trans|].
    rewrite Hd', Hd, <- app_assoc. done.
Qed.

Lemma deliver_preserves (P : ReactiveUI -> Prop) n d l w :
  callbacks_preserve env P -> P (ui w) -> P (ui (snd (deliver env n d l w))).
Proof.
  intros HP. unfold deliver. revert w. induction l as [|cb l IH]; intros w Hw; simpl; [done|].
  unfold mbind, M_bind.
  destruct (notify_spec n d cb w) as (Hr & _).
  pose proof (notify_preserves P n d cb w HP Hw) as Hn.
  destruct (notify env n d cb w) as [r w1]; simpl in *. subst r.
  by apply IH.
Qed.

Lemma emit_locked_eq n d w :
  emit_locked env n d w
  = (Ok (default [] (observers (ui w) !! n)), recorded env n d w).
Proof.
  unfold emit_locked, _add_to_history, recorded, evict, record_at.
  unfold mbind, M_bind, mret, M_ret, gets, modify_ui, modify, datetime_now,
    set_ui, with_event_history.
  cbn [fst snd ui user clock_reads store_calls stdout emitted delivered
       event_history observers state _running _ui_elements].
  destruct (max_history <? _)%nat; reflexivity.
Qed.

Lemma emit_eq n d w :
  emit env n d w
  = deliver env n d (default [] (observers (ui w) !! n))
      (recorded env n d (snd (log_emitted n d w))).
Proof.
  unfold emit. unfold mbind at 1, M_bind at 1. 
  unfold log_emitted at 1, modify at 1.
  unfold mbind at 1, M_bind at 1. rewrite emit_locked_eq. reflexivity.
Qed.

Lemma emit_spec n d w :
  let r := emit env n d w in
  fst r = Ok tt
  /\ user (snd r) = user w
  /\ clock_reads (snd r) = S (clock_reads w)
  /\ store_calls (snd r) = store_calls w
  /\ emitted (snd r) = emitted w ++ [(n, d)]
  /\ delivered (snd r)
     = delivered w ++ ((fun cb => (cb, d)) <$> default [] (observers (ui w) !! n)).
Proof.
  simpl. rewrite emit_eq.
  match goal with |- context [deliver env n d ?l ?w1] =>
    destruct (deliver_spec n d l w1) as (Hr & (Hu & Hc & Hs & He) & Hd) end.
  rewrite Hr, Hu, Hc, Hs, He, Hd. done.
Qed.

Lemma emit_preserves (P : ReactiveUI -> Prop) n d w :
  callbacks_preserve env P ->
  P (ui (recorded env n d w)) -> P (ui (snd (emit env n d w))).
Proof.
  intros HP Hw. rewrite emit_eq. by apply deliver_preserves.
Qed.


Lemma evict_last_n (h : list EventRecord) (r : EventRecord) :
  (length h <= max_history)%nat ->
  evict (h ++ [r]) = last_n max_history (h ++ [r]).
Proof.
  intros Hh. unfold evict, last_n. rewrite length_app. simpl.
  destruct (max_history <? length h + 1)%nat eqn:Hfull.
  - apply Nat.ltb_lt in Hfull.
    replace (length h + 1 - max_history)%nat with 1%nat by lia.
    by destruct (h ++ [r]).
  - apply Nat.ltb_ge in Hfull.
    by replace (length h + 1 - max_history)%nat with 0%nat by lia.
Qed.

Lemma last_n_length {A} (k : nat) (l : list A) :
  (length (last_n k l) <= k)%nat.
Proof. unfold last_n. rewrite length_drop. lia. Qed.

Lemma last_n_short {A} (k : nat) (l : list A) :
  (length l <= k)%nat -> last_n k l = l.
Proof.
  intros Hl. unfold last_n.
  by replace (length l - k)%nat with 0%nat by lia.
Qed.

Lemma last_n_app {A} (k : nat) (a b : list A) :
  last_n k (last_n k a ++ b) = last_n k (a ++ b).
Proof.
  destruct (decide (length a <= k)%nat) as [Hle|Hgt].
  - by rewrite (last_n_short k a).
  - unfold last_n. rewrite !length_app, length_drop.
    replace (length a - (length a - k) + length b - k)%nat
      with (length b) by lia.
    replace (length a + length b - k)%nat
      with ((length a - k) + length b)%nat by lia.
    rewrite <- drop_drop. f_equal.
    rewrite drop_app_le by lia. done.
Qed.

Lemma emit_history n d w :
  callbacks_keep_history env ->
  event_history (ui (snd (emit env n d w)))
  = evict (event_history (ui w) ++ [record_at env w n d]).
Proof.
  intros Hquiet.
  apply (emit_preserves
    (fun u => event_history u
              = evict (event_history (ui w) ++ [record_at env w n d]))).
  - intros f d' u Hu. by rewrite Hquiet.
  - reflexivity.
Qed.

Lemma emit_all_cons e es w :
  emit_all env (e :: es) w = emit_all env es (snd (emit env (fst e) (snd e) w)).
Proof.
  unfold emit_all. simpl. unfold mbind, M_bind.
  destruct (emit_spec (fst e) (snd e) w) as (Hr & _).
  destruct (emit env (fst e) (snd e) w) as [r w1]; simpl in *. by subst r.
Qed.

Lemma emit_all_history es w :
  callbacks_keep_history env ->
  history_bounded (ui w) ->
  fst (emit_all env es w) = Ok tt
  /\ event_history (ui (snd (emit_all env es w)))
     = last_n max_history
         (event_history (ui w) ++ records_from env (clock_reads w) es).
Proof.
  intros Hquiet. revert w.
  induction es as [|[n d] es IH]; intros w Hb.
  - split; [done|]. simpl. rewrite app_nil_r. by rewrite last_n_short.
  - rewrite emit_all_cons. simpl fst; simpl snd.
    pose proof (emit_history n d w Hquiet) as Hh.
    destruct (emit_spec n d w) as (_ & _ & Hc & _).
    rewrite evict_last_n in Hh by done.
    destruct (IH (snd (emit env n d w))) as (Hr & Hfinal).
    { unfold history_bounded. rewrite Hh. apply last_n_length. }
    split; [done|].
    rewrite Hfinal, Hh, Hc, last_n_app, <- app_assoc. done.
Qed.

Lemma records_from_length k es : length (records_from env k es) = length es.
Proof.
  revert k. induction es as [|[n d] es IH]; intros k; simpl; [done|].
  by rewrite IH.
Qed.

Lemma emit_all_first_absent es w r1 rest :
  callbacks_keep_history env ->
  history_bounded (ui w) ->
  (101 <= length es)%nat ->
  records_from env (clock_reads w) es = r1 :: rest ->
  r1 ∉ rest ->
  r1 ∉ get_event_history (ui (snd (emit_all env es w))) None None.
Proof.
  intros Hquiet Hb Hn Hrec Hfresh Hin.
  rewrite (get_event_history_unlimited _ None) in Hin. simpl in Hin.
  destruct (emit_all_history es w Hquiet Hb) as (_ & Hfinal).
  rewrite Hfinal in Hin. unfold last_n in Hin.
  pose proof (records_from_length (clock_reads w) es) as Hlen.
  rewrite Hrec in *. simpl in Hlen.
  unfold history_bounded, max_history in *.
  rewrite length_app in Hin. simpl in Hin.
  rewrite drop_app_ge in Hin by lia.
  replace (length (event_history (ui w)) + S (length rest) - 100
           - length (event_history (ui w)))%nat
    with (S (length rest - 100)) in Hin by lia.
  simpl in Hin. apply Hfresh.
  eapply (subseteq_drop _ rest), Hin.
Qed.


Lemma emit_state n d w :
  callbacks_keep_state env ->
  state (ui (snd (emit env n d w))) = state (ui w).
Proof.
  intros Hquiet.
  apply (emit_preserves (fun u => state u = state (ui w))).
  - intros f d' u Hu. by rewrite Hquiet.
  - reflexivity.
Qed.

Lemma emit_then_emit n1 d1 n2 d2 w :
  (emit env n1 d1 ;; emit env n2 d2) w
  = emit env n2 d2 (snd (emit env n1 d1 w)).
Proof.
  unfold mbind, M_bind.
  destruct (emit_spec n1 d1 w) as (Hr & _).
  destruct (emit env n1 d1 w) as [r w1]; simpl in *. by subst r.
Qed.

Lemma set_state_eq key value emit_change w :
  let old_value := default VNone (state (ui w) !! key) in
  let w1 := set_ui (with_state (<[key := value]>) (ui w)) w in
  set_state env key value emit_change w
  = if emit_change && py_ne old_value value
    then emit env "state_changed" (VChange key old_value value)
           (snd (emit env ("state_changed_" +:+ key)
                   (VChange key old_value value) w1))
    else (Ok tt, w1).
Proof.
  simpl. unfold set_state.
  unfold mbind at 1, M_bind at 1, gets at 1.
  unfold mbind at 1, M_bind at 1, modify_ui at 1, modify at 1.
  destruct (emit_change && _); [|reflexivity].
  apply emit_then_emit.
Qed.

Lemma set_state_emitted key value w :
  fst (set_state env key value true w) = Ok tt
  /\ emitted (snd (set_state env key value true w))
     = emitted w ++ change_events key (get_state (ui w) key VNone) value.
Proof.
  rewrite set_state_eq. unfold change_events, get_state. simpl.
  destruct (py_ne _ value).
  - match goal with |- context [emit env "state_changed" ?d (snd (emit env ?n ?d ?w1))] =>
      destruct (emit_spec n d w1) as (_ & _ & _ & _ & He1 & _);
      destruct (emit_spec "state_changed" d (snd (emit env n d w1)))
        as (Hr & _ & _ & _ & He2 & _) end.
    split; [exact Hr|]. rewrite He2, He1, <- app_assoc. done.
  - simpl. by rewrite app_nil_r.
Qed.

Lemma set_state_silent key value w :
  set_state env key value false w
  = (Ok tt, set_ui (with_state (<[key := value]>) (ui w)) w).
Proof. by rewrite set_state_eq. Qed.

Lemma set_state_state key value w :
  callbacks_keep_state env ->
  state (ui (snd (set_state env key value true w)))
  = <[key := value]> (state (ui w)).
Proof.
  intros Hquiet. rewrite set_state_eq. simpl.
  destruct (py_ne _ value); [|done].
  by rewrite !emit_state.
Qed.

Lemma set_state_again key value w :
  callbacks_keep_state env ->
  py_eq value value = true ->
  emitted (snd (set_state env key value true
                  (snd (set_state env key value true w))))
  = emitted (snd (set_state env key value true w)).
Proof.
  intros Hquiet Heq.
  destruct (set_state_emitted key value (snd (set_state env key value true w)))
    as (_ & ->).
  unfold get_state. rewrite set_state_state by done.
  rewrite lookup_insert_eq. simpl.
  unfold change_events, py_ne. rewrite Heq. simpl. by rewrite app_nil_r.
Qed.

Lemma state_changed_neq (key : string) :
  "state_changed" <> "state_changed_" +:+ key.
Proof. cbn. discriminate. Qed.

Lemma change_events_once key old_value value :
  (emissions_of ("state_changed_" +:+ key) (change_events key old_value value)
   <= 1)%nat.
Proof.
  unfold change_events, emissions_of.
  destruct (py_ne old_value value); [|cbn [filter list_filter length]; lia].
  rewrite filter_cons_True by reflexivity.
  rewrite filter_cons_False by apply state_changed_neq.
  rewrite filter_nil. cbn [length]. lia.
Qed.


Lemma unbind_element_eq eid w :
  unbind_element eid w
  = (Ok tt,
     match _ui_elements (ui w) !! eid with
     | Some _ => set_ui (with_ui_elements (delete eid) (ui w)) w
     | None => w
     end).
Proof.
  unfold unbind_element. run.
  by destruct (_ui_elements (ui w) !! eid).
Qed.

Lemma foldr_max_bound (l : list nat) (x : nat) :
  x ∈ l -> (x <= foldr Nat.max 0 l)%nat.
Proof.
  induction l as [|y l IH]; intros Hx; [by apply elem_of_nil in Hx|].
  apply elem_of_cons in Hx as [->|Hx]; simpl; [lia|].
  specialize (IH Hx). lia.
Qed.

Lemma serial_below_fresh (obs : gmap string (list Callback))
    (ev : string) (l : list Callback) (cb : Callback) :
  obs !! ev = Some l -> cb ∈ l -> (serial_of cb <= fresh_serial obs)%nat.
Proof.
  intros Hl Hcb. unfold fresh_serial.
  apply foldr_max_bound, list_elem_of_fmap. exists cb. split; [done|].
  apply list_elem_of_In, in_concat. exists l. split.
  - apply list_elem_of_In, list_elem_of_fmap. exists (ev, l).
    split; [done|]. by apply elem_of_map_to_list.
  - by apply list_elem_of_In.
Qed.

Lemma fresh_serial_fresh (obs : gmap string (list Callback))
    (ev eid : string) (l : list Callback) :
  obs !! ev = Some l -> BoundLambda (fresh_serial obs) eid ∉ l.
Proof.
  intros Hl Hin.
  pose proof (serial_below_fresh obs ev l _ Hl Hin) as Hle.
  simpl in Hle. lia.
Qed.

(** [subscribe] of a callback that is not registered yet. *)
Lemma subscribe_new ev cb w :
  cb ∉ default [] (observers (ui w) !! ev) ->
  fst (subscribe ev cb w) = Ok tt
  /\ ui (snd (subscribe ev cb w))
     = with_observers
         (<[ev := default [] (observers (ui w) !! ev) ++ [cb]]>) (ui w)
  /\ emitted (snd (subscribe ev cb w)) = emitted w.
Proof.
  intros Hnew. unfold subscribe. run.
  destruct (observers (ui w) !! ev) as [l|] eqn:Hl; simpl in *.
  - rewrite Hl. simpl. rewrite bool_decide_false by done. simpl. done.
  - rewrite lookup_insert_eq. simpl.
    split; [done|]. unfold with_observers. simpl.
    by rewrite insert_insert_eq.
Qed.

Lemma bind_element_observers eid key cb w :
  callbacks_keep_observers env ->
  let ev := "state_changed_" +:+ key in
  let lam := BoundLambda (fresh_serial (observers (ui w))) eid in
  observers (ui (snd (bind_element env eid key cb w)))
  = <[ev := default [] (observers (ui w) !! ev) ++ [lam]]> (observers (ui w)).
Proof.
  intros Hquiet ev lam. unfold bind_element.
  unfold mbind at 1, M_bind at 1, modify_ui at 1, modify at 1.
  unfold mbind at 1, M_bind at 1, gets at 1.
  unfold mbind at 1, M_bind at 1.
  match goal with |- context [subscribe ?e ?c ?w1] =>
    destruct (subscribe_new e c w1) as (Hr & Hu & _) end.
  { simpl. destruct (observers (ui w) !! _) as [l|] eqn:Hl; simpl.
    - by eapply fresh_serial_fresh.
    - apply not_elem_of_nil. }
  match type of Hr with fst ?s = _ => destruct s as [r w2] end.
  simpl in Hr, Hu. subst r.
  unfold mbind at 1, M_bind at 1, gets at 1.
  assert (observers (ui w2)
          = <[ev := default [] (observers (ui w) !! ev) ++ [lam]]>
              (observers (ui w))) as Hobs by (by rewrite Hu).
  destruct (get_state (ui w2) key VNone); try done;
    unfold try_except;
    match goal with |- context [call_external env cb ?v w2] =>
      destruct (call_external_spec cb v w2) as (_ & _ & _ & Hc);
      destruct (call_external env cb v w2) as [[[]|e] w3] end;
    simpl in *; rewrite Hc, Hquiet; done.
Qed.

Lemma emit_without_observers n d w :
  default [] (observers (ui w) !! n) = [] ->
  emit env n d w = (Ok tt, recorded env n d (snd (log_emitted n d w))).
Proof. intros Hnone. rewrite emit_eq, Hnone. reflexivity. Qed.

Lemma evict_bounded (h : list EventRecord) (r : EventRecord) :
  (length h <= max_history)%nat ->
  (length (evict (h ++ [r])) <= max_history)%nat.
Proof. intros Hh. rewrite evict_last_n by done. apply last_n_length. Qed.

Lemma emit_bounded n d w :
  callbacks_preserve env history_bounded ->
  history_bounded (ui w) -> history_bounded (ui (snd (emit env n d w))).
Proof.
  intros HP Hb. apply emit_preserves; [done|].
  unfold history_bounded, recorded. simpl. by apply evict_bounded.
Qed.

Lemma emit_all_bounded es w :
  callbacks_preserve env history_bounded ->
  history_bounded (ui w) -> history_bounded (ui (snd (emit_all env es w))).
Proof.
  intros HP. revert w. induction es as [|[n d] es IH]; intros w Hb; [done|].
  rewrite emit_all_cons. apply IH. by apply emit_bounded.
Qed.



End BusFacts.

(** C5.  Every [emit] returns normally and, in its locked block, appends
    exactly one entry to the history, popping the oldest one when that
    makes 101; this also holds for an event without subscribers.  The
    history never holds more than 100 entries, provided the callbacks keep
    that bound.  When the callbacks leave the history alone, a sequence of
    emissions leaves the last 100 entries of what was there and what was
    written, so after 101 or more emissions the entry of the first one is
    gone from [get_event_history()] (no later emission having written an
    equal entry). *)
Theorem history_capacity (env : Env) :
  (forall n d w,
     fst (emit env n d w) = Ok tt
     /\ event_history (ui (snd (emit_locked env n d w)))
        = evict (event_history (ui w) ++ [record_at env w n d])
     /\ (default [] (observers (ui w) !! n) = [] ->
         emit env n d w = (Ok tt, recorded env n d (snd (log_emitted n d w)))))
  /\ (forall h r, (length h <= max_history)%nat ->
        (length (evict (h ++ [r])) <= max_history)%nat)
  /\ (callbacks_preserve env history_bounded ->
      (forall n d w, history_bounded (ui w) ->
         history_bounded (ui (snd (emit env n d w))))
      /\ (forall es w, history_bounded (ui w) ->
            history_bounded (ui (snd (emit_all env es w)))))
  /\ (callbacks_keep_history env ->
      forall es w, history_bounded (ui w) ->
        fst (emit_all env es w) = Ok tt
        /\ event_history (ui (snd (emit_all env es w)))
           = last_n max_history
               (event_history (ui w) ++ records_from env (clock_reads w) es)
        /\ history_bounded (ui (snd (emit_all env es w)))
        /\ ((101 <= length es)%nat ->
            forall r1 rest,
              records_from env (clock_reads w) es = r1 :: rest ->
              r1 ∉ rest ->
              r1 ∉ get_event_history (ui (snd (emit_all env es w))) None None)).
Proof.
  split.
  { intros n d w. destruct (emit_spec env n d w) as (Hr & _).
    split; [exact Hr|]. split; [by rewrite emit_locked_eq|].
    apply emit_without_observers. }
  split; [intros h r; apply evict_bounded; exact env|].
  split.
  { intros HP. split; [intros n d w|intros es w].
    - by apply emit_bounded.
    - by apply emit_all_bounded. }
  intros Hquiet es w Hb.
  destruct (emit_all_history env es w Hquiet Hb) as (Hr & Hfinal).
  split; [exact Hr|]. split; [exact Hfinal|]. split.
  - unfold history_bounded. rewrite Hfinal. apply last_n_length.
  - intros Hn r1 rest Hrec Hfresh.
    by apply (emit_all_first_absent env es w r1 rest).
Qed.

(** The theorem at 101 emissions of [refresh] on a fresh bus: the entry of
    the first one is not in the history any more. *)
Lemma history_capacity_witness :
  first_refresh
  ∉ get_event_history (ui (snd (emit_all sample_env burst101 sample_world)))
      None None.
Proof.
  destruct (history_capacity sample_env) as (_ & _ & _ & Hseq).
  assert (callbacks_keep_history sample_env) as Hquiet.
  { intros f d u. simpl. by destruct (f =? 7)%nat. }
  assert (history_bounded (ui sample_world)) as Hb.
  { unfold history_bounded, max_history. simpl. lia. }
  destruct (Hseq Hquiet burst101 sample_world Hb) as (_ & _ & _ & Habsent).
  assert (101 <= length burst101)%nat as Hn by (vm_compute; lia).
  apply (Habsent Hn first_refresh
           (records_from sample_env 1 (replicate 100 ("refresh", VNone)))).
  - reflexivity.
  - refine (bool_decide_unpack _ _). vm_compute. exact I.
Defined.



Lemma set_state_unchanged_world (key : string) (value : Value) (w : World) :
  state (ui w) !! key = Some value ->
  set_ui (with_state (<[key := value]>) (ui w)) w = w.
Proof.
  intros Hstored. unfold set_ui, with_state.
  rewrite insert_id by done. destruct w as [u x k c o e dl]. simpl.
  by destruct u.
Qed.

(** C7.  [set_state] stores the value and, with [emit_change], compares
    it by [!=] with the value stored before ([None] for a key that was
    absent).  Exactly when they differ it calls [emit] for
    [state_changed_<key>] and then for [state_changed], both with the key,
    the old and the new value: the clock is read twice, the observers of
    the two events are called, and the history takes the two entries.
    Otherwise, and without [emit_change], the stored value is all that
    changes.  A second [set_state] of a value equal to itself changes
    nothing when the callbacks leave the state map alone, so the two calls
    emit [state_changed_<key>] at most once. *)
Theorem set_state_change_detection (env : Env) (key : string) (value : Value)
    (w : World) :
  let old_value := get_state (ui w) key VNone in
  let payload := VChange key old_value value in
  let stored := set_ui (with_state (<[key := value]>) (ui w)) w in
  let first := snd (emit env ("state_changed_" +:+ key) payload stored) in
  let w' := snd (set_state env key value true w) in
  fst (set_state env key value true w) = Ok tt
  /\ emitted w' = emitted w ++ change_events key old_value value
  /\ (py_ne old_value value = true ->
      set_state env key value true w = emit env "state_changed" payload first
      /\ emitted w' = emitted w ++ [("state_changed_" +:+ key, payload);
                                    ("state_changed", payload)]
      /\ delivered w'
         = delivered w
           ++ ((fun cb => (cb, payload))
                 <$> default [] (observers (ui w) !! ("state_changed_" +:+ key)))
           ++ ((fun cb => (cb, payload))
                 <$> default [] (observers (ui first) !! "state_changed"))
      /\ clock_reads w' = S (S (clock_reads w))
      /\ (callbacks_keep_history env ->
          event_history (ui w')
          = evict (evict (event_history (ui w)
                          ++ [{| timestamp := now_at env (clock_reads w);
                                 event := "state_changed_" +:+ key;
                                 data := payload |}])
                   ++ [{| timestamp := now_at env (S (clock_reads w));
                          event := "state_changed"; data := payload |}])))
  /\ (py_ne old_value value = false ->
      set_state env key value true w = (Ok tt, stored)
      /\ emitted w' = emitted w)
  /\ set_state env key value false w = (Ok tt, stored)
  /\ (callbacks_keep_state env -> py_eq value value = true ->
      let w'' := snd (set_state env key value true w') in
      set_state env key value true w' = (Ok tt, w')
      /\ emitted w'' = emitted w'
      /\ (emissions_of ("state_changed_" +:+ key) (emitted w'')
          <= S (emissions_of ("state_changed_" +:+ key) (emitted w)))%nat).
Proof.
  intros old_value payload stored first w'.
  subst old_value payload stored first w'.
  destruct (set_state_emitted env key value w) as (Hr & He).
  pose proof (set_state_eq env key value true w) as Heq. cbv zeta in Heq.
  change (default VNone (state (ui w) !! key))
    with (get_state (ui w) key VNone) in Heq.
  split; [exact Hr|]. split; [exact He|].
  split.
  { intros Hne. rewrite Hne in Heq. simpl andb in Heq. cbv iota in Heq.
    split; [exact Heq|].
    split; [rewrite He; unfold change_events; by rewrite Hne|].
    rewrite Heq.
    set (payload := VChange key (get_state (ui w) key VNone) value).
    set (stored := set_ui (with_state (<[key := value]>) (ui w)) w).
    set (ev := "state_changed_" +:+ key).
    destruct (emit_spec env ev payload stored)
      as (_ & _ & Hc1 & _ & _ & Hd1).
    destruct (emit_spec env "state_changed" payload (snd (emit env ev payload stored)))
      as (_ & _ & Hc2 & _ & _ & Hd2).
    split; [rewrite Hd2, Hd1; by rewrite <- app_assoc|].
    split; [by rewrite Hc2, Hc1|].
    intros Hquiet. rewrite !emit_history by done.
    unfold record_at. by rewrite Hc1. }
  split.
  { intros Hsame. rewrite Hsame in Heq. simpl in Heq.
    split; [exact Heq|]. rewrite He. unfold change_events. rewrite Hsame.
    by rewrite app_nil_r. }
  split; [by rewrite set_state_silent|].
  intros Hquiet Hrefl. cbv zeta.
  assert (set_state env key value true (snd (set_state env key value true w))
          = (Ok tt, snd (set_state env key value true w))) as Hagain.
  { rewrite (set_state_eq env key value true (snd (set_state env key value true w))).
    cbv zeta. rewrite set_state_state by done. rewrite lookup_insert_eq.
    simpl. unfold py_ne. rewrite Hrefl. simpl.
    rewrite set_state_unchanged_world; [done|].
    rewrite set_state_state by done. apply lookup_insert_eq. }
  rewrite Hagain. split; [done|]. split; [done|]. cbn [snd].
  rewrite He. unfold emissions_of. rewrite filter_app, length_app.
  pose proof (change_events_once key (get_state (ui w) key VNone) value) as H1.
  unfold emissions_of in H1. lia.
Qed.

(** The theorem at two calls [set_state("k", 5)] on a fresh bus: the two
    events of the first call are all that is emitted. *)
Lemma set_state_change_detection_witness :
  emitted (snd (set_state sample_env "k" (VInt 5) true
                  (snd (set_state sample_env "k" (VInt 5) true sample_world))))
  = [("state_changed_k", VChange "k" VNone (VInt 5));
     ("state_changed", VChange "k" VNone (VInt 5))].
Proof.
  destruct (set_state_change_detection sample_env "k" (VInt 5) sample_world)
    as (_ & _ & Hfirst & _ & _ & Hsecond).
  assert (callbacks_keep_state sample_env) as Hquiet.
  { intros f d u. simpl. by destruct (f =? 7)%nat. }
  destruct (Hsecond Hquiet eq_refl) as (_ & -> & _).
  exact (proj1 (proj2 (Hfirst eq_refl))).
Defined.

(** C9.  [unbind_element] removes the entry of the element from
    [_ui_elements] and changes nothing else: the table of observers, the
    state map, the history and the rest of the world are as before, so the
    number of observers of every event is unchanged.  In particular the
    lambda that [bind_element] subscribed to [state_changed_<state_key>]
    is still registered after the element is unbound. *)
Theorem unbind_element_frame (env : Env) (eid : string) (w : World) :
  let w' := snd (unbind_element eid w) in
  fst (unbind_element eid w) = Ok tt
  /\ _ui_elements (ui w') = delete eid (_ui_elements (ui w))
  /\ observers (ui w') = observers (ui w)
  /\ state (ui w') = state (ui w)
  /\ event_history (ui w') = event_history (ui w)
  /\ _running (ui w') = _running (ui w)
  /\ (user w', clock_reads w', store_calls w', stdout w', emitted w',
      delivered w')
     = (user w, clock_reads w, store_calls w, stdout w, emitted w, delivered w)
  /\ (forall ev, get_observers_count (ui w') ev = get_observers_count (ui w) ev)
  /\ (forall key cb,
        let ev := "state_changed_" +:+ key in
        let w1 := snd (bind_element env eid key cb w) in
        let w2 := snd (unbind_element eid w1) in
        observers (ui w2) = observers (ui w1)
        /\ _ui_elements (ui w2) !! eid = None
        /\ (callbacks_keep_observers env ->
            BoundLambda (fresh_serial (observers (ui w))) eid
              ∈ default [] (observers (ui w2) !! ev)
            /\ get_observers_count (ui w2) ev
               = S (get_observers_count (ui w) ev))).
Proof.
  assert (Hframe : forall v : World,
    observers (ui (snd (unbind_element eid v))) = observers (ui v)
    /\ _ui_elements (ui (snd (unbind_element eid v)))
       = delete eid (_ui_elements (ui v))).
  { intros v. rewrite unbind_element_eq. simpl.
    destruct (_ui_elements (ui v) !! eid) eqn:Hb; simpl; [done|].
    split; [done|]. symmetry. by apply delete_id. }
  intros w'. subst w'.
  destruct (Hframe w) as (Hobs & Hel).
  split; [by rewrite unbind_element_eq|].
  split; [exact Hel|]. split; [exact Hobs|].
  split; [rewrite unbind_element_eq; simpl; by destruct (_ !! eid)|].
  split; [rewrite unbind_element_eq; simpl; by destruct (_ !! eid)|].
  split; [rewrite unbind_element_eq; simpl; by destruct (_ !! eid)|].
  split; [rewrite unbind_element_eq; simpl; by destruct (_ !! eid)|].
  split; [intros ev; unfold get_observers_count; by rewrite Hobs|].
  intros key cb. cbv zeta.
  destruct (Hframe (snd (bind_element env eid key cb w))) as (Hobs2 & Hel2).
  split; [exact Hobs2|].
  split; [rewrite Hel2; apply lookup_delete_eq|].
  intros Hquiet. unfold get_observers_count. rewrite Hobs2.
  rewrite (bind_element_observers env eid key cb w Hquiet).
  rewrite lookup_insert_eq. simpl.
  split; [apply elem_of_app; right; by apply list_elem_of_singleton|].
  rewrite length_app. simpl. lia.
Qed.

(** The theorem at an element bound to the key [k] on a fresh bus and then
    unbound: one observer of [state_changed_k] is left behind. *)
Lemma unbind_element_frame_witness :
  get_observers_count
    (ui (snd (unbind_element "label"
                (snd (bind_element sample_env "label" "k" 1 sample_world)))))
    "state_changed_k" = 1%nat.
Proof.
  destruct (unbind_element_frame sample_env "label" sample_world)
    as (_ & _ & _ & _ & _ & _ & _ & _ & Hbound).
  destruct (Hbound "k" 1%nat) as (_ & _ & Hleft).
  assert (callbacks_keep_observers sample_env) as Hquiet.
  { intros f d u. simpl. by destruct (f =? 7)%nat. }
  destruct (Hleft Hquiet) as (_ & Hcount). exact Hcount.
Defined.

(** ** The debounced emitter *)

Section DebounceFacts.
Context (env : Env) (name : string) (delay : Z).

Lemma run_script_app (s1 s2 : list Tick) (e : Emitter) (w : World) :
  run_script env name delay (s1 ++ s2) e w
  = match run_script env name delay s1 e w with
    | (Ok e', w') => run_script env name delay s2 e' w'
    | (Raise x, w') => (Raise x, w')
    end.
Proof.
  revert e w. induction s1 as [|[a d|c a|k a] s1 IH]; intros e w; simpl.
  - reflexivity.
  - apply IH.
  - apply IH.
  - unfold mbind, M_bind.
    destruct (timer_step env name delay k a e w) as [[e'|x] w']; [apply IH|done].
Qed.

(** The steps of the thread of one timer, as long as it does not come to
    the call of [emit]. *)
Lemma fires_quietly (n : nat) (k : nat) (a : Z) : forall (t : Timer) (e : Emitter) (w : World),
  timers e !! k = Some t ->
  (forall i, (i < n)%nat ->
     stage (Nat.iter i (advance delay a (last_call_time e)) t) <> Emitting) ->
  run_script env name delay (replicate n (Fire k a)) e w
  = (Ok (with_timers
           (<[k := Nat.iter n (advance delay a (last_call_time e)) t]> (timers e)) e),
     w).
Proof.
  induction n as [|n IH]; intros t e w Hk Hquiet.
  - simpl. rewrite list_insert_id by done. by destruct e.
  - assert (k < length (timers e))%nat as Hlt by (by eapply lookup_lt_Some).
    cbn [replicate run_script]. unfold mbind at 1, M_bind at 1.
    unfold timer_step. rewrite Hk. unfold mbind, M_bind.
    assert (stage t <> Emitting) as Hnow by (apply (Hquiet 0%nat); lia).
    assert ((match stage t with
             | Emitting => emit env name (captured t)
             | _ => mret tt
             end) w = (Ok tt, w)) as -> by (by destruct (stage t)).
    cbn [mret M_ret].
    rewrite (IH (advance delay a (last_call_time e) t)).
    + cbn [timers with_timers last_call_time].
      rewrite list_insert_insert_eq. simpl Nat.iter.
      rewrite <- Nat.iter_succ_r. reflexivity.
    + cbn [timers with_timers]. by rewrite list_lookup_insert_eq.
    + intros i Hi. cbn [last_call_time with_timers].
      rewrite <- Nat.iter_succ_r. apply Hquiet. lia.
Qed.

(** The thread of a timer whose wait is over, which is not cancelled and
    which finds the last call old enough, emits and ends. *)
Lemma whole_run_emits (k : nat) (a due : Z) (t : Timer) (e : Emitter) (w : World) :
  timers e !! k = Some t ->
  stage t = Waiting due ->
  finished t = false ->
  due <= a ->
  delay - tolerance <= a - last_call_time e ->
  run_script env name delay (whole_run k a) e w
  = (Ok (with_timers (<[k := {| captured := captured t; finished := true;
                                stage := Over |}]> (timers e)) e),
     snd (emit env name (captured t) w)).
Proof.
  intros Hk Hstage Hlive Hdue Hlatest.
  assert (k < length (timers e))%nat as Hlt by (by eapply lookup_lt_Some).
  change (whole_run k a) with (replicate 3 (Fire k a) ++ replicate 2 (Fire k a)).
  rewrite run_script_app.
  destruct t as [c f s]. simpl in Hstage, Hlive. subst s f.
  assert (Nat.iter 3 (advance delay a (last_call_time e))
            {| captured := c; finished := false; stage := Waiting due |}
          = {| captured := c; finished := false; stage := Emitting |}) as Hthree.
  { simpl Nat.iter. unfold advance at 3. cbn [stage finished].
    rewrite (proj2 (Z.ltb_ge a due)) by lia.
    unfold advance at 2. cbn [stage at_stage].
    unfold advance at 1. cbn [stage at_stage].
    by rewrite (proj2 (Z.leb_le _ _)) by done. }
  rewrite (fires_quietly 3 k a _ e w Hk); cycle 1.
  { intros i Hi. destruct i as [|[|[|i]]]; [| | |lia]; simpl Nat.iter.
    - discriminate.
    - unfold advance. cbn [stage finished].
      by rewrite (proj2 (Z.ltb_ge a due)) by lia.
    - unfold advance at 2. cbn [stage finished].
      rewrite (proj2 (Z.ltb_ge a due)) by lia. discriminate. }
  rewrite Hthree.
  cbn [replicate run_script]. unfold mbind, M_bind.
  unfold timer_step at 1. cbn [timers with_timers last_call_time].
  rewrite list_lookup_insert_eq by done.
  cbn [stage at_stage captured finished]. unfold mbind, M_bind.
  destruct (emit_spec env name c w) as (Hr & _).
  destruct (emit env name c w) as [r w'] eqn:Hemit.
  cbn [fst snd] in *. subst r. cbn [mret M_ret].
  unfold timer_step. cbn [timers with_timers last_call_time].
  rewrite list_lookup_insert_eq by (by rewrite ?length_insert).
  cbn [advance stage at_stage finish captured finished mret M_ret].
  unfold mbind, M_bind. cbn [mret M_ret].
  unfold advance. cbn [stage at_stage finish captured finished].
  cbn [timers with_timers last_call_time timer frames].
  rewrite !list_insert_insert_eq. reflexivity.
Qed.

End DebounceFacts.

(** ** The debounced emitter used by one thread *)

Section SerialFacts.
Context (env : Env) (name : string) (delay : Z).

Lemma run_script_then (s1 s2 : list Tick) (e e1 : Emitter) (w w1 : World) :
  run_script env name delay s1 e w = (Ok e1, w1) ->
  run_script env name delay (s1 ++ s2) e w = run_script env name delay s2 e1 w1.
Proof. intros H1. by rewrite run_script_app, H1. Qed.

(** A statement of the newest call. *)
Lemma debounced_emit_newest (fs : list Frame) (f : Frame) (now : Z) (e : Emitter) :
  frames e = fs ++ [f] ->
  debounced_emit delay (length fs) now e
  = match next f with
    | ReadTime =>
        with_frames (fs ++ [{| call_data := call_data f; current_time := now;
                               next := WriteLastCall |}]) e
    | WriteLastCall =>
        {| last_call_time := current_time f; timer := timer e;
           timers := timers e; frames := fs ++ [goto TestPending f] |}
    | TestPending =>
        match timer e with
        | Some _ => with_frames (fs ++ [goto CancelPending f]) e
        | None => with_frames (fs ++ [goto CreateTimer f]) e
        end
    | CancelPending =>
        match timer e with
        | Some k =>
            {| last_call_time := last_call_time e; timer := timer e;
               timers := alter finish k (timers e);
               frames := fs ++ [goto CreateTimer f] |}
        | None => with_frames (fs ++ [goto CreateTimer f]) e
        end
    | CreateTimer =>
        {| last_call_time := last_call_time e;
           timer := Some (length (timers e));
           timers := timers e ++ [{| captured := call_data f;
                                     finished := false; stage := Created |}];
           frames := fs ++ [goto StartTimer f] |}
    | StartTimer =>
        match timer e with
        | Some k =>
            match stage <$> timers e !! k with
            | Some Created =>
                {| last_call_time := last_call_time e; timer := timer e;
                   timers := alter (at_stage (Waiting (now + delay))) k (timers e);
                   frames := fs ++ [goto Returned f] |}
            | _ =>
                with_frames
                  (fs ++ [goto (Raised (RuntimeError
                                          "threads can only be started once")) f]) e
            end
        | None => with_frames (fs ++ [goto Returned f]) e
        end
    | Returned | Raised _ => e
    end.
Proof.
  intros Hframes. unfold debounced_emit.
  rewrite Hframes, list_lookup_middle by done.
  assert (forall f', <[length fs := f']> (fs ++ [f]) = fs ++ [f']) as Hset.
  { intros f'. rewrite insert_app_r_alt by lia.
    by rewrite Nat.sub_diag. }
  destruct (next f); unfold with_frames, with_timers; cbn [frames timers];
    rewrite ?Hframes, ?Hset; reflexivity.
Qed.

(** A call that is not preempted, made when the call [c] was the last. *)
Lemma whole_call_settled (a : Z) (d : Value) (c : Z * Value)
    (older : list Timer) (e : Emitter) (w : World) :
  settled delay c older e ->
  exists e',
    run_script env name delay (whole_call (S (length older)) a d) e w = (Ok e', w)
    /\ settled delay (a, d) (older ++ [finish (pending delay c)]) e'.
Proof.
  intros (Hlast & Hcell & Htimers & Hdead & Hframes).
  unfold whole_call. cbn [replicate run_script].
  rewrite <- Hframes.
  assert (frames (enter d e)
          = frames e ++ [{| call_data := d; current_time := 0;
                            next := ReadTime |}]) as Hentered by reflexivity.
  rewrite (debounced_emit_newest (frames e) _ a (enter d e) Hentered).
  cbn [next call_data current_time goto].
  do 5 (match goal with |- context [debounced_emit delay ?n a ?E] =>
          lazymatch E with
          | context [debounced_emit] => fail
          | _ => rewrite (debounced_emit_newest (frames e) _ a E) by reflexivity
          end
        end;
        cbn [next goto timer timers last_call_time frames call_data
               current_time with_frames enter];
        rewrite ?Hcell).
  rewrite Htimers.
  assert (alter finish (length older) (older ++ [pending delay c])
          = older ++ [finish (pending delay c)]) as Hcancel.
  { rewrite alter_app_r_alt by lia. by rewrite Nat.sub_diag. }
  rewrite Hcancel.
  assert (length (older ++ [finish (pending delay c)]) = S (length older))
    as Hlen by (rewrite length_app; simpl; lia).
  rewrite Hlen.
  rewrite (list_lookup_middle (older ++ [finish (pending delay c)]) [] _
             (S (length older))) by done.
  cbn [fmap option_fmap option_map stage].
  eexists. split; [reflexivity|].
  unfold settled.
  cbn [last_call_time timer timers frames fst snd].
  split; [done|]. split; [by rewrite Hlen|]. split.
  { rewrite (alter_app_r_alt _ (older ++ [finish (pending delay c)])) by lia.
    rewrite Hlen, Nat.sub_diag. reflexivity. }
  split.
  { apply Forall_app. split; [done|]. constructor; [|constructor].
    split; [done|]. right. by eexists. }
  rewrite !length_app. simpl. lia.
Qed.

(** The first call. *)
Lemma whole_call_first (a : Z) (d : Value) (w : World) :
  exists e,
    run_script env name delay (whole_call 0 a d) create_debounced_emitter w
    = (Ok e, w)
    /\ settled delay (a, d) [] e.
Proof.
  eexists. split; [reflexivity|]. unfold settled. simpl.
  repeat split; done.
Qed.

(** The thread of a dead timer, or of none, emits nothing. *)
Lemma whole_run_dead (k : nat) (a : Z) (e : Emitter) (w : World) :
  (forall t, timers e !! k = Some t -> dead t) ->
  run_script env name delay (whole_run k a) e w = (Ok e, w)
  \/ exists t',
       dead t' /\ (k < length (timers e))%nat
       /\ run_script env name delay (whole_run k a) e w
          = (Ok (with_timers (<[k := t']> (timers e)) e), w).
Proof.
  intros Hdead. unfold whole_run.
  destruct (timers e !! k) as [t|] eqn:Hk.
  - right.
    assert (k < length (timers e))%nat as Hlt by (by eapply lookup_lt_Some).
    destruct (Hdead t eq_refl) as (Hfin & Hstage).
    assert (dead (Nat.iter 5 (advance delay a (last_call_time e)) t)
            /\ forall i, (i < 5)%nat ->
                 stage (Nat.iter i (advance delay a (last_call_time e)) t)
                 <> Emitting) as [Hend Hquiet].
    { destruct t as [c f s]. simpl in Hfin, Hstage. subst f.
      destruct Hstage as [->|[due ->]].
      - split; [split; [done|by left]|].
        intros i Hi. do 5 (destruct i as [|i]; [simpl; discriminate|]). lia.
      - split; [split; [done|by left]|].
        intros i Hi. do 5 (destruct i as [|i]; [simpl; discriminate|]). lia. }
    rewrite (fires_quietly env name delay 5 k a t e w Hk Hquiet).
    eexists. split; [exact Hend|]. split; [done|reflexivity].
  - left.
    assert (timer_step env name delay k a e w = (Ok e, w)) as Hstep.
    { unfold timer_step. by rewrite Hk. }
    cbn [replicate run_script]. unfold mbind, M_bind.
    do 5 (rewrite Hstep; cbv beta iota). reflexivity.
Qed.

(** The thread of a timer whose wait is not over does nothing. *)
Lemma whole_run_early (k : nat) (a due : Z) (t : Timer) (e : Emitter) (w : World) :
  timers e !! k = Some t ->
  stage t = Waiting due ->
  finished t = false ->
  a < due ->
  run_script env name delay (whole_run k a) e w = (Ok e, w).
Proof.
  intros Hk Hstage Hlive Hearly. unfold whole_run.
  assert (advance delay a (last_call_time e) t = t) as Hstay.
  { unfold advance. rewrite Hstage, Hlive.
    by rewrite (proj2 (Z.ltb_lt a due)) by lia. }
  assert (forall i, Nat.iter i (advance delay a (last_call_time e)) t = t) as Hiter.
  { induction i as [|i IH]; [done|]. simpl. by rewrite IH. }
  rewrite (fires_quietly env name delay 5 k a t e w Hk).
  - rewrite Hiter, list_insert_id by done. by destruct e.
  - intros i Hi. rewrite Hiter, Hstage. discriminate.
Qed.

(** The threads of the timers before the pending one. *)
Lemma whole_runs_older (a : Z) (c : Z * Value) (ks : list nat) :
  forall (older : list Timer) (e : Emitter) (w : World),
  settled delay c older e ->
  Forall (fun k => (k < length older)%nat) ks ->
  exists older' e',
    run_script env name delay (flat_map (fun k => whole_run k a) ks) e w
    = (Ok e', w)
    /\ settled delay c older' e'
    /\ length older' = length older.
Proof.
  induction ks as [|k ks IH]; intros older e w Hset Hks.
  - exists older, e. split; [reflexivity|]. by split.
  - apply Forall_cons in Hks as [Hk Hks]. cbn [flat_map].
    destruct (whole_run_dead k a e w) as [Hrun|(t' & Hdead' & Hlt & Hrun)].
    { destruct Hset as (_ & _ & Htimers & Hdead & _).
      intros t Ht. rewrite Htimers, lookup_app_l in Ht by done.
      rewrite Forall_forall in Hdead. apply (Hdead t).
      by eapply list_elem_of_lookup_2. }
    + rewrite (run_script_then _ _ _ _ _ _ Hrun). by apply IH.
    + rewrite (run_script_then _ _ _ _ _ _ Hrun).
      destruct Hset as (Hlast & Hcell & Htimers & Hdead & Hframes).
      destruct (IH (<[k := t']> older)
                  (with_timers (<[k := t']> (timers e)) e) w)
        as (older' & e' & Hrest & Hset' & Hlen').
      * unfold settled. cbn [last_call_time timer timers frames with_timers].
        rewrite length_insert. split; [done|]. split; [done|].
        split; [by rewrite Htimers, insert_app_l|].
        split; [|done]. by apply Forall_insert.
      * by rewrite length_insert.
      * exists older', e'. split; [exact Hrest|]. split; [exact Hset'|].
        by rewrite Hlen', length_insert.
Qed.

End SerialFacts.

Section SerialBurst.
Context (env : Env) (name : string) (delay : Z).

(** When every timer is dead, their threads emit nothing. *)
Lemma whole_runs_dead (a : Z) (ks : list nat) : forall (e : Emitter) (w : World),
  Forall dead (timers e) ->
  exists e',
    run_script env name delay (flat_map (fun k => whole_run k a) ks) e w
    = (Ok e', w)
    /\ Forall dead (timers e').
Proof.
  induction ks as [|k ks IH]; intros e w Hdead.
  - by exists e.
  - cbn [flat_map].
    destruct (whole_run_dead env name delay k a e w)
      as [Hrun|(t' & Hdead' & Hlt & Hrun)].
    { intros t Ht. rewrite Forall_forall in Hdead. apply (Hdead t).
      by eapply list_elem_of_lookup_2. }
    + rewrite (run_script_then _ _ _ _ _ _ _ _ _ Hrun). by apply IH.
    + rewrite (run_script_then _ _ _ _ _ _ _ _ _ Hrun). apply IH.
      cbn [timers with_timers]. by apply Forall_insert.
Qed.

Lemma serial_all_dead (rest : list Serial) : forall (n : nat) (e : Emitter) (w : World),
  Forall dead (timers e) ->
  calls rest = [] ->
  exists e', run_script env name delay (unpreempted rest n) e w = (Ok e', w).
Proof.
  induction rest as [|[a d|a] rest IH]; intros n e w Hdead Hcalls.
  - by exists e.
  - discriminate.
  - cbn [unpreempted].
    destruct (whole_runs_dead a (seq 0 n) e w Hdead) as (e1 & Hrun & Hdead1).
    rewrite (run_script_then _ _ _ _ _ _ _ _ _ Hrun). by apply IH.
Qed.

Lemma no_calls_after (T : Z) (rest : list Serial) :
  Forall (fun s => T <= serial_time s) rest ->
  Forall (fun c => fst c < T) (calls rest) ->
  calls rest = [].
Proof.
  induction rest as [|[a d|a] rest IH]; intros Hafter Hbefore; simpl in *.
  - reflexivity.
  - apply Forall_cons in Hafter as [Ha _].
    apply Forall_cons in Hbefore as [Hb _]. simpl in *. lia.
  - apply Forall_cons in Hafter as [_ Hafter]. by apply IH.
Qed.

Lemma last_call_cons_call c a d rest :
  last_call c (Call a d :: rest) = last_call (a, d) rest.
Proof.
  unfold last_call. simpl.
  destruct (calls rest) as [|c' cs] eqn:Hc; [done|].
  rewrite last_cons_cons.
  destruct (last (c' :: cs)) eqn:Hlast; [done|].
  by apply last_None in Hlast.
Qed.

Lemma last_call_time_le c rest :
  Forall (fun s => fst c <= serial_time s) rest ->
  in_serial_order rest ->
  fst c <= fst (last_call c rest).
Proof.
  revert c. induction rest as [|[a d|a] rest IH]; intros c Hc Hord.
  - unfold last_call. simpl. lia.
  - rewrite last_call_cons_call.
    apply Forall_cons in Hc as [Ha _]. destruct Hord as [Hrest Hord].
    specialize (IH (a, d) Hrest Hord). simpl in *. lia.
  - apply Forall_cons in Hc as [_ Hc]. destruct Hord as [_ Hord].
    apply (IH c Hc Hord).
Qed.

(** The rest of a burst, the call [c] having been the last so far. *)
Lemma serial_pending (t1 : Z) (rest : list Serial) :
  forall (e : Emitter) (w : World) (c : Z * Value) (older : list Timer),
  settled delay c older e ->
  t1 <= fst c ->
  Forall (fun s => fst c <= serial_time s) rest ->
  in_serial_order rest ->
  Forall (fun c' => fst c' < t1 + delay) (calls rest) ->
  let r := run_script env name delay (unpreempted rest (S (length older))) e w in
  let cN := last_call c rest in
  (exists e', fst r = Ok e')
  /\ (snd r = w \/ snd r = snd (emit env name (snd cN) w))
  /\ (Exists (due_wake (fst cN + delay)) rest ->
      snd r = snd (emit env name (snd cN) w))
  /\ (Forall (fun s => serial_time s < fst cN + delay) rest -> snd r = w).
Proof.
  induction rest as [|[a d|a] rest IH];
    intros e w c older Hset Ht1 Hafter Hord Hwin; cbv zeta.
  - simpl. split; [eauto|]. split; [by left|]. split; [|done].
    intros Hex. by apply Exists_nil in Hex.
  - (* a further call of the burst *)
    apply Forall_cons in Hafter as [Ha _]. destruct Hord as [Hrest Hord].
    simpl in Hwin. apply Forall_cons in Hwin as [_ Hwin]. simpl in Ha, Hrest.
    rewrite last_call_cons_call. cbn [unpreempted].
    destruct (whole_call_settled env name delay a d c older e w Hset)
      as (e1 & Hrun & Hset1).
    rewrite (run_script_then _ _ _ _ _ _ _ _ _ Hrun).
    destruct (IH e1 w (a, d) (older ++ [finish (pending delay c)]))
      as (Hr & Hem & Hdue & Hquiet); simpl; try done; [lia|].
    assert (length (older ++ [finish (pending delay c)]) = S (length older))
      as Hlen by (rewrite length_app; simpl; lia).
    rewrite Hlen in Hr, Hem, Hdue, Hquiet.
    split; [exact Hr|]. split; [exact Hem|]. split.
    + intros Hex. apply Exists_cons in Hex as [[]|Hex]. by apply Hdue.
    + intros Hall. apply Forall_cons in Hall as [_ Hall]. by apply Hquiet.
  - (* the timer threads are scheduled *)
    apply Forall_cons in Hafter as [Ha Hafter]. destruct Hord as [Hrest Hord].
    simpl in Hwin, Ha, Hrest.
    change (last_call c (Wake a :: rest)) with (last_call c rest).
    cbn [unpreempted]. rewrite seq_S, flat_map_app. cbn [flat_map Nat.add].
    rewrite app_nil_r, <- app_assoc.
    destruct (whole_runs_older env name delay a c (seq 0 (length older))
                older e w Hset) as (older' & e1 & Hrun & Hset1 & Hlen).
    { apply Forall_forall. intros k Hk. apply elem_of_seq in Hk. lia. }
    rewrite (run_script_then _ _ _ _ _ _ _ _ _ Hrun).
    rewrite <- Hlen.
    destruct Hset1 as (Hlast & Hcell & Htimers & Hdead & Hframes).
    assert (timers e1 !! length older' = Some (pending delay c)) as Hpend
      by (rewrite Htimers; by apply list_lookup_middle).
    destruct (decide (a < fst c + delay)) as [Hearly|Hdue].
    + (* the wait of the pending timer is not over *)
      rewrite (run_script_then env name delay _ _ _ _ _ _
                 (whole_run_early env name delay _ a _ _ e1 w Hpend eq_refl
                    eq_refl Hearly)).
      pose proof (last_call_time_le c rest Hafter Hord) as Hle.
      destruct (IH e1 w c older') as (Hr & Hem & Hex & Hquiet); try done.
      split; [exact Hr|]. split; [exact Hem|]. split.
      * intros Hfire. apply Exists_cons in Hfire as [Hhead|Hfire];
          [simpl in Hhead; lia|by apply Hex].
      * intros Hall. apply Forall_cons in Hall as [_ Hall]. by apply Hquiet.
    + (* the pending timer fires *)
      rewrite (run_script_then env name delay _ _ _ _ _ _
                 (whole_run_emits env name delay _ a _ _ e1 w Hpend eq_refl
                    eq_refl ltac:(lia)
                    ltac:(rewrite Hlast; unfold tolerance; lia))).
      cbn [captured pending].
      assert (calls rest = []) as Hnone.
      { apply (no_calls_after (t1 + delay)); [|done].
        eapply Forall_impl; [exact Hrest|]. simpl. intros s Hs. lia. }
      destruct (serial_all_dead rest (S (length older'))
                  (with_timers
                     (<[length older' := {| captured := snd c; finished := true;
                                            stage := Over |}]> (timers e1)) e1)
                  (snd (emit env name (snd c) w))) as (e2 & Hrest2); [|done|].
      { cbn [timers with_timers]. rewrite Htimers.
        rewrite insert_app_r_alt by lia. rewrite Nat.sub_diag. simpl.
        apply Forall_app. split; [done|]. constructor; [|constructor].
        split; [done|by left]. }
      rewrite Hrest2. unfold last_call. rewrite Hnone. simpl.
      split; [eauto|]. split; [by right|]. split; [done|].
      intros Hall. apply Forall_cons in Hall as [Hhead _].
      simpl in Hhead. lia.
Qed.

Lemma last_cons_default {A} (x y : A) (l : list A) :
  last (x :: l) = Some y -> default x (last l) = y.
Proof.
  destruct l as [|z l]; [simpl; congruence|].
  rewrite last_cons_cons. by intros ->.
Qed.

Lemma last_call_not_before (a tN : Z) (dN : Value) (rest : list Serial) :
  last (calls rest) = Some (tN, dN) ->
  Forall (fun s => a <= serial_time s) rest ->
  a <= tN.
Proof.
  intros Hlast Hafter.
  assert ((tN, dN) ∈ calls rest) as Hin.
  { apply last_Some in Hlast as [l ->]. apply elem_of_app. right.
    by apply list_elem_of_singleton. }
  apply list_elem_of_omap in Hin as (s & Hs & Hcall).
  rewrite Forall_forall in Hafter. specialize (Hafter s Hs).
  destruct s; simplify_eq. exact Hafter.
Qed.

(** A caller that is never preempted gets what the claim promises: a
    burst of calls inside the delay window that the first call opens
    results in at most one emission, which carries the payload of the last
    call; it is made once the timer threads run at or after the last
    call's time plus [delay], and not before. *)
Lemma serial_burst_coalesces (steps : list Serial) (w : World)
    (t1 tN : Z) (d1 dN : Value) :
  in_serial_order steps ->
  head (calls steps) = Some (t1, d1) ->
  last (calls steps) = Some (tN, dN) ->
  Forall (fun c => fst c < t1 + delay) (calls steps) ->
  let r := run_script env name delay (unpreempted steps 0)
             create_debounced_emitter w in
  (exists e, fst r = Ok e)
  /\ (snd r = w \/ snd r = snd (emit env name dN w))
  /\ (Exists (due_wake (tN + delay)) steps -> snd r = snd (emit env name dN w))
  /\ (Forall (fun s => serial_time s < tN + delay) steps -> snd r = w).
Proof.
  induction steps as [|[a d|a] rest IH]; intros Hord Hhead Hlast Hwin;
    cbv zeta.
  - discriminate.
  - simpl in Hhead, Hlast, Hwin. simplify_eq.
    destruct Hord as [Hrest Hord].
    apply Forall_cons in Hwin as [_ Hwin].
    apply last_cons_default in Hlast.
    cbn [unpreempted].
    destruct (whole_call_first env name delay t1 d1 w) as (e1 & Hrun & Hset).
    rewrite (run_script_then _ _ _ _ _ _ _ _ _ Hrun).
    destruct (serial_pending t1 rest e1 w (t1, d1) [] Hset)
      as (Hr & Hem & Hdue & Hquiet); simpl; try done.
    unfold last_call in *. rewrite Hlast in *. simpl in *.
    split; [exact Hr|]. split; [exact Hem|]. split.
    + intros Hex. apply Exists_cons in Hex as [[]|Hex]. by apply Hdue.
    + intros Hall. apply Forall_cons in Hall as [_ Hall]. by apply Hquiet.
  - simpl in Hhead, Hlast, Hwin. destruct Hord as [Hrest Hord].
    cbn [unpreempted seq flat_map app].
    destruct (IH Hord Hhead Hlast Hwin) as (Hr & Hem & Hdue & Hquiet).
    split; [exact Hr|]. split; [exact Hem|]. split.
    + intros Hex. apply Exists_cons in Hex as [Hnow|Hex]; [|by apply Hdue].
      simpl in Hnow, Hrest.
      pose proof (last_call_not_before a tN dN rest Hlast Hrest) as Hle.
      assert ((t1, d1) ∈ calls rest) as Hfirst.
      { destruct (calls rest) as [|c cs]; simpl in Hhead; simplify_eq.
        apply elem_of_cons. by left. }
      rewrite Forall_forall in Hwin. specialize (Hwin _ Hfirst).
      simpl in Hwin. lia.
    + intros Hall. apply Forall_cons in Hall as [_ Hall]. by apply Hquiet.
Qed.

End SerialBurst.

(** Ten calls within 0.1 s and a delay of 0.5 s, by a caller that is not
    preempted: one emission, with the payload of the tenth call. *)
Lemma ten_calls_emit_once :
  emitted (snd (run_script sample_env "search" 500 (unpreempted ten_calls 0)
                  create_debounced_emitter sample_world))
  = [("search", VInt 10)].
Proof.
  assert (in_serial_order ten_calls) as Horder.
  { simpl. repeat split; repeat constructor; simpl; lia. }
  assert (Forall (fun c => fst c < 0 + 500) (calls ten_calls)) as Hwindow.
  { simpl. repeat constructor; simpl; lia. }
  destruct (serial_burst_coalesces sample_env "search" 500 ten_calls sample_world
              0 90 (VInt 1) (VInt 10) Horder eq_refl eq_refl Hwindow)
    as (_ & _ & Hdue & _).
  rewrite Hdue; [reflexivity|].
  do 12 apply Exists_cons_tl. apply Exists_cons_hd. simpl. lia.
Qed.

(** C8.  What the code does where the claim promises one emission: the
    closure takes no lock, and two calls inside one delay window result
    in two emissions, of the first and of the second payload.  This
    happens when two threads call the emitter and each finds the cell of
    the timer empty before the other has stored its own, every statement
    of the two calls lying inside the window; and it happens to a single
    caller whose second call has read the clock inside the window when
    the thread of the first timer runs. *)
Theorem debounce_race_emits_twice (env : Env) (name : string)
    (delay t1 t2 a b : Z) (d1 d2 : Value) (w : World)
    (Hwindow : t1 <= t2 < t1 + delay)
    (Hfirst : t2 + delay <= a)
    (Hsecond : a + delay <= b) :
  let twice := snd (emit env name d2 (snd (emit env name d1 w))) in
  (in_time_order (concurrent_calls t1 t2 a b d1 d2)
   /\ Forall (fun t => t1 <= t < t1 + delay)
        (caller_times (concurrent_calls t1 t2 a b d1 d2))
   /\ exists e,
        run_script env name delay (concurrent_calls t1 t2 a b d1 d2)
          create_debounced_emitter w = (Ok e, twice)
        /\ next <$> frames e = [Returned; Returned])
  /\ (in_time_order (preempted_call t1 t2 a b d1 d2)
      /\ exists e,
           run_script env name delay (preempted_call t1 t2 a b d1 d2)
             create_debounced_emitter w = (Ok e, twice)
           /\ frames e = [{| call_data := d1; current_time := t1;
                             next := Returned |};
                          {| call_data := d2; current_time := t2;
                             next := Returned |}])
  /\ emitted twice = emitted w ++ [(name, d1); (name, d2)].
Proof.
  intros twice. subst twice. split; [|split].
  - (* two callers *)
    split.
    { unfold concurrent_calls, whole_run. simpl.
      repeat split; repeat constructor; simpl; lia. }
    split.
    { unfold concurrent_calls, whole_run. simpl. repeat constructor; lia. }
    unfold concurrent_calls.
    remember (whole_run 0 a ++ whole_run 1 b) as timers_run eqn:Htimers.
    rewrite run_script_app. simpl. subst timers_run.
    rewrite run_script_app.
    erewrite (whole_run_emits env name delay 0 a); cycle 1.
    + reflexivity.
    + reflexivity.
    + reflexivity.
    + lia.
    + simpl. unfold tolerance. lia.
    + erewrite (whole_run_emits env name delay 1 b); cycle 1.
      * reflexivity.
      * reflexivity.
      * reflexivity.
      * lia.
      * simpl. unfold tolerance. lia.
      * simpl. eexists. split; reflexivity.
  - (* one caller, preempted *)
    split.
    { unfold preempted_call, whole_call, whole_run. simpl.
      repeat split; repeat constructor; simpl; lia. }
    unfold preempted_call, whole_call.
    remember (whole_run 0 a ++ replicate 5 (Run 1 a) ++ whole_run 1 b)
      as later eqn:Hlater.
    rewrite run_script_app. simpl. subst later.
    rewrite run_script_app.
    erewrite (whole_run_emits env name delay 0 a); cycle 1.
    + reflexivity.
    + reflexivity.
    + reflexivity.
    + simpl. lia.
    + simpl. unfold tolerance. lia.
    + remember (whole_run 1 b) as last_run eqn:Hlast.
      rewrite run_script_app. simpl. subst last_run.
      erewrite (whole_run_emits env name delay 1 b); cycle 1.
      * reflexivity.
      * reflexivity.
      * reflexivity.
      * lia.
      * simpl. unfold tolerance. lia.
      * simpl. eexists. split; reflexivity.
  - destruct (emit_spec env name d2 (snd (emit env name d1 w)))
      as (_ & _ & _ & _ & -> & _).
    destruct (emit_spec env name d1 w) as (_ & _ & _ & _ & -> & _).
    by rewrite <- app_assoc.
Qed.

(** The theorem for a delay of 0.5 s and calls at 0 and at 0.1 s. *)
Lemma debounce_race_emits_twice_witness :
  emitted (snd (run_script sample_env "search" 500
                  (concurrent_calls 0 100 600 1100 (VInt 1) (VInt 2))
                  create_debounced_emitter sample_world))
  = [("search", VInt 1); ("search", VInt 2)]
  /\ emitted (snd (run_script sample_env "search" 500
                     (preempted_call 0 100 600 1100 (VInt 1) (VInt 2))
                     create_debounced_emitter sample_world))
     = [("search", VInt 1); ("search", VInt 2)].
Proof.
  destruct (debounce_race_emits_twice sample_env "search" 500 0 100 600 1100
              (VInt 1) (VInt 2) sample_world)
    as ((_ & _ & e1 & -> & _) & (_ & e2 & -> & _) & Htwice);
    [lia|lia|lia|].
  split; exact Htwice.
Defined.

(** * Further properties of the code *)

(** ** The registry of observers *)

Lemma list_remove_elem (c x : Callback) (l : list Callback) :
  NoDup l -> x ∈ list_remove c l <-> x ∈ l /\ x <> c.
Proof.
  induction 1 as [|y l Hy Hl IH]; simpl.
  - split; [intros H; by apply elem_of_nil in H|intros [H _]; done].
  - destruct (decide (y = c)) as [->|Hne].
    + rewrite elem_of_cons. split.
      * intros Hx. split; [by right|]. intros ->. done.
      * intros [[->|Hx] Hxc]; done.
    + rewrite !elem_of_cons, IH. split.
      * intros [->|[Hx Hxc]]; split; auto.
      * intros [[->|Hx] Hxc]; auto.
Qed.

Lemma list_remove_NoDup (c : Callback) (l : list Callback) :
  NoDup l -> NoDup (list_remove c l).
Proof.
  induction 1 as [|y l Hy Hl IH]; simpl; [constructor|].
  destruct (decide (y = c)); [done|].
  constructor; [|done]. rewrite list_remove_elem by done. tauto.
Qed.

Lemma list_remove_app_new (c : Callback) (l : list Callback) :
  c ∉ l -> list_remove c (l ++ [c]) = l.
Proof.
  induction l as [|y l IH]; intros Hc; simpl.
  - by rewrite decide_True.
  - rewrite not_elem_of_cons in Hc. destruct Hc as [Hyc Hc].
    rewrite decide_False by done. by rewrite IH.
Qed.

Lemma subscribe_known (ev : string) (cb : Callback) (w : World) :
  cb ∈ registered (ui w) ev -> subscribe ev cb w = (Ok tt, w).
Proof.
  intros Hin. unfold registered in Hin. unfold subscribe. run.
  destruct (observers (ui w) !! ev) as [l|] eqn:Hl; simpl in *.
  - rewrite Hl. simpl. by rewrite bool_decide_true.
  - by apply elem_of_nil in Hin.
Qed.

Lemma subscribe_fresh (ev : string) (cb : Callback) (w : World) :
  cb ∉ registered (ui w) ev ->
  subscribe ev cb w
  = (Ok tt,
     snd (print ("✅ Suscrito a evento '" +:+ ev +:+ "'")
            (set_ui (with_observers
                       (<[ev := registered (ui w) ev ++ [cb]]>) (ui w)) w))).
Proof.
  intros Hnew. unfold registered in *. unfold subscribe. run.
  destruct (observers (ui w) !! ev) as [l|] eqn:Hl; simpl in *.
  - rewrite Hl. simpl. rewrite bool_decide_false by done. reflexivity.
  - rewrite lookup_insert_eq. simpl. unfold with_observers. simpl.
    by rewrite insert_insert_eq.
Qed.

Lemma unsubscribe_known (ev : string) (cb : Callback) (w : World) :
  cb ∈ registered (ui w) ev ->
  unsubscribe ev cb w
  = (Ok tt,
     snd (print ("✅ Desuscrito del evento '" +:+ ev +:+ "'")
            (set_ui (with_observers
                       (<[ev := list_remove cb (registered (ui w) ev)]>)
                       (ui w)) w))).
Proof.
  intros Hin. unfold registered in *. unfold unsubscribe. run.
  destruct (observers (ui w) !! ev) as [l|] eqn:Hl; simpl in *.
  - rewrite bool_decide_true by done. reflexivity.
  - by apply elem_of_nil in Hin.
Qed.

Lemma unsubscribe_unknown (ev : string) (cb : Callback) (w : World) :
  cb ∉ registered (ui w) ev -> unsubscribe ev cb w = (Ok tt, w).
Proof.
  intros Hnew. unfold registered in *. unfold unsubscribe. run.
  destruct (observers (ui w) !! ev) as [l|] eqn:Hl; simpl in *; [|done].
  by rewrite bool_decide_false.
Qed.

Lemma registered_insert (u : ReactiveUI) (ev ev' : string) (l : list Callback) :
  registered (with_observers (<[ev := l]>) u) ev'
  = if decide (ev = ev') then l else registered u ev'.
Proof.
  unfold registered, with_observers. simpl. rewrite lookup_insert.
  by destruct (decide (ev = ev')).
Qed.

Lemma subscribe_registered (ev ev' : string) (cb : Callback) (w : World) :
  registered (ui (snd (subscribe ev cb w))) ev'
  = if decide (ev = ev')
    then (if bool_decide (cb ∈ registered (ui w) ev)
          then registered (ui w) ev else registered (ui w) ev ++ [cb])
    else registered (ui w) ev'.
Proof.
  case_bool_decide as Hin.
  - rewrite subscribe_known by done. simpl. by destruct (decide _) as [->|].
  - rewrite subscribe_fresh by done. simpl. apply registered_insert.
Qed.

Lemma unsubscribe_registered (ev ev' : string) (cb : Callback) (w : World) :
  registered (ui (snd (unsubscribe ev cb w))) ev'
  = if decide (ev = ev') then list_remove cb (registered (ui w) ev)
    else registered (ui w) ev'.
Proof.
  destruct (decide (cb ∈ registered (ui w) ev)) as [Hin|Hnew].
  - rewrite unsubscribe_known by done. simpl. apply registered_insert.
  - rewrite unsubscribe_unknown by done. simpl.
    destruct (decide _) as [->|]; [|done].
    clear -Hnew. induction (registered (ui w) ev') as [|y l IH]; [done|].
    rewrite not_elem_of_cons in Hnew. destruct Hnew as [Hy Hl]. simpl.
    rewrite decide_False by done. by rewrite <- IH.
Qed.

Lemma observers_distinct_registered (u : ReactiveUI) :
  observers_distinct u <-> forall ev, NoDup (registered u ev).
Proof.
  unfold observers_distinct, registered. split.
  - intros H ev. destruct (observers u !! ev) eqn:Hl; simpl; [eauto|constructor].
  - intros H ev l Hl. specialize (H ev). by rewrite Hl in H.
Qed.

Lemma registry_step_distinct (w : World) (op : RegistryOp) :
  observers_distinct (ui w) -> observers_distinct (ui (registry_step w op)).
Proof.
  rewrite !observers_distinct_registered. intros Hd ev'.
  destruct op as [ev cb|ev cb]; simpl.
  - rewrite subscribe_registered. destruct (decide _) as [->|]; [|done].
    case_bool_decide as Hin; [done|].
    apply NoDup_app. split; [done|]. split.
    + intros x Hx Hx'. apply list_elem_of_singleton in Hx'. by subst.
    + apply NoDup_singleton.
  - rewrite unsubscribe_registered. destruct (decide _) as [->|]; [|done].
    by apply list_remove_NoDup.
Qed.

Lemma subscribe_member (ev ev' : string) (cb cb' : Callback) (w : World) :
  cb' ∈ registered (ui (snd (subscribe ev cb w))) ev'
  <-> (ev = ev' /\ cb = cb') \/ cb' ∈ registered (ui w) ev'.
Proof.
  rewrite subscribe_registered.
  destruct (decide (ev = ev')) as [->|Hev]; [|intuition congruence].
  case_bool_decide as Hin.
  - split; [auto|]. intros [[_ <-]|H]; done.
  - rewrite elem_of_app, list_elem_of_singleton. intuition congruence.
Qed.

Lemma unsubscribe_member (ev ev' : string) (cb cb' : Callback) (w : World) :
  observers_distinct (ui w) ->
  cb' ∈ registered (ui (snd (unsubscribe ev cb w))) ev'
  <-> cb' ∈ registered (ui w) ev' /\ ~ (ev = ev' /\ cb = cb').
Proof.
  rewrite observers_distinct_registered. intros Hd.
  rewrite unsubscribe_registered.
  destruct (decide (ev = ev')) as [->|Hev]; [|intuition congruence].
  rewrite list_remove_elem by done. intuition congruence.
Qed.

Lemma registry_step_member (w : World) (op : RegistryOp) (ev : string)
    (cb : Callback) :
  observers_distinct (ui w) ->
  bool_decide (cb ∈ registered (ui (registry_step w op)) ev)
  = subscribed_after [op] ev cb (bool_decide (cb ∈ registered (ui w) ev)).
Proof.
  intros Hd. destruct op as [ev' cb'|ev' cb']; simpl.
  - pose proof (subscribe_member ev' ev cb' cb w) as Hm.
    repeat case_bool_decide; intuition congruence.
  - pose proof (unsubscribe_member ev' ev cb' cb w Hd) as Hm.
    repeat case_bool_decide; intuition congruence.
Qed.

Lemma registry_steps (ops : list RegistryOp) (w : World) :
  observers_distinct (ui w) ->
  observers_distinct (ui (foldl registry_step w ops))
  /\ forall ev cb,
       bool_decide (cb ∈ registered (ui (foldl registry_step w ops)) ev)
       = subscribed_after ops ev cb (bool_decide (cb ∈ registered (ui w) ev)).
Proof.
  revert w. induction ops as [|op ops IH]; intros w Hd; [done|].
  simpl foldl.
  destruct (IH (registry_step w op) (registry_step_distinct w op Hd))
    as (Hd' & Hm).
  split; [exact Hd'|]. intros ev cb. rewrite Hm.
  rewrite (registry_step_member w op ev cb Hd).
  by destruct op.
Qed.

(** X1.  The table of observers behaves as a set per event: from lists
    without duplicates, every sequence of [subscribe] and [unsubscribe]
    calls leaves lists without duplicates, in which a callback is
    registered for an event exactly when the last call that named the pair
    was a [subscribe] (or none named it and it was registered before); so
    [get_observers_count] counts the callbacks that are registered. *)
Theorem registry_is_a_set (ops : list RegistryOp) (w : World)
    (Hdistinct : observers_distinct (ui w)) :
  let w' := foldl registry_step w ops in
  observers_distinct (ui w')
  /\ (forall ev, NoDup (registered (ui w') ev)
                 /\ get_observers_count (ui w') ev = length (registered (ui w') ev))
  /\ (forall ev cb,
        cb ∈ registered (ui w') ev
        <-> subscribed_after ops ev cb (bool_decide (cb ∈ registered (ui w) ev))
            = true).
Proof.
  intros w'. subst w'.
  destruct (registry_steps ops w Hdistinct) as (Hd & Hm).
  split; [exact Hd|]. split.
  - intros ev. split; [by apply observers_distinct_registered|done].
  - intros ev cb. rewrite <- Hm. by rewrite bool_decide_eq_true.
Qed.

(** The theorem on a fresh bus: after two registrations of the same
    callback, another one and a cancellation, one observer is left. *)
Lemma registry_is_a_set_witness :
  get_observers_count
    (ui (foldl registry_step sample_world
           [Subscribe "e" (External 1); Subscribe "e" (External 1);
            Subscribe "e" (External 2); Unsubscribe "e" (External 1)]))
    "e" = 1%nat
  /\ External 2
     ∈ registered
         (ui (foldl registry_step sample_world
                [Subscribe "e" (External 1); Subscribe "e" (External 1);
                 Subscribe "e" (External 2); Unsubscribe "e" (External 1)]))
         "e".
Proof.
  assert (observers_distinct (ui sample_world)) as Hd.
  { intros ev l Hl. simpl in Hl. by rewrite lookup_empty in Hl. }
  destruct (registry_is_a_set
              [Subscribe "e" (External 1); Subscribe "e" (External 1);
               Subscribe "e" (External 2); Unsubscribe "e" (External 1)]
              sample_world Hd) as (_ & Hcount & Hmember).
  split.
  - destruct (Hcount "e") as (_ & ->). reflexivity.
  - apply Hmember. reflexivity.
Defined.

(** X2.  [subscribe] is idempotent and [unsubscribe] undoes it: a second
    [subscribe] of the same pair changes nothing and prints nothing;
    [unsubscribe] of a callback that is not registered changes nothing;
    and [unsubscribe] after [subscribe] of a new callback gives back the
    list of the event, whose key stays in the table, with the empty list
    when it was not there before. *)
Theorem subscribe_unsubscribe_round_trip (ev : string) (cb : Callback)
    (w : World) :
  let w1 := snd (subscribe ev cb w) in
  subscribe ev cb w1 = (Ok tt, w1)
  /\ (cb ∉ registered (ui w) ev ->
      unsubscribe ev cb w = (Ok tt, w)
      /\ fst (unsubscribe ev cb w1) = Ok tt
      /\ observers (ui (snd (unsubscribe ev cb w1)))
         = <[ev := registered (ui w) ev]> (observers (ui w))
      /\ get_observers_count (ui (snd (unsubscribe ev cb w1))) ev
         = get_observers_count (ui w) ev).
Proof.
  intros w1. subst w1. split.
  - apply subscribe_known. apply subscribe_member. by left.
  - intros Hnew. split; [by apply unsubscribe_unknown|].
    assert (cb ∈ registered (ui (snd (subscribe ev cb w))) ev) as Hin
      by (apply subscribe_member; by left).
    assert (observers (ui (snd (unsubscribe ev cb (snd (subscribe ev cb w)))))
            = <[ev := registered (ui w) ev]> (observers (ui w))) as Hobs.
    { rewrite (unsubscribe_known ev cb _ Hin). simpl.
      rewrite subscribe_registered, decide_True, bool_decide_false by done.
      rewrite list_remove_app_new by done.
      rewrite subscribe_fresh by done. simpl.
      by rewrite insert_insert_eq. }
    split; [by rewrite (unsubscribe_known ev cb _ Hin)|].
    split; [exact Hobs|].
    unfold get_observers_count. by rewrite Hobs, lookup_insert_eq.
Qed.

(** The theorem on a fresh bus: the event stays known, with no observer. *)
Lemma subscribe_unsubscribe_round_trip_witness :
  observers (ui (snd (unsubscribe "e" (External 1)
                        (snd (subscribe "e" (External 1) sample_world)))))
  = {["e" := []]}.
Proof.
  destruct (subscribe_unsubscribe_round_trip "e" (External 1) sample_world)
    as (_ & Hback).
  destruct Hback as (_ & _ & Hobs & _).
  - simpl. apply not_elem_of_nil.
  - rewrite Hobs. reflexivity.
Defined.

(** ** The state store, the history and the end of the bus *)

(** X3.  The state store gives back what was stored: after [set_state] of
    a key, [get_state] of that key returns the value for every default,
    also when the value is [None], and the other keys read as before; the
    default is returned for a key that was never set.  With [emit_change]
    this holds when the callbacks leave the state map alone. *)
Theorem state_round_trip (env : Env) (key : string) (value : Value) (w : World) :
  (forall dflt,
     get_state (ui (snd (set_state env key value false w))) key dflt = value)
  /\ (forall key' dflt, key' <> key ->
        get_state (ui (snd (set_state env key value false w))) key' dflt
        = get_state (ui w) key' dflt)
  /\ (forall dflt, state (ui w) !! key = None -> get_state (ui w) key dflt = dflt)
  /\ (callbacks_keep_state env ->
      forall key' dflt,
        get_state (ui (snd (set_state env key value true w))) key' dflt
        = if decide (key' = key) then value else get_state (ui w) key' dflt).
Proof.
  split.
  { intros dflt. rewrite set_state_silent. unfold get_state. simpl.
    by rewrite lookup_insert_eq. }
  split.
  { intros key' dflt Hne. rewrite set_state_silent. unfold get_state. simpl.
    by rewrite lookup_insert_ne. }
  split; [intros dflt Hnone; unfold get_state; by rewrite Hnone|].
  intros Hquiet key' dflt. unfold get_state.
  rewrite set_state_state by done.
  destruct (decide (key' = key)) as [->|Hne].
  - by rewrite lookup_insert_eq.
  - by rewrite lookup_insert_ne.
Qed.

(** The theorem at the key [k] set to [None] with the events on: a default
    of 5 is not returned. *)
Lemma state_round_trip_witness :
  get_state (ui (snd (set_state sample_env "k" VNone true sample_world)))
    "k" (VInt 5) = VNone.
Proof.
  destruct (state_round_trip sample_env "k" VNone sample_world)
    as (_ & _ & _ & Hemit).
  assert (callbacks_keep_state sample_env) as Hquiet.
  { intros f d u. simpl. by destruct (f =? 7)%nat. }
  rewrite (Hemit Hquiet "k" (VInt 5)). reflexivity.
Defined.

Lemma clear_history_eq (env : Env) (w : World) :
  clear_history env w
  = emit env "history_cleared" VNone
      (set_ui (with_event_history (fun _ => []) (ui w)) w).
Proof. reflexivity. Qed.

(** X4.  [clear_history] does not leave an empty history: it empties it
    and then emits [history_cleared], so when the callbacks leave the
    history alone exactly one entry is left, that of the event
    [history_cleared]. *)
Theorem clear_history_leaves_marker (env : Env) (w : World)
    (Hquiet : callbacks_keep_history env) :
  let marker := {| timestamp := now_at env (clock_reads w);
                   event := "history_cleared"; data := VNone |} in
  fst (clear_history env w) = Ok tt
  /\ event_history (ui (snd (clear_history env w))) = [marker]
  /\ get_event_history (ui (snd (clear_history env w))) None None = [marker]
  /\ emitted (snd (clear_history env w)) = emitted w ++ [("history_cleared", VNone)].
Proof.
  intros marker. subst marker. rewrite clear_history_eq.
  match goal with |- context [emit env ?n ?d ?w0] =>
    destruct (emit_spec env n d w0) as (Hr & _ & _ & _ & He & _);
    pose proof (emit_history env n d w0 Hquiet) as Hh end.
  simpl in Hh, He.
  assert (evict [record_at env (set_ui (with_event_history (fun _ => []) (ui w)) w)
                   "history_cleared" VNone]
          = [{| timestamp := now_at env (clock_reads w);
                event := "history_cleared"; data := VNone |}]) as Hone
    by reflexivity.
  rewrite Hone in Hh.
  split; [exact Hr|]. split; [exact Hh|]. split; [|exact He].
  unfold get_event_history. rewrite Hh. reflexivity.
Qed.

(** The theorem on a bus that holds the entries of three emissions. *)
Lemma clear_history_leaves_marker_witness :
  length (event_history
            (ui (snd (clear_history sample_env
                        (snd (emit_all sample_env
                                [("a", VNone); ("b", VNone); ("c", VNone)]
                                sample_world))))))
  = 1%nat.
Proof.
  assert (callbacks_keep_history sample_env) as Hquiet.
  { intros f d u. simpl. by destruct (f =? 7)%nat. }
  destruct (clear_history_leaves_marker sample_env
              (snd (emit_all sample_env
                      [("a", VNone); ("b", VNone); ("c", VNone)] sample_world))
              Hquiet) as (_ & -> & _).
  reflexivity.
Defined.

(** X5.  [dispose] tells nobody: it empties the table of observers before
    it emits [system_disposed], so no callback is invoked, whoever had
    subscribed to that event.  It leaves an empty bus that is not running
    and whose history holds the one entry of [system_disposed]. *)
Theorem dispose_notifies_nobody (env : Env) (w : World) :
  fst (dispose env w) = Ok tt
  /\ ui (snd (dispose env w)) = disposed_ui env (clock_reads w)
  /\ delivered (snd (dispose env w)) = delivered w
  /\ emitted (snd (dispose env w)) = emitted w ++ [("system_disposed", VNone)]
  /\ stdout (snd (dispose env w)) = stdout w ++ ["🧹 Sistema ReactiveUI limpiado"]
  /\ user (snd (dispose env w)) = user w
  /\ store_calls (snd (dispose env w)) = store_calls w.
Proof.
  unfold dispose.
  unfold mbind at 1, M_bind at 1, modify_ui at 1, modify at 1.
  unfold mbind at 1, M_bind at 1, modify_ui at 1, modify at 1.
  unfold mbind at 1, M_bind at 1.
  rewrite emit_without_observers by reflexivity.
  done.
Qed.

(** X6.  The listener that [unbind_element] leaves on the bus is inert:
    when it is called after the element was unbound, it returns without
    calling anything and leaves the world as it is, so that a delivery to
    it only shows in the log of deliveries. *)
Theorem unbound_listener_is_inert (env : Env) (eid : string) (n : nat)
    (d : Value) (name : string) (w : World) :
  let w' := snd (unbind_element eid w) in
  call env (BoundLambda n eid) d w' = (Ok tt, w')
  /\ fst (notify env name d (BoundLambda n eid) w') = Ok tt
  /\ ui (snd (notify env name d (BoundLambda n eid) w')) = ui w'
  /\ stdout (snd (notify env name d (BoundLambda n eid) w')) = stdout w'.
Proof.
  intros w'.
  assert (_ui_elements (ui w') !! eid = None) as Hgone.
  { subst w'. rewrite unbind_element_eq. simpl.
    destruct (_ui_elements (ui w) !! eid) eqn:Hb; simpl; [|done].
    apply lookup_delete_eq. }
  assert (forall v, _ui_elements (ui v) !! eid = None ->
                    call env (BoundLambda n eid) d v = (Ok tt, v)) as Hcall.
  { intros v Hv. simpl. unfold _update_bound_element. run. by rewrite Hv. }
  split; [by apply Hcall|].
  unfold notify, try_except, log_delivered, modify. unfold mbind, M_bind.
  rewrite Hcall by done. done.
Qed.

(** X7.  A bound element survives a payload that is no change record:
    [_update_bound_element] never raises, and for a payload without
    [new_value] it prints one line, does not call the update callback and
    leaves the bus as it is. *)
Theorem bound_element_survives_bad_payload (env : Env) (eid : string)
    (d : Value) (w : World) :
  fst (_update_bound_element env eid d w) = Ok tt
  /\ (is_change d = false ->
      ui (snd (_update_bound_element env eid d w)) = ui w
      /\ (_ui_elements (ui w) !! eid = None ->
          stdout (snd (_update_bound_element env eid d w)) = stdout w)
      /\ (forall b, _ui_elements (ui w) !! eid = Some b ->
          exists e, fst (subscript_new_value d w) = Raise (TypeError e)
                    /\ stdout (snd (_update_bound_element env eid d w))
                       = stdout w ++ ["Error actualizando elemento vinculado "
                                      +:+ eid +:+ ": " +:+ e])).
Proof.
  unfold _update_bound_element. run.
  destruct (_ui_elements (ui w) !! eid) as [b|] eqn:Hb; simpl.
  - destruct d; simpl;
      try (split; [done|]; intros _; split; [done|]; split; [done|];
           intros b' Hb'; eexists; split; reflexivity).
    unfold call_external.
    destruct (callable env (callback b) d2 (ui w)) as [[[]|e] u]; simpl;
      (split; [done|discriminate]).
  - split; [done|]. intros _. split; [done|]. split; [done|]. intros b' Hb'.
    discriminate.
Qed.

(** The theorem at an element bound on the sample bus that is handed
    [None]. *)
Lemma bound_element_survives_bad_payload_witness :
  stdout (snd (_update_bound_element sample_env "label" VNone
                 (snd (bind_element sample_env "label" "k" 1 sample_world))))
  = ["✅ Suscrito a evento 'state_changed_k'";
     "Error actualizando elemento vinculado label: 'NoneType' object is not subscriptable"].
Proof.
  destruct (bound_element_survives_bad_payload sample_env "label" VNone
              (snd (bind_element sample_env "label" "k" 1 sample_world)))
    as (_ & Hbad).
  destruct (Hbad eq_refl) as (_ & _ & Hline).
  destruct (Hline {| state_key := "k"; callback := 1%nat |} eq_refl)
    as (e & He & ->).
  simpl in He. injection He as <-. reflexivity.
Defined.

(** ** The order of the history and of the deliveries *)

Lemma insert_desc_Forall (P : EventRecord -> Prop) (r : EventRecord)
    (l : list EventRecord) :
  P r -> Forall P l -> Forall P (insert_desc r l).
Proof.
  intros Hr. induction 1 as [|y l Hy Hl IH]; simpl.
  - by constructor.
  - destruct (timestamp r <? timestamp y); repeat constructor; done.
Qed.

Lemma insert_desc_sorted (r : EventRecord) (l : list EventRecord) :
  newest_first l -> newest_first (insert_desc r l).
Proof.
  unfold newest_first. induction 1 as [|y l Hl IH Hy]; simpl.
  - repeat constructor.
  - destruct (timestamp r <? timestamp y) eqn:Hlt.
    + constructor; [exact IH|].
      apply insert_desc_Forall; [apply Z.ltb_lt in Hlt; lia|exact Hy].
    + apply Z.ltb_ge in Hlt. constructor; [by constructor|].
      constructor; [exact Hlt|].
      eapply Forall_impl; [exact Hy|]. simpl. intros b Hb. lia.
Qed.

Lemma sort_newest_first_sorted (l : list EventRecord) :
  newest_first (sort_newest_first l).
Proof.
  induction l as [|r l IH]; simpl.
  - constructor.
  - by apply insert_desc_sorted.
Qed.

Lemma newest_first_take (k : nat) (l : list EventRecord) :
  newest_first l -> newest_first (take k l).
Proof.
  unfold newest_first. intros Hl. revert k.
  induction Hl as [|y l Hl IH Hy]; intros [|k]; simpl; try constructor.
  - apply IH.
  - by apply Forall_take.
Qed.

Lemma newest_first_app (front rest : list EventRecord) :
  newest_first (front ++ rest) ->
  forall a b, a ∈ front -> b ∈ rest -> timestamp b <= timestamp a.
Proof.
  unfold newest_first. induction front as [|y front IH]; intros Hsorted a b Ha Hb.
  - by apply not_elem_of_nil in Ha.
  - simpl in Hsorted. apply StronglySorted_inv in Hsorted as [Htl Hhd].
    apply elem_of_cons in Ha as [->|Ha].
    + rewrite Forall_forall in Hhd. apply Hhd.
      apply elem_of_app. by right.
    + by apply IH.
Qed.

(** The sort is stable: the entries of one timestamp keep their order. *)
Lemma insert_desc_stable (t : Z) (r : EventRecord) (l : list EventRecord) :
  newest_first l ->
  filter (fun e => timestamp e = t) (insert_desc r l)
  = filter (fun e => timestamp e = t) (r :: l).
Proof.
  unfold newest_first. induction 1 as [|y l Hl IH Hy]; [done|]. simpl.
  destruct (timestamp r <? timestamp y) eqn:Hlt; [|done].
  apply Z.ltb_lt in Hlt.
  rewrite (filter_cons _ y (insert_desc r l)), IH.
  rewrite !filter_cons.
  destruct (decide (timestamp y = t)) as [Hyt|Hyt];
    destruct (decide (timestamp r = t)) as [Hrt|Hrt]; try done.
  lia.
Qed.

Lemma sort_newest_first_stable (t : Z) (l : list EventRecord) :
  filter (fun e => timestamp e = t) (sort_newest_first l)
  = filter (fun e => timestamp e = t) l.
Proof.
  induction l as [|r l IH]; [done|]. simpl.
  rewrite insert_desc_stable by apply sort_newest_first_sorted.
  by rewrite !filter_cons, IH.
Qed.

Lemma get_event_history_sorted_matching (u : ReactiveUI) (name : option string) :
  get_event_history u name None = sort_newest_first (matching u name).
Proof.
  unfold get_event_history, matching.
  destruct name as [n|]; [|done].
  case_bool_decide as Hn; [by subst|].
  destruct n; [done|reflexivity].
Qed.

(** X8.  [get_event_history] returns the entries newest first, whatever
    the order of the stored history: every limit gives a prefix of the
    full answer, a positive limit [n] its first [n] entries and a negative
    one all but the last [|n|]; the entries left out are not newer than
    the entries returned, and entries of one timestamp come in the order
    they were recorded. *)
Theorem get_event_history_newest_first (u : ReactiveUI) (name : option string)
    (limit : option Z) :
  let full := get_event_history u name None in
  newest_first (get_event_history u name limit)
  /\ (forall n, 0 < n ->
        get_event_history u name (Some n) = take (Z.to_nat n) full)
  /\ (forall n, n < 0 ->
        get_event_history u name (Some n)
        = take (length full - Z.to_nat (- n)) full)
  /\ (exists k, get_event_history u name limit = take k full
                /\ forall a b, a ∈ take k full -> b ∈ drop k full ->
                               timestamp b <= timestamp a)
  /\ (forall t, filter (fun e => timestamp e = t) full
                = filter (fun e => timestamp e = t) (matching u name)).
Proof.
  intros full.
  assert (newest_first full) as Hsorted.
  { subst full. rewrite get_event_history_sorted_matching.
    apply sort_newest_first_sorted. }
  assert (forall n, n <> 0 ->
            get_event_history u name (Some n) = slice_to full n) as Hslice.
  { intros n Hn. subst full. unfold get_event_history.
    apply Z.eqb_neq in Hn. by rewrite Hn. }
  assert (exists k, get_event_history u name limit = take k full) as [k Hk].
  { destruct limit as [n|]; [|exists (length full); by rewrite firstn_all].
    destruct (decide (n = 0)) as [->|Hn].
    - exists (length full). by rewrite firstn_all.
    - rewrite Hslice by done. unfold slice_to.
      destruct (n <? 0); eexists; reflexivity. }
  split; [rewrite Hk; by apply newest_first_take|].
  split.
  { intros n Hn. rewrite Hslice by lia. unfold slice_to.
    by rewrite (proj2 (Z.ltb_ge n 0)) by lia. }
  split.
  { intros n Hn. rewrite Hslice by lia. unfold slice_to.
    rewrite (proj2 (Z.ltb_lt n 0)) by lia. f_equal. lia. }
  split.
  { exists k. split; [exact Hk|]. intros a b Ha Hb.
    rewrite <- (take_drop k full) in Hsorted.
    by apply (newest_first_app (take k full) (drop k full)). }
  intros t. subst full. rewrite get_event_history_sorted_matching.
  apply sort_newest_first_stable.
Qed.

Lemma recorded_observers (env : Env) (n : string) (d : Value) (w : World) :
  observers (ui (recorded env n d w)) = observers (ui w).
Proof. reflexivity. Qed.



(** ** The scroll budget: further behaviour *)

Section BudgetMore.
Context (env : Env).

(** X10.  The gate and the remaining time never disagree: when both are
    asked in the same world, [check_scroll_limit] returns true exactly
    when [get_remaining_scroll_time] returns a positive number, also when
    the write of a pending rollover fails (then the answers are false and
    0); and both leave the same user object behind. *)
Theorem check_agrees_with_remaining (w : World) :
  exists r,
    fst (get_remaining_scroll_time env w) = Ok r
    /\ 0 <= r
    /\ fst (check_scroll_limit env w) = Ok (0 <? r)
    /\ user (snd (check_scroll_limit env w))
       = user (snd (get_remaining_scroll_time env w)).
Proof.
  unfold check_scroll_limit, get_remaining_scroll_time,
    _reset_daily_limits_if_needed, DAILY_SCROLL_LIMIT. run.
  case_bool_decide as Hday; simpl.
  - destruct (store_at env _ _); simpl.
    + exists 1800. repeat split; done.
    + exists 0. repeat split; done.
  - eexists. split; [reflexivity|]. split; [lia|]. split; [|done].
    f_equal. destruct (scroll_time_today (user w) <? 1800) eqn:Hlt.
    + apply Z.ltb_lt in Hlt. symmetry. apply Z.ltb_lt. lia.
    + apply Z.ltb_ge in Hlt. symmetry. apply Z.ltb_ge. lia.
Qed.

Lemma add_scroll_time_same_day (seconds : Z) (w : World) :
  last_scroll_reset (user w) = today_of env w ->
  let total := Z.min DAILY_SCROLL_LIMIT (scroll_time_today (user w) + seconds) in
  user (snd (add_scroll_time env seconds w))
  = set_scroll_time_today total (user w)
  /\ clock_reads (snd (add_scroll_time env seconds w)) = S (clock_reads w)
  /\ store_calls (snd (add_scroll_time env seconds w))
     = store_calls w
       ++ [UpdateUserScroll (user_id (user w)) total (last_scroll_reset (user w))]
  /\ fst (add_scroll_time env seconds w)
     = Ok (match store_at env (length (store_calls w))
                   (UpdateUserScroll (user_id (user w)) total
                      (last_scroll_reset (user w))) with
           | Done n => (0 <? n)%nat
           | Failed _ => false
           end).
Proof.
  intros Hday total. subst total.
  unfold add_scroll_time, _reset_daily_limits_if_needed, today_of,
    DAILY_SCROLL_LIMIT in *. run.
  rewrite bool_decide_false by (intros Hne; by apply Hne).
  simpl.
  destruct (1800 <? scroll_time_today (user w) + seconds) eqn:Hcap; simpl.
  - apply Z.ltb_lt in Hcap.
    rewrite Z.min_l by lia.
    destruct (store_at env _ _); simpl; repeat split; try done.
    all: destruct (user w); reflexivity.
  - apply Z.ltb_ge in Hcap.
    rewrite Z.min_r by lia.
    destruct (store_at env _ _); simpl; repeat split; try done.
    all: destruct (user w); reflexivity.
Qed.

End BudgetMore.

(** X11.  Within one day the budget adds up: after any number of
    consumptions of amounts that are not negative, the counter is the
    capped sum of the counter before and all the amounts, whatever the
    store answers, and nothing else of the user object has changed. *)
Theorem add_scroll_time_accumulates (env : Env) (day : date) (amounts : list Z)
    (w : World)
    (Hclock : clock_on_day env day)
    (Hday : last_scroll_reset (user w) = day)
    (Hamounts : Forall (fun s => 0 <= s) amounts)
    (Hcap : scroll_time_today (user w) <= DAILY_SCROLL_LIMIT) :
  user (foldl (budget_step env) w (AddScrollTime <$> amounts))
  = set_scroll_time_today
      (Z.min DAILY_SCROLL_LIMIT (scroll_time_today (user w) + foldr Z.add 0 amounts))
      (user w).
Proof.
  revert w Hday Hcap.
  induction Hamounts as [|s amounts Hs Hpos IH]; intros w Hday Hcap.
  - simpl. rewrite Z.add_0_r, Z.min_r by lia. by destruct (user w).
  - simpl.
    assert (last_scroll_reset (user w) = today_of env w) as Htoday
      by (unfold today_of; by rewrite Hclock).
    destruct (add_scroll_time_same_day env s w Htoday) as (Hu & _).
    assert (0 <= foldr Z.add 0 amounts) as Hsum.
    { clear -Hpos. induction Hpos; simpl; lia. }
    rewrite IH; rewrite ?Hu; simpl; try done; [|unfold DAILY_SCROLL_LIMIT; lia].
    unfold DAILY_SCROLL_LIMIT in *.
    replace (Z.min 1800 (Z.min 1800 (scroll_time_today (user w) + s)
                         + foldr Z.add 0 amounts))
      with (Z.min 1800 (scroll_time_today (user w) + (s + foldr Z.add 0 amounts)))
      by lia.
    by destruct (user w).
Qed.


(** The theorem for 700, 700 and 700 seconds on a clock that stands
    still, with a store that is down: the counter ends at the limit. *)
Lemma add_scroll_time_accumulates_witness :
  scroll_time_today
    (user (foldl (budget_step
                    {| now_at := now_at still_env;
                       store_at := store_at store_down_env;
                       callable := callable still_env;
                       sanitize_input := sanitize_input still_env |})
             (set_user (set_last_scroll_reset 1 sample_user) sample_world)
             (AddScrollTime <$> [700; 700; 700])))
  = 1800.
Proof.
  rewrite (add_scroll_time_accumulates _ 1 [700; 700; 700]).
  - reflexivity.
  - intros k. reflexivity.
  - reflexivity.
  - repeat constructor; lia.
  - vm_compute. discriminate.
Defined.

(** X12.  A consumption that is reported as failed is not undone: when
    the store raises on the write of the new counter, or says that it
    modified no document, [add_scroll_time] returns false and the user
    object keeps the time that was added. *)
Theorem add_scroll_time_failure_keeps_time (env : Env) (seconds : Z) (w : World)
    (Hday : last_scroll_reset (user w) = today_of env w)
    (Hstore : forall n,
       store_at env (length (store_calls w))
         (UpdateUserScroll (user_id (user w))
            (Z.min DAILY_SCROLL_LIMIT (scroll_time_today (user w) + seconds))
            (last_scroll_reset (user w))) = Done n -> n = 0%nat) :
  fst (add_scroll_time env seconds w) = Ok false
  /\ scroll_time_today (user (snd (add_scroll_time env seconds w)))
     = Z.min DAILY_SCROLL_LIMIT (scroll_time_today (user w) + seconds)
  /\ length (store_calls (snd (add_scroll_time env seconds w)))
     = S (length (store_calls w)).
Proof.
  destruct (add_scroll_time_same_day env seconds w Hday) as (Hu & _ & Hc & Hr).
  rewrite Hr, Hu, Hc. split; [|split; [done|rewrite length_app; simpl; lia]].
  destruct (store_at env _ _) as [n|e] eqn:Hanswer; [|done].
  by rewrite (Hstore n eq_refl).
Qed.

(** The theorem with the store down, for a user who has scrolled 100
    seconds today and scrolls 60 more. *)
Lemma add_scroll_time_failure_keeps_time_witness :
  fst (add_scroll_time store_down_env 60
         (scrolled_today store_down_env sample_world 100)) = Ok false
  /\ scroll_time_today
       (user (snd (add_scroll_time store_down_env 60
                     (scrolled_today store_down_env sample_world 100))))
     = 160.
Proof.
  destruct (add_scroll_time_failure_keeps_time store_down_env 60
              (scrolled_today store_down_env sample_world 100))
    as (Hr & Hu & _).
  - reflexivity.
  - intros n Hn. discriminate.
  - split; [exact Hr|]. rewrite Hu. reflexivity.
Defined.

(** X13.  The statistics are consistent with each other: when the
    counter is within the budget, a pending rollover is written and both
    readings of the clock fall on one day, [get_scroll_stats] returns a
    record in which used and remaining seconds add up to the limit of
    1800, the minutes are the seconds divided by 60 rounded down, the
    limit is 30 minutes, and the limit is reported as reached exactly
    when no second remains. *)
Theorem get_scroll_stats_consistent (env : Env) (w : World)
    (Hinv : budget_inv (user w))
    (Hwritten : rollover_written env w)
    (Hday : date_of (now_at env (S (clock_reads w))) = today_of env w) :
  exists st,
    fst (get_scroll_stats env w) = Ok (Some st)
    /\ used_time_seconds st = scroll_time_today (rolled env w)
    /\ used_time_seconds st + remaining_time_seconds st = DAILY_SCROLL_LIMIT
    /\ total_limit_minutes st = 30
    /\ used_time_minutes st = used_time_seconds st / 60
    /\ remaining_time_minutes st = remaining_time_seconds st / 60
    /\ is_limit_reached st = (remaining_time_seconds st =? 0).
Proof.
  unfold get_scroll_stats, get_remaining_scroll_time,
    _reset_daily_limits_if_needed, rolled, rollover_written, budget_inv,
    today_of, DAILY_SCROLL_LIMIT in *. run.
  case_bool_decide as Hstale; simpl.
  - destruct Hwritten as [Hsame|[n Hn]]; [done|].
    rewrite Hn. simpl. rewrite Hday.
    rewrite bool_decide_false by (intros Hne; by apply Hne). simpl.
    eexists. split; [reflexivity|]. simpl. repeat split; done.
  - assert (last_scroll_reset (user w) = date_of (now_at env (clock_reads w)))
      as Hsame by (destruct (decide (last_scroll_reset (user w)
                     = date_of (now_at env (clock_reads w)))); [done|by destruct Hstale]).
    rewrite Hday, bool_decide_false by (intros Hne; by apply Hne). simpl.
    eexists. split; [reflexivity|]. simpl.
    split; [done|]. split; [lia|]. split; [done|]. split; [done|].
    split; [done|].
    destruct (1800 <=? scroll_time_today (user w)) eqn:Hle.
    + apply Z.leb_le in Hle. symmetry. apply Z.eqb_eq. lia.
    + apply Z.leb_gt in Hle. symmetry. apply Z.eqb_neq. lia.
Qed.

(** The theorem for a user who has scrolled 1000 seconds today. *)
Lemma get_scroll_stats_consistent_witness :
  exists st,
    fst (get_scroll_stats still_env (scrolled_today still_env sample_world 1000))
    = Ok (Some st)
    /\ remaining_time_seconds st = 800.
Proof.
  destruct (get_scroll_stats_consistent still_env
              (scrolled_today still_env sample_world 1000))
    as (st & Hst & Hused & Hsum & _).
  - vm_compute. split; discriminate.
  - left. reflexivity.
  - reflexivity.
  - exists st. split; [exact Hst|].
    assert (scroll_time_today
              (rolled still_env (scrolled_today still_env sample_world 1000))
            = 1000) as Hthousand by reflexivity.
    rewrite Hthousand in Hused. unfold DAILY_SCROLL_LIMIT in Hsum. lia.
Defined.

(** X14.  The reset opens the gate whatever it returns: after
    [reset_user_scroll_time], also when the store refused the write and
    the result was false, a check on the same day returns true and the
    whole budget of 1800 seconds remains. *)
Theorem reset_user_scroll_time_reopens (env : Env) (w : World)
    (Hday : date_of (now_at env (S (clock_reads w))) = today_of env w) :
  let w' := snd (reset_user_scroll_time env w) in
  fst (check_scroll_limit env w') = Ok true
  /\ fst (get_remaining_scroll_time env w') = Ok DAILY_SCROLL_LIMIT
  /\ fst (is_scroll_warning_needed env w') = Ok false
  /\ (fst (reset_user_scroll_time env w) = Ok true
      <-> exists n, store_at env (length (store_calls w))
                      (UpdateUserScroll (user_id (user w)) 0 (today_of env w))
                    = Done (S n)).
Proof.
  unfold reset_user_scroll_time, check_scroll_limit, is_scroll_warning_needed,
    get_remaining_scroll_time, _reset_daily_limits_if_needed, today_of,
    DAILY_SCROLL_LIMIT in *. run.
  destruct (store_at env _ _) as [n|e]; simpl; rewrite Hday;
    rewrite bool_decide_false by (intros Hne; by apply Hne); simpl.
  - split; [done|]. split; [done|]. split; [done|]. split.
    + destruct n as [|n]; [discriminate|]. intros _. by exists n.
    + intros [m Hm]. injection Hm as ->. done.
  - split; [done|]. split; [done|]. split; [done|]. split; [discriminate|].
    intros [m Hm]. discriminate.
Qed.

(** The theorem with the store down at a user who had used up the
    budget. *)
Lemma reset_user_scroll_time_reopens_witness :
  fst (reset_user_scroll_time
         {| now_at := now_at still_env; store_at := store_at store_down_env;
            callable := callable still_env;
            sanitize_input := sanitize_input still_env |}
         (scrolled_today still_env sample_world 1800)) = Ok false
  /\ fst (check_scroll_limit
            {| now_at := now_at still_env; store_at := store_at store_down_env;
               callable := callable still_env;
               sanitize_input := sanitize_input still_env |}
            (snd (reset_user_scroll_time
                    {| now_at := now_at still_env;
                       store_at := store_at store_down_env;
                       callable := callable still_env;
                       sanitize_input := sanitize_input still_env |}
                    (scrolled_today still_env sample_world 1800)))) = Ok true.
Proof.
  split; [reflexivity|].
  refine (proj1 (reset_user_scroll_time_reopens _ _ _)). reflexivity.
Defined.

(** ** The posting quota: further behaviour *)

Section QuotaMore.
Context (env : Env).

(** Under the limit, with content that is not blank and an insertion that
    the store takes, [create_post] reaches the write of the counter. *)
Lemma create_post_inserted (content purpose source : string) (w : World) (n : nat) :
  daily_posts (user w) < 3 ->
  postable env content ->
  store_at env (length (store_calls w))
    (inserted_post env (user_id (user w)) content purpose source) = Done n ->
  let w2 :=
    {| ui := ui w; user := posted env w; clock_reads := 3 + clock_reads w;
       store_calls := store_calls w
         ++ [inserted_post env (user_id (user w)) content purpose source;
             counter_update env w];
       stdout := stdout w; emitted := emitted w; delivered := delivered w |} in
  create_post env content purpose source w
  = match store_at env (S (length (store_calls w))) (counter_update env w) with
    | Done _ =>
        (Ok true, snd (emit env "user_updated" (VUser user_object (user_id (user w))) w2))
    | Failed e =>
        (Ok false, snd (print ("Error creando post: " +:+ str_exc e) w2))
    end.
Proof.
  intros Hlimit Hblank Hstore. unfold postable in Hblank.
  unfold create_post, create_post_body, inserted_post, counter_update,
    posted in *. run.
  destruct (3 <=? daily_posts (user w)) eqn:Hle; [lia|]. simpl.
  rewrite Hblank. simpl. rewrite Hstore. simpl.
  destruct (bool_decide (last_post_date (user w) ≠ _)); unfold modify; simpl;
    rewrite length_app; simpl; rewrite Nat.add_1_r;
    (match goal with |- context [store_at env ?a ?b] =>
       destruct (store_at env a b) as [m|e] end; simpl;
     [|by rewrite <- app_assoc]);
    rewrite <- app_assoc; simpl;
    match goal with |- context [emit env ?a ?b ?c] =>
      pose proof (emit_spec env a b c) as (Hr & _);
      destruct (emit env a b c) as [[[]|e] w'] end; simpl in *; done.
Qed.

Lemma create_post_succeeds (content purpose source : string) (w : World) :
  daily_posts (user w) < 3 ->
  postable env content ->
  store_answers env ->
  let r := create_post env content purpose source w in
  fst r = Ok true
  /\ user (snd r) = posted env w
  /\ store_calls (snd r)
     = store_calls w
       ++ [inserted_post env (user_id (user w)) content purpose source;
           counter_update env w]
  /\ emitted (snd r) = emitted w ++ [("user_updated", VUser user_object (user_id (user w)))]
  /\ clock_reads (snd r) = (4 + clock_reads w)%nat.
Proof.
  intros Hlimit Hblank Hstore r. subst r.
  destruct (Hstore (length (store_calls w))
              (inserted_post env (user_id (user w)) content purpose source))
    as [n Hn].
  rewrite (create_post_inserted content purpose source w n Hlimit Hblank Hn).
  destruct (Hstore (S (length (store_calls w))) (counter_update env w))
    as [m ->].
  match goal with |- context [emit env ?a ?b ?c] =>
    destruct (emit_spec env a b c) as (_ & Hu & Hc & Hs & He & _) end.
  simpl in *. done.
Qed.

End QuotaMore.



(** X16.  The quota over a day: on a clock that stays on the day of the
    last post, with a store that takes the writes, a series of posts with
    content that is not blank succeeds until the counter is at 3 and is
    refused from then on; the counter ends at 3 (or where it was, if it
    was higher), and the store is written twice for each success and not
    at all for a refusal. *)
Theorem daily_quota_sequence (env : Env) (day : date) (contents : list string)
    (w : World)
    (Hclock : clock_on_day env day)
    (Hstore : store_answers env)
    (Hday : last_post_date (user w) = Some day)
    (Hcontents : Forall (postable env) contents) :
  let n := daily_posts (user w) in
  let successes := Z.to_nat (Z.min (Z.of_nat (length contents)) (3 - n)) in
  fst (create_posts env contents w)
  = replicate successes (Ok true)
    ++ replicate (length contents - successes) (Ok false)
  /\ daily_posts (user (snd (create_posts env contents w)))
     = Z.max n (Z.min 3 (n + Z.of_nat (length contents)))
  /\ length (store_calls (snd (create_posts env contents w)))
     = (length (store_calls w) + 2 * successes)%nat.
Proof.
  cbv zeta. revert w Hday.
  induction contents as [|content rest IH]; intros w Hday.
  - simpl.
    match goal with |- context [Z.to_nat ?x] =>
      replace (Z.to_nat x) with 0%nat by lia end.
    split; [reflexivity|]. split; lia.
  - apply Forall_cons in Hcontents as [Hcontent Hrest].
    specialize (IH Hrest). simpl create_posts. simpl fst. simpl snd.
    destruct (decide (daily_posts (user w) < 3)) as [Hunder|Hfull].
    + destruct (create_post_succeeds env content "" "" w Hunder Hcontent Hstore)
        as (Hr & Hu & Hs & _).
      assert (posted env w = set_daily_posts (daily_posts (user w) + 1) (user w))
        as Hposted.
      { unfold posted. rewrite Hclock, Hday.
        by rewrite bool_decide_false by (intros Hne; by apply Hne). }
      rewrite Hposted in Hu.
      destruct (IH (snd (create_post env content "" "" w))) as (IHr & IHn & IHs).
      { by rewrite Hu. }
      rewrite Hr, IHr, IHn, IHs, Hs, Hu, length_app. simpl length.
      simpl daily_posts.
      replace (Z.to_nat (Z.of_nat (S (length rest)) `min` (3 - daily_posts (user w))))
        with (S (Z.to_nat (Z.of_nat (length rest)
                           `min` (3 - (daily_posts (user w) + 1))))) by lia.
      simpl. split; [done|]. split; lia.
    + rewrite create_post_at_limit by lia. cbn [fst snd].
      destruct (IH (snd (print quota_line w))) as (IHr & IHn & IHs); [done|].
      rewrite IHr, IHn, IHs. simpl.
      replace (Z.to_nat (Z.of_nat (length rest) `min` (3 - daily_posts (user w))))
        with 0%nat by lia.
      replace (Z.to_nat (Z.of_nat (S (length rest)) `min` (3 - daily_posts (user w))))
        with 0%nat by lia.
      simpl. rewrite Nat.sub_0_r. split; [done|]. split; lia.
Qed.

(** The theorem for five posts of a user without posts today: three go
    through. *)
Lemma daily_quota_sequence_witness :
  fst (create_posts still_env ["a"; "b"; "c"; "d"; "e"]
         (set_user (set_last_post_date (Some 1) sample_user) sample_world))
  = [Ok true; Ok true; Ok true; Ok false; Ok false].
Proof.
  refine (proj1 (daily_quota_sequence still_env 1 ["a"; "b"; "c"; "d"; "e"]
                   (set_user (set_last_post_date (Some 1) sample_user) sample_world)
                   _ _ _ _)).
  - intros k. reflexivity.
  - intros k c. by exists 1%nat.
  - reflexivity.
  - repeat constructor.
Defined.

(** X17.  A post is not taken back when the counter cannot be written:
    if the store takes the insertion and raises on the update of the user,
    [create_post] returns false although the post is in the store, the
    user object has counted it, and no [user_updated] is announced. *)
Theorem create_post_not_atomic (env : Env) (content purpose source : string)
    (w : World) (n : nat) (e : Exception)
    (Hlimit : daily_posts (user w) < 3)
    (Hcontent : postable env content)
    (Hinsert : store_at env (length (store_calls w))
                 (inserted_post env (user_id (user w)) content purpose source)
               = Done n)
    (Hupdate : store_at env (S (length (store_calls w))) (counter_update env w)
               = Failed e) :
  let r := create_post env content purpose source w in
  fst r = Ok false
  /\ store_calls (snd r)
     = store_calls w
       ++ [inserted_post env (user_id (user w)) content purpose source;
           counter_update env w]
  /\ user (snd r) = posted env w
  /\ emitted (snd r) = emitted w
  /\ stdout (snd r) = stdout w ++ ["Error creando post: " +:+ str_exc e].
Proof.
  intros r. subst r.
  rewrite (create_post_inserted env content purpose source w n Hlimit Hcontent Hinsert).
  rewrite Hupdate. simpl.
  done.
Qed.

(** The theorem at the sample user with a store that fails after the
    insertion. *)
Lemma create_post_not_atomic_witness :
  fst (create_post flaky_env "hola" "" "" sample_world) = Ok false
  /\ daily_posts (user (snd (create_post flaky_env "hola" "" "" sample_world))) = 1
  /\ length (store_calls (snd (create_post flaky_env "hola" "" "" sample_world)))
     = 2%nat.
Proof.
  destruct (create_post_not_atomic flaky_env "hola" "" "" sample_world 1
              (PyMongoError "connection lost"))
    as (Hr & Hs & Hu & _).
  - vm_compute. reflexivity.
  - reflexivity.
  - reflexivity.
  - reflexivity.
  - split; [exact Hr|]. rewrite Hs, Hu. split; reflexivity.
Defined.

(** X18.  Blank content costs nothing: under the limit, a content that is
    blank after sanitizing makes [create_post] return false before the
    clock, the store or the bus is touched, and the user object is left
    as it was; at the limit the refusal of the quota comes first. *)
Theorem create_post_blank_content (env : Env) (content purpose source : string)
    (w : World)
    (Hblank : is_blank (sanitize_input env content) = true) :
  fst (create_post env content purpose source w) = Ok false
  /\ user (snd (create_post env content purpose source w)) = user w
  /\ store_calls (snd (create_post env content purpose source w)) = store_calls w
  /\ emitted (snd (create_post env content purpose source w)) = emitted w
  /\ clock_reads (snd (create_post env content purpose source w)) = clock_reads w
  /\ ui (snd (create_post env content purpose source w)) = ui w
  /\ stdout (snd (create_post env content purpose source w))
     = stdout w
       ++ [if 3 <=? daily_posts (user w) then quota_line
           else "Error creando post: El contenido no puede estar vacío"].
Proof.
  unfold create_post, create_post_body, quota_line. run.
  destruct (3 <=? daily_posts (user w)); simpl; [done|].
  rewrite Hblank. simpl. done.
Qed.

(** The theorem for a content of three spaces. *)
Lemma create_post_blank_content_witness :
  fst (create_post sample_env "   " "" "" sample_world) = Ok false
  /\ store_calls (snd (create_post sample_env "   " "" "" sample_world)) = [].
Proof.
  destruct (create_post_blank_content sample_env "   " "" "" sample_world)
    as (Hr & _ & Hs & _).
  - reflexivity.
  - split; [exact Hr|]. rewrite Hs. reflexivity.
Defined.

Lemma reset_daily_limits_stale (env : Env) (w : World) :
  last_post_date (user w) ≠ Some (today_of env w) ->
  fst (reset_daily_limits env w) = Ok tt
  /\ daily_posts (user (snd (reset_daily_limits env w))) = 0
  /\ user_id (user (snd (reset_daily_limits env w))) = user_id (user w)
  /\ store_calls (snd (reset_daily_limits env w)) = store_calls w
  /\ emitted (snd (reset_daily_limits env w)) = emitted w.
Proof.
  intros Hstale. unfold reset_daily_limits, today_of in *. run.
  rewrite bool_decide_true by done. simpl.
  case_bool_decide; simpl; done.
Qed.

(** X19.  [User.reset_daily_limits] is the rollover that [create_post]
    lacks: called on a user whose last post is not of today, it sets the
    counter to 0 without touching the store, and the post that follows
    goes through and leaves the counter at 1, also for a user who was at
    the limit. *)
Theorem reset_daily_limits_reopens_quota (env : Env)
    (content purpose source : string) (w : World)
    (Hstale : last_post_date (user w) ≠ Some (today_of env w))
    (Hcontent : postable env content)
    (Hstore : store_answers env) :
  let w1 := snd (reset_daily_limits env w) in
  store_calls w1 = store_calls w
  /\ daily_posts (user w1) = 0
  /\ fst (create_post env content purpose source w1) = Ok true
  /\ daily_posts (user (snd (create_post env content purpose source w1))) = 1.
Proof.
  intros w1. subst w1.
  destruct (reset_daily_limits_stale env w Hstale) as (_ & Hzero & _ & Hs & _).
  split; [exact Hs|]. split; [exact Hzero|].
  destruct (create_post_succeeds env content purpose source
              (snd (reset_daily_limits env w))) as (Hr & Hu & _);
    [lia|done|done|].
  split; [exact Hr|]. rewrite Hu. unfold posted.
  case_bool_decide; simpl; lia.
Qed.

(** The theorem at the user with three posts of day 0, on day 1: the post
    that [create_post] alone refuses goes through. *)
Lemma reset_daily_limits_reopens_quota_witness :
  fst (create_post sample_env "hola" "" ""
         (snd (reset_daily_limits sample_env at_limit_world))) = Ok true.
Proof.
  refine (proj1 (proj2 (proj2
    (reset_daily_limits_reopens_quota sample_env "hola" "" "" at_limit_world
       _ _ _)))).
  - vm_compute. discriminate.
  - reflexivity.
  - intros k c. by exists 1%nat.
Defined.

(** ** The models: likes of a post, the stored user document *)

Lemma remove_first_elem (x y : string) (l : list string) :
  x ∈ remove_first y l -> x ∈ l.
Proof.
  induction l as [|z l IH]; simpl; [done|].
  destruct (decide (z = y)); rewrite !elem_of_cons; intuition.
Qed.

Lemma remove_first_NoDup (y : string) (l : list string) :
  NoDup l -> NoDup (remove_first y l) /\ y ∉ remove_first y l.
Proof.
  induction 1 as [|z l Hz Hl [IH1 IH2]]; simpl.
  - split; [constructor|apply not_elem_of_nil].
  - destruct (decide (z = y)) as [->|Hne]; [done|].
    split.
    + constructor; [|done]. intros Hin. by apply Hz, (remove_first_elem _ y).
    + rewrite elem_of_cons. intros [->|Hin]; done.
Qed.

Lemma remove_first_length (y : string) (l : list string) :
  y ∈ l -> S (length (remove_first y l)) = length l.
Proof.
  induction l as [|z l IH]; simpl; [by intros ?%not_elem_of_nil|].
  destruct (decide (z = y)) as [->|Hne]; [done|].
  rewrite elem_of_cons. intros [->|Hin]; [done|]. simpl. by rewrite IH.
Qed.

Lemma remove_first_app_new (y : string) (l : list string) :
  y ∉ l -> remove_first y (l ++ [y]) = l.
Proof.
  induction l as [|z l IH]; simpl; intros Hy.
  - by rewrite decide_True.
  - apply not_elem_of_cons in Hy as [Hne Hy].
    rewrite decide_False by done. by rewrite IH.
Qed.

Lemma like_step_inv (p : Post) (op : LikeOp) :
  likes_inv p -> likes_inv (like_step p op).
Proof.
  intros [Hnodup Hcount]. destruct op as [uid|uid]; simpl.
  - unfold add_like. case_bool_decide as Hin; [done|]. split; simpl.
    + apply NoDup_app. split; [done|]. split; [|apply NoDup_singleton].
      intros x Hx ->%list_elem_of_singleton. done.
    + rewrite length_app. simpl. lia.
  - unfold remove_like. case_bool_decide as Hin; [|done]. split; simpl.
    + by apply remove_first_NoDup.
    + pose proof (remove_first_length uid (liked_by p) Hin). lia.
Qed.

(** X20.  The like counter counts the users who like the post: if nobody
    is listed twice and the counter is the length of the list, then after
    any sequence of likes and withdrawals this is still so, and the
    counter is not negative. *)
Theorem likes_count_invariant (ops : list LikeOp) (p : Post)
    (Hinv : likes_inv p) :
  likes_inv (foldl like_step p ops)
  /\ 0 <= likes (foldl like_step p ops).
Proof.
  assert (likes_inv (foldl like_step p ops)) as Hend.
  { revert p Hinv. induction ops as [|op ops IH]; intros p Hinv; [done|].
    simpl. by apply IH, like_step_inv. }
  split; [exact Hend|]. destruct Hend as [_ ->]. lia.
Qed.

(** The theorem for a post that two users like, one of them twice, and
    one leaves. *)
Lemma likes_count_invariant_witness :
  likes (foldl like_step sample_post
           [AddLike "u1"; AddLike "u2"; AddLike "u1"; RemoveLike "u2";
            RemoveLike "u3"])
  = 1.
Proof.
  destruct (likes_count_invariant
              [AddLike "u1"; AddLike "u2"; AddLike "u1"; RemoveLike "u2";
               RemoveLike "u3"] sample_post) as [[_ ->] _].
  - split; [constructor|reflexivity].
  - reflexivity.
Defined.

(** X21.  A like and its withdrawal: [add_like] succeeds exactly for a
    user who has not liked the post and [remove_like] exactly for one who
    has; after [add_like] the user has liked, and a second like of the
    same user is refused and counts nothing; the withdrawal undoes a like
    just given by a user who had not liked; and on a post of which nobody
    is listed twice the withdrawal leaves the user without a like. *)
Theorem like_unlike_round_trip (uid : string) (p : Post) :
  fst (add_like uid p) = negb (has_liked uid p)
  /\ fst (remove_like uid p) = has_liked uid p
  /\ has_liked uid (snd (add_like uid p)) = true
  /\ add_like uid (snd (add_like uid p)) = (false, snd (add_like uid p))
  /\ (has_liked uid p = false -> snd (remove_like uid (snd (add_like uid p))) = p)
  /\ (NoDup (liked_by p) -> has_liked uid (snd (remove_like uid p)) = false).
Proof.
  unfold add_like, remove_like, has_liked.
  destruct (decide (uid ∈ liked_by p)) as [Hin|Hout].
  - rewrite !(bool_decide_true (uid ∈ liked_by p)) by done. simpl.
    rewrite ?(bool_decide_true (uid ∈ liked_by p)) by done.
    repeat split; try done.
    intros Hnodup. apply bool_decide_false. by apply remove_first_NoDup.
  - rewrite !(bool_decide_false (uid ∈ liked_by p)) by done. simpl.
    assert (uid ∈ liked_by p ++ [uid]) as Hnew
      by (apply elem_of_app; right; apply list_elem_of_singleton; done).
    rewrite !(bool_decide_true (uid ∈ liked_by p ++ [uid])) by done.
    repeat split; try done.
    intros _. simpl. rewrite remove_first_app_new by done.
    unfold with_likes. simpl. destruct p; simpl. f_equal. lia.
Qed.

(** The theorem at the post that nobody likes. *)
Lemma like_unlike_round_trip_witness :
  snd (remove_like "u1" (snd (add_like "u1" sample_post))) = sample_post
  /\ has_liked "u1" (snd (remove_like "u1" sample_post)) = false.
Proof.
  destruct (like_unlike_round_trip "u1" sample_post)
    as (_ & _ & _ & _ & Hback & Hgone).
  split; [apply Hback; reflexivity|apply Hgone; constructor].
Defined.

(** X22.  The stored document gives the user back: [from_dict] of
    [to_dict] returns the user object it was written from, also one
    without a date of the last post, provided the sanitizer leaves the
    stored name as it is; on the way it reads the clock four times. *)
Theorem user_doc_round_trip (env : Env) (x : User) (w : World)
    (Hclean : sanitize_input env (username x) = username x) :
  fst (from_dict env (to_dict x) w) = Ok x
  /\ clock_reads (snd (from_dict env (to_dict x) w)) = (4 + clock_reads w)%nat
  /\ same_outside_ui
       (snd (from_dict env (to_dict x) w))
       {| ui := ui w; user := user w; clock_reads := 4 + clock_reads w;
          store_calls := store_calls w; stdout := stdout w;
          emitted := emitted w; delivered := delivered w |}.
Proof.
  unfold from_dict, User_init, to_dict, subscript, same_outside_ui. run.
  rewrite Hclean. split; [by destruct x|]. done.
Qed.

(** The theorem at the sample user, under the sanitizer that keeps its
    input. *)
Lemma user_doc_round_trip_witness :
  fst (from_dict sample_env (to_dict sample_user) sample_world) = Ok sample_user.
Proof.
  refine (proj1 (user_doc_round_trip sample_env sample_user sample_world _)).
  reflexivity.
Defined.

(** X23.  What [from_dict] asks of a document: the keys [user_id],
    [username] and [email] are required, and the first of them that is
    missing is named in a [KeyError] raised before the clock is read;
    every other key has a default, 0 for the two counters, no date of the
    last post (where the constructor would have put today), and today for
    the date of the last scroll reset. *)
Theorem from_dict_required_keys (env : Env) (d : UserDoc) (w : World) :
  match doc_user_id d, doc_username d, doc_email d with
  | None, _, _ => from_dict env d w = (Raise (KeyError "'user_id'"), w)
  | Some _, None, _ => from_dict env d w = (Raise (KeyError "'username'"), w)
  | Some _, Some _, None => from_dict env d w = (Raise (KeyError "'email'"), w)
  | Some uid, Some name, Some mail =>
      exists x,
        fst (from_dict env d w) = Ok x
        /\ user_id x = uid /\ username x = sanitize_input env name
        /\ email x = mail
        /\ password_hash x = default "" (doc_password_hash d)
        /\ daily_posts x = default 0 (doc_daily_posts d)
        /\ last_post_date x = doc_last_post_date d
        /\ scroll_time_today x = default 0 (doc_scroll_time_today d)
        /\ last_scroll_reset x
           = default (date_of (now_at env (3 + clock_reads w)))
               (doc_last_scroll_reset d)
        /\ profile_image x = doc_profile_image d
  end.
Proof.
  unfold from_dict, User_init, subscript. run.
  destruct (doc_user_id d) as [uid|]; simpl; [|done].
  destruct (doc_username d) as [name|]; simpl; [|done].
  destruct (doc_email d) as [mail|]; simpl; [|done].
  destruct (doc_last_scroll_reset d) as [day|]; simpl;
    eexists; (split; [reflexivity|]); simpl; repeat split; done.
Qed.

(** ** The window's counters and the length limit *)

Lemma create_post_reaches_store (env : Env) (content purpose source : string)
    (w : World) :
  daily_posts (user w) < 3 ->
  postable env content ->
  (length (store_calls w)
   < length (store_calls (snd (create_post env content purpose source w))))%nat.
Proof.
  intros Hlimit Hcontent.
  destruct (store_at env (length (store_calls w))
              (inserted_post env (user_id (user w)) content purpose source))
    as [n|e] eqn:Hinsert.
  - rewrite (create_post_inserted env content purpose source w n Hlimit
               Hcontent Hinsert).
    cbv zeta.
    match goal with |- context [store_at env ?a ?b] =>
      destruct (store_at env a b) as [m|e] end;
      match goal with |- context [snd (?a, ?b)] => change (snd (a, b)) with b end.
    + match goal with |- context [emit env ?a ?b ?c] =>
        destruct (emit_spec env a b c) as (_ & _ & _ & Hs & _) end.
      cbv zeta in Hs. rewrite Hs.
      simpl. rewrite length_app. simpl. lia.
    + simpl. rewrite length_app. simpl. lia.
  - unfold postable in Hcontent.
    unfold create_post, create_post_body, inserted_post in *. run.
    destruct (3 <=? daily_posts (user w)) eqn:Hle; [lia|]. simpl.
    rewrite Hcontent. simpl. rewrite Hinsert. simpl.
    rewrite length_app. simpl. lia.
Qed.

(** X24.  The counter of the window tells what [create_post] will do:
    for content that is not blank, the window shows 0 posts remaining
    exactly when [create_post] refuses without going to the store, and
    the number shown lies between 0 and 3 for a counter that is not
    negative. *)
Theorem posts_remaining_matches_quota (env : Env)
    (content purpose source : string) (w : World)
    (Hcontent : postable env content) :
  (posts_remaining (user w) = 0
   <-> store_calls (snd (create_post env content purpose source w))
       = store_calls w)
  /\ (posts_remaining (user w) = 0 ->
      create_post env content purpose source w
      = (Ok false, snd (print quota_line w)))
  /\ (0 <= daily_posts (user w) -> 0 <= posts_remaining (user w) <= 3).
Proof.
  unfold posts_remaining. split; [split|split].
  - intros Hzero. rewrite create_post_at_limit by lia. done.
  - intros Hsame.
    destruct (decide (daily_posts (user w) < 3)) as [Hunder|Hfull]; [|lia].
    pose proof (create_post_reaches_store env content purpose source w
                  Hunder Hcontent) as Hgrows.
    rewrite Hsame in Hgrows. lia.
  - intros Hzero. apply create_post_at_limit. lia.
  - lia.
Qed.

(** The theorem at the user with three posts of day 0 on day 1: the
    window shows 0, and the post is refused. *)
Lemma posts_remaining_matches_quota_witness :
  store_calls (snd (create_post sample_env "hola" "" "" at_limit_world)) = [].
Proof.
  destruct (posts_remaining_matches_quota sample_env "hola" "" "" at_limit_world)
    as ([Hrefused _] & _).
  - reflexivity.
  - rewrite Hrefused; reflexivity.
Defined.

(** X25.  The window rounds the remaining minutes up where the service
    rounds them down: for a counter within the budget whose day is today,
    the minutes the window shows as remaining are the remaining seconds
    of the service divided by 60 and rounded up, so they exceed the
    service's whole minutes by one unless the seconds are a multiple of
    60, and the minutes shown as used are those of the service. *)
Theorem window_rounds_remaining_up (env : Env) (w : World)
    (Hinv : budget_inv (user w))
    (Hday : last_scroll_reset (user w) = today_of env w) :
  exists r,
    fst (get_remaining_scroll_time env w) = Ok r
    /\ shown_scroll_remaining (user w)
       = r / 60 + (if r mod 60 =? 0 then 0 else 1)
    /\ shown_scroll_minutes (user w) + shown_scroll_remaining (user w) = 30.
Proof.
  unfold get_remaining_scroll_time, _reset_daily_limits_if_needed,
    shown_scroll_remaining, shown_scroll_minutes, budget_inv, today_of,
    DAILY_SCROLL_LIMIT in *. run.
  rewrite bool_decide_false by (intros Hne; by apply Hne). simpl.
  eexists. split; [reflexivity|].
  set (x := scroll_time_today (user w)) in *.
  assert (0 <= x / 60 <= 30) as Hq.
  { split; [apply Z.div_pos; lia|]. apply Z.div_le_upper_bound; lia. }
  pose proof (Z.div_mod x 60 ltac:(lia)) as Hx.
  pose proof (Z.mod_pos_bound x 60 ltac:(lia)) as Hxm.
  rewrite (Z.max_r 0 (1800 - x)) by lia.
  rewrite (Z.max_r 0 (30 - x / 60)) by lia.
  split; [|lia].
  destruct (decide (x mod 60 = 0)) as [Hzero|Hrest].
  - assert (1800 - x = (30 - x / 60) * 60) as -> by lia.
    rewrite Z.div_mul, Z.mod_mul by lia. simpl. lia.
  - assert (1800 - x = (60 - x mod 60) + (29 - x / 60) * 60) as -> by lia.
    rewrite Z.div_add, Z.mod_add by lia.
    rewrite (Z.div_small (60 - x mod 60)), (Z.mod_small (60 - x mod 60)) by lia.
    rewrite (proj2 (Z.eqb_neq (60 - x mod 60) 0)) by lia. lia.
Qed.

(** The theorem for a user who has scrolled 1750 seconds today: 50
    seconds remain, the window shows one minute. *)
Lemma window_rounds_remaining_up_witness :
  shown_scroll_remaining (user (scrolled_today sample_env sample_world 1750)) = 1
  /\ fst (get_remaining_scroll_time sample_env
            (scrolled_today sample_env sample_world 1750)) = Ok 50.
Proof.
  destruct (window_rounds_remaining_up sample_env
              (scrolled_today sample_env sample_world 1750))
    as (r & Hr & Hshown & _).
  - vm_compute. split; discriminate.
  - reflexivity.
  - split; reflexivity.
Defined.

(** X26.  The length limit of the sanitizer: for a maximum that is not
    negative the result is a prefix of the text of at most that length,
    it is the text itself when that is short enough, and limiting again
    changes nothing. *)
Theorem _limit_length_bound {A} (text : list A) (max_length : Z)
    (Hmax : 0 <= max_length) :
  Z.of_nat (length (_limit_length text max_length)) <= max_length
  /\ _limit_length text max_length `prefix_of` text
  /\ (Z.of_nat (length text) <= max_length -> _limit_length text max_length = text)
  /\ _limit_length (_limit_length text max_length) max_length
     = _limit_length text max_length.
Proof.
  assert (forall l : list A,
            Z.of_nat (length l) <= max_length -> _limit_length l max_length = l)
    as Hshort.
  { intros l Hl. unfold _limit_length.
    by rewrite (proj2 (Z.ltb_ge max_length (Z.of_nat (length l)))) by lia. }
  assert (Z.of_nat (length (_limit_length text max_length)) <= max_length)
    as Hbound.
  { unfold _limit_length, slice_to.
    destruct (max_length <? Z.of_nat (length text)) eqn:Hlong.
    - rewrite (proj2 (Z.ltb_ge max_length 0)) by lia.
      rewrite length_take. lia.
    - apply Z.ltb_ge in Hlong. lia. }
  split; [exact Hbound|]. split; [|split; [apply Hshort|by apply Hshort]].
  unfold _limit_length, slice_to.
  destruct (max_length <? Z.of_nat (length text)); [|done].
  rewrite (proj2 (Z.ltb_ge max_length 0)) by lia.
  apply prefix_take.
Qed.

(** The theorem for a text of five characters and a maximum of 3. *)
Lemma _limit_length_bound_witness :
  _limit_length [1; 2; 3; 4; 5] 3 `prefix_of` [1; 2; 3; 4; 5].
Proof.
  refine (proj1 (proj2 (_limit_length_bound [1; 2; 3; 4; 5] 3 _))). lia.
Defined.
